(** * RootPainter3D: tiled volumetric inference and the file-based protocol

    A shallow embedding of
    - [trainer/model_utils.py]: [load_model], [segment_3d],
      [ensemble_segment_3d];
    - [painter/src/file_utils.py]: [get_new_annot_target_dir],
      [maybe_save_annotation_3d];
    - [painter/src/main/python/root_painter.py]: the [check] closure that
      [RootPainter.track_changes] schedules every 500 ms.

    Python integers are [Z]; exceptions are values of [exn] carried by
    [result]; numpy arrays are a shape with an indexing function; the file
    system is explicit state. *)

From Stdlib Require Import ZArith Lia Bool Ascii String DecimalString DecimalPos DecimalZ.
From stdpp Require Import base list strings gmap sorting.

Local Open Scope Z_scope.

(** ** Python exceptions and fallible computations *)

Module Py.

Inductive exn : Type :=
  | AssertionError
  | IndexError
  | ValueError
  | TypeError
  | OSError
  | RuntimeError.

Inductive result (A : Type) : Type :=
  | Ok (a : A)
  | Raise (e : exn).
Arguments Ok {A} a.
Arguments Raise {A} e.

#[export] Instance result_ret : MRet result := fun _ a => Ok a.
#[export] Instance result_bind : MBind result := fun _ _ f m =>
  match m with
  | Ok a => f a
  | Raise e => Raise e
  end.
#[export] Instance result_fmap : FMap result := fun _ _ f m =>
  match m with
  | Ok a => Ok (f a)
  | Raise e => Raise e
  end.

#[export] Instance exn_eq_dec : EqDecision exn.
Proof. solve_decision. Defined.

(** [assert cond] *)
Definition assert (cond : bool) : result unit :=
  if cond then Ok tt else Raise AssertionError.

Definition is_ok {A} (r : result A) : bool :=
  match r with Ok _ => true | Raise _ => false end.

(** *** Sequences *)

(** [l[i]] for a Python int [i]: negative indices count from the end, and
    an index outside [-len, len) raises [IndexError]. *)
Definition getitem {A} (l : list A) (i : Z) : result A :=
  let n := Z.of_nat (length l) in
  let j := if i <? 0 then i + n else i in
  if (0 <=? j) && (j <? n) then
    match l !! Z.to_nat j with
    | Some a => Ok a
    | None => Raise IndexError
    end
  else Raise IndexError.

(** One axis of a slice [a[start:stop]] on an axis of extent [n]: negative
    bounds count from the end, and both bounds are clamped to [0, n].
    The result is the first index taken and the number of indices taken. *)
Definition slice_bound (n i : Z) : Z :=
  if i <? 0 then Z.max (i + n) 0 else Z.min i n.

Definition slice_axis (n start stop : Z) : Z * Z :=
  let s := slice_bound n start in
  let e := slice_bound n stop in
  (s, Z.max 0 (e - s)).

(** *** Strings *)

Fixpoint is_prefix (p s : string) : bool :=
  match p, s with
  | EmptyString, _ => true
  | String a p', String b s' => if Ascii.eqb a b then is_prefix p' s' else false
  | String _ _, EmptyString => false
  end.

(** [s.replace(old, new)] for a non-empty [old]: occurrences are found from
    the left and do not overlap.  [skip] counts the characters of the
    occurrence just replaced that are still to be passed over. *)
Fixpoint replace_from (skip : nat) (old new s : string) : string :=
  match s with
  | EmptyString => EmptyString
  | String c s' =>
      match skip with
      | S k => replace_from k old new s'
      | O =>
          if is_prefix old s
          then new +:+ replace_from (String.length old - 1) old new s'
          else String c (replace_from O old new s')
      end
  end.

Definition replace (old new s : string) : string := replace_from O old new s.

(** [s.split(sep)] for a one-character separator: always at least one
    part, and empty parts are kept. *)
Fixpoint split_from (sep : ascii) (cur : string) (s : string) : list string :=
  match s with
  | EmptyString => [String.rev cur]
  | String c s' =>
      if Ascii.eqb c sep
      then String.rev cur :: split_from sep EmptyString s'
      else split_from sep (String c cur) s'
  end.

Definition split (sep : ascii) (s : string) : list string :=
  split_from sep EmptyString s.

(** Characters removed by [str.strip()] in the ASCII range. *)
Definition is_space (c : ascii) : bool :=
  let n := Ascii.nat_of_ascii c in
  ((9 <=? n) && (n <=? 13) || (28 <=? n) && (n <=? 32))%nat.

Fixpoint lstrip (s : string) : string :=
  match s with
  | String c s' => if is_space c then lstrip s' else s
  | EmptyString => EmptyString
  end.

Definition strip (s : string) : string :=
  String.rev (lstrip (String.rev (lstrip s))).

Definition digit_of (c : ascii) : option Z :=
  let n := Ascii.nat_of_ascii c in
  if ((48 <=? n) && (n <=? 57))%nat then Some (Z.of_nat n - 48) else None.

(** Decimal digits, with single underscores allowed between digits as in
    Python 3.6 and later.  [prev] says whether the previous character was a
    digit, so that a leading, trailing or doubled underscore is refused. *)
Fixpoint digits_from (acc : Z) (prev : bool) (s : string) : option Z :=
  match s with
  | EmptyString => if prev then Some acc else None
  | String c s' =>
      match digit_of c with
      | Some d => digits_from (10 * acc + d) true s'
      | None =>
          if Ascii.eqb c "_"%char && prev
          then match s' with
               | EmptyString => None
               | String c' _ =>
                   if Ascii.eqb c' "_"%char then None else digits_from acc false s'
               end
          else None
      end
  end.

(** [int(s)] on an ASCII string: surrounding whitespace, an optional sign
    and decimal digits; anything else raises [ValueError]. *)
Definition int (s : string) : result Z :=
  let t := strip s in
  let '(sign, body) :=
    match t with
    | String "-" r => (-1, r)
    | String "+" r => (1, r)
    | _ => (1, t)
    end in
  match digits_from 0 false body with
  | Some v => Ok (sign * v)
  | None => Raise ValueError
  end.

(** [str(n)] of an int: decimal digits, with a minus sign in front of a
    negative number. *)
Definition str_of_int (n : Z) : string := NilEmpty.string_of_int (Z.to_int n).

(** [s.zfill(width)]: zeros are put in front, after the sign if there is
    one. *)
Definition zfill (width : nat) (s : string) : string :=
  let fill := string_of_list_ascii (replicate (width - String.length s) "0"%char) in
  match s with
  | String c r =>
      if Ascii.eqb c "-" || Ascii.eqb c "+" then String c (fill +:+ r) else fill +:+ s
  | EmptyString => fill
  end.

(** [sep.join(parts)] *)
Definition str_join (sep : string) (parts : list string) : string :=
  String.concat sep parts.

(** [needle in s] for strings. *)
Fixpoint contains_sub (needle s : string) : bool :=
  is_prefix needle s ||
  match s with
  | String _ s' => contains_sub needle s'
  | EmptyString => false
  end.

(** [s.endswith(suffix)] *)
Definition endswith (suffix s : string) : bool :=
  is_prefix (String.rev suffix) (String.rev s).

(** [s.lower()] on ASCII letters; other bytes are kept. *)
Definition lower_char (c : ascii) : ascii :=
  let n := Ascii.nat_of_ascii c in
  if ((65 <=? n) && (n <=? 90))%nat then Ascii.ascii_of_nat (n + 32) else c.

Fixpoint lower (s : string) : string :=
  match s with
  | EmptyString => EmptyString
  | String c s' => String (lower_char c) (lower s')
  end.

(** [l[start:stop]] on a list. *)
Definition list_slice {A} (l : list A) (start stop : Z) : list A :=
  let '(s, n) := slice_axis (Z.of_nat (length l)) start stop in
  take (Z.to_nat n) (drop (Z.to_nat s) l).

(** [l[start:]] *)
Definition list_slice_from {A} (l : list A) (start : Z) : list A :=
  list_slice l start (Z.of_nat (length l)).

(** [l.index(x)]: the first position of [x], or [ValueError]. *)
Fixpoint list_index `{EqDecision A} (l : list A) (x : A) : result Z :=
  match l with
  | [] => Raise ValueError
  | y :: l' => if decide (y = x) then Ok 0 else (fun i => i + 1) <$> list_index l' x
  end.

(** [sorted(names)] for strings: ascending by code point. *)
Definition sorted (names : list string) : list string := merge_sort String.le names.

(** The decimal digits, the characters that [strip] keeps, and the
    characters other than a given one. *)
Definition is_digit (c : ascii) : bool :=
  match digit_of c with Some _ => true | None => false end.

Definition not_space (c : ascii) : bool := negb (is_space c).

Definition is_not (c d : ascii) : bool := negb (Ascii.eqb c d).

(** The characters of [str(n)]. *)
Definition int_char (c : ascii) : bool := is_digit c || Ascii.eqb c "-".

(** Every character of a string passes a test. *)
Fixpoint str_all (P : ascii -> bool) (s : string) : bool :=
  match s with
  | EmptyString => true
  | String c s' => P c && str_all P s'
  end.

(** An upper-case ASCII letter. *)
Definition is_upper (c : ascii) : bool :=
  let n := Ascii.nat_of_ascii c in ((65 <=? n) && (n <=? 90))%nat.

End Py.

Import Py.

(** ** numpy arrays with three axes *)

Module Np.

(** An array is its shape [(depth, height, width)] and its indexing
    function [a[z, y, x]], which is only looked at inside the shape. *)
Record ndarray (A : Type) : Type := mk_ndarray {
  shape : Z * Z * Z;
  item : Z -> Z -> Z -> A
}.
Arguments mk_ndarray {A} shape item.
Arguments shape {A} _.
Arguments item {A} _ _ _ _.

Definition dim0 {A} (a : ndarray A) : Z := (shape a).1.1.
Definition dim1 {A} (a : ndarray A) : Z := (shape a).1.2.
Definition dim2 {A} (a : ndarray A) : Z := (shape a).2.

(** [np.zeros(shape)] *)
Definition zeros (s : Z * Z * Z) : ndarray Z := mk_ndarray s (fun _ _ _ => 0).

(** An elementwise operation on one array, and on two arrays of the same
    shape. *)
Definition map1 {A B} (f : A -> B) (a : ndarray A) : ndarray B :=
  mk_ndarray (shape a) (fun z y x => f (item a z y x)).

Definition map2 {A B C} (f : A -> B -> C) (a : ndarray A) (b : ndarray B) : ndarray C :=
  mk_ndarray (shape a) (fun z y x => f (item a z y x) (item b z y x)).

(** [a[z0:z1, y0:y1, x0:x1]] *)
Definition slice3 {A} (a : ndarray A) (z0 z1 y0 y1 x0 x1 : Z) : ndarray A :=
  let '(sz, nz) := slice_axis (dim0 a) z0 z1 in
  let '(sy, ny) := slice_axis (dim1 a) y0 y1 in
  let '(sx, nx) := slice_axis (dim2 a) x0 x1 in
  mk_ndarray (nz, ny, nx) (fun z y x => item a (sz + z) (sy + y) (sx + x)).

(** Two arrays hold the same data: same shape, same element at every index
    inside it. *)
Definition same_data {A} (a b : ndarray A) : Prop :=
  shape a = shape b /\
  forall z y x, 0 <= z < dim0 a -> 0 <= y < dim1 a -> 0 <= x < dim2 a ->
    item a z y x = item b z y x.

End Np.
Import Np.

(** ** The trainer's [im_utils] helpers called by [model_utils.py] *)

Module ImUtils.

(** Modelled from the spec: [im_utils.get_coords_3d] (the trainer's
    [im_utils.py] is not among the sources).  Along one axis of extent [n]
    the corners advance by the output-patch extent [t], and the last tile
    is aligned with the far edge of the axis. *)
Definition axis_coords (n t : Z) : list Z :=
  let count := (n + t - 1) / t in
  ((fun i => i * t) <$> seqZ 0 (count - 1)) ++ [n - t].

(** Modelled from the spec: a coordinate is a triple [(x, y, z)]; the
    sequence lists every combination of the per-axis corners. *)
Definition get_coords_3d (im_shape tile_shape : Z * Z * Z) : list (Z * Z * Z) :=
  let '(d, h, w) := im_shape in
  let '(td, th, tw) := tile_shape in
  x ← axis_coords w tw;
  y ← axis_coords h th;
  z ← axis_coords d td;
  [(x, y, z)].

(** Modelled from the spec: the index that the mirror padding of [pad_3d]
    reads (the edge value is not repeated) for position [i] of an axis of
    extent [n]; [i] may lie before 0 or after [n - 1]. *)
Definition reflect_index (n i : Z) : Z :=
  if n <=? 1 then 0
  else
    let period := 2 * (n - 1) in
    let m := i mod period in
    if m <? n then m else period - m.

(** Modelled from the spec: [im_utils.pad_3d(image, width, depth,
    mode='reflect', constant_values=0)] (not among the sources).  The
    volume is pre-padded by [depth] at both ends of axis 0 and by [width]
    at both ends of axes 1 and 2, mirroring the image. *)
Definition pad_3d {A} (image : ndarray A) (width depth : Z) : ndarray A :=
  mk_ndarray (dim0 image + 2 * depth, dim1 image + 2 * width, dim2 image + 2 * width)
    (fun z y x =>
       item image (reflect_index (dim0 image) (z - depth))
                  (reflect_index (dim1 image) (y - width))
                  (reflect_index (dim2 image) (x - width))).

(** Modelled from the spec: one step of [reconstruct_from_tiles], the
    assignment [image[z:z+d, y:y+h, x:x+w] = tile]. *)
Definition write_tile (image tile : ndarray Z) (coord : Z * Z * Z) : ndarray Z :=
  let '(x, y, z) := coord in
  mk_ndarray (shape image)
    (fun k j i =>
       if (z <=? k) && (k <? z + dim0 tile) &&
          (y <=? j) && (j <? y + dim1 tile) &&
          (x <=? i) && (i <? x + dim2 tile)
       then item tile (k - z) (j - y) (i - x)
       else item image k j i).

(** Modelled from the spec: [im_utils.reconstruct_from_tiles] (not among
    the sources).  One output array of the target shape is allocated, and
    each tile is written at its corner, in coordinate order, so that a
    later tile wins where two tiles overlap. *)
Definition reconstruct_from_tiles (tiles : list (ndarray Z))
    (coords : list (Z * Z * Z)) (output_shape : Z * Z * Z) : ndarray Z :=
  foldl (fun image tc => write_tile image tc.1 tc.2) (zeros output_shape) (zip tiles coords).

End ImUtils.

(** ** [trainer/model_utils.py] *)

Module ModelUtils.

Section Inference.

(** The float32 values of the tensors, with the pointwise operations of
    skimage and torch the code relies on. *)
Context {F : Type}.
(** [0.0], the value [F.pad] fills the two annotation channels with. *)
Variable fzero : F.
(** [skimage.img_as_float32] on one voxel of the image. *)
Variable img_as_float32 : Z -> F.
(** [im_utils.normalize_tile], which is not among the sources. *)
Variable normalize_tile : ndarray F -> ndarray F.
(** Component 1 of [softmax] over a (background, foreground) pair. *)
Variable softmax_fg : F -> F -> F.
(** [p > 0.5] *)
Variable gt_half : F -> bool.

(** A tensor of shape (batch, channels, depth, height, width): the number
    of channels and, for every sample of the batch, its channels. *)
Record tensor : Type := mk_tensor {
  channels : Z;
  samples : list (Z -> ndarray F)
}.

(** The network is opaque: any function from a batch to the logits. *)
Definition model : Type := tensor -> tensor.

(** *** [load_model] and its module-level cache *)

Record cache : Type := mk_cache {
  cached_model : option model;
  cached_model_path : option string
}.

Definition empty_cache : cache := mk_cache None None.

(** The type of the [classes] argument, and [UNet3D(classes, im_channels=3)]
    with the state dict stored at a path loaded into it (directly, or after
    wrapping in [DataParallel] when the first attempt raises).  Both are
    outside the sources. *)
Context {Classes : Type}.
Variable build_model : Classes -> string -> result model.

(** The part of [load_model] after the cache test: the model is built,
    stored in the cache and returned. *)
Definition load_fresh (model_path : string) (classes : Classes) (c : cache)
    : result model * cache :=
  match build_model classes model_path with
  | Ok m => (Ok m, mk_cache (Some m) (Some model_path))
  | Raise e => (Raise e, c)
  end.

(** [copy.deepcopy] of a model is the same function. *)
Definition load_model (model_path : string) (classes : Classes) (c : cache)
    : result model * cache :=
  match cached_model_path c, cached_model c with
  | Some p, Some m =>
      if String.eqb model_path p then (Ok m, c)
      else load_fresh model_path classes c
  | _, _ => load_fresh model_path classes c
  end.

(** *** [segment_3d] *)

Section Segment.

Variable cnn : model.
Variable image : ndarray Z.
Variable batch_size : Z.
Variable in_tile_shape : Z * Z * Z.
Variable coords : list (Z * Z * Z).

(** The patch read at a coordinate, converted and normalized (lines
    272-285); the asserts compare the shape of the slice with the input
    tile shape. *)
Definition input_tile (coord : Z * Z * Z) : result (ndarray F) :=
  let '(x_coord, y_coord, z_coord) := coord in
  let tile := slice3 image z_coord (z_coord + in_tile_shape.1.1)
                           y_coord (y_coord + in_tile_shape.1.2)
                           x_coord (x_coord + in_tile_shape.2) in
  _ ← assert (dim0 tile =? in_tile_shape.1.1);
  _ ← assert (dim1 tile =? in_tile_shape.1.2);
  _ ← assert (dim2 tile =? in_tile_shape.2);
  Ok (normalize_tile (map1 img_as_float32 tile)).

(** [for _ in range(batch_size)]: takes the next coordinate while there
    is one. *)
Fixpoint gather_tiles (n : nat) (coord_idx : nat) (tiles_to_process : list (ndarray F))
    : result (nat * list (ndarray F)) :=
  match n with
  | O => Ok (coord_idx, tiles_to_process)
  | S n' =>
      if (coord_idx <? length coords)%nat then
        coord ← getitem coords (Z.of_nat coord_idx);
        tile ← input_tile coord;
        gather_tiles n' (S coord_idx) (tiles_to_process ++ [tile])
      else gather_tiles n' coord_idx tiles_to_process
  end.

(** [F.pad(tiles_for_gpu, (0, 0, 0, 0, 0, 0, 0, 2), 'constant', 0)]: two
    zero channels after the image channel. *)
Definition gpu_sample (tile : ndarray F) : Z -> ndarray F :=
  fun c => if c =? 0 then tile else mk_ndarray (shape tile) (fun _ _ _ => fzero).

Definition tiles_for_gpu (tiles_to_process : list (ndarray F)) : tensor :=
  mk_tensor 3 (gpu_sample <$> tiles_to_process).

(** [class_idxs = [x * 2 for x in range(outputs.shape[1] // 2)]] *)
Definition class_idxs (outputs_channels : Z) : list Z :=
  (fun x => x * 2) <$> seqZ 0 (outputs_channels / 2).

(** Lines 309-315 on one sample of the batch: softmax over the channel
    pair, foreground probability, threshold, cast to int. *)
Definition predicted (class_idx : Z) (sample : Z -> ndarray F) : ndarray Z :=
  map2 (fun bg fg => if gt_half (softmax_fg bg fg) then 1 else 0)
       (sample class_idx) (sample (class_idx + 1)).

(** [for i, class_idx in enumerate(class_idxs)]: every tile of the batch is
    appended to [class_output_tiles[i]]. *)
Fixpoint append_class_tiles (i : nat) (idxs : list Z) (outputs : tensor)
    (class_output_tiles : list (list (ndarray Z))) : result (list (list (ndarray Z))) :=
  match idxs with
  | [] => Ok class_output_tiles
  | class_idx :: rest =>
      let pred_np := predicted class_idx <$> samples outputs in
      tiles' ←
        match pred_np with
        | [] => Ok class_output_tiles
        | _ :: _ =>
            l ← getitem class_output_tiles (Z.of_nat i);
            Ok (<[i := l ++ pred_np]> class_output_tiles)
        end;
      append_class_tiles (S i) rest outputs tiles'
  end.

(** One pass through the body of the [while] loop.  When no tile was
    gathered, which happens for a batch size below one,
    [np.array(tiles_to_process)] has the single axis of length 0 and
    [F.pad] with its eight pad widths refuses it with a [RuntimeError]. *)
Definition segment_batch (coord_idx : nat) (class_output_tiles : option (list (list (ndarray Z))))
    : result (nat * option (list (list (ndarray Z)))) :=
  '(coord_idx', tiles_to_process) ← gather_tiles (Z.to_nat batch_size) coord_idx [];
  _ ← match tiles_to_process with
      | [] => Raise RuntimeError
      | _ :: _ => Ok tt
      end;
  let outputs := cnn (tiles_for_gpu tiles_to_process) in
  let idxs := class_idxs (channels outputs) in
  let tiles0 :=
    match class_output_tiles with
    | None => (fun _ => []) <$> idxs
    | Some t => t
    end in
  tiles' ← append_class_tiles 0 idxs outputs tiles0;
  Ok (coord_idx', Some tiles').

(** [while coord_idx < len(coords)].  [None] when the fuel does not
    suffice. *)
Fixpoint segment_loop (fuel : nat) (coord_idx : nat)
    (class_output_tiles : option (list (list (ndarray Z))))
    : option (result (option (list (list (ndarray Z))))) :=
  if (coord_idx <? length coords)%nat then
    match fuel with
    | O => None
    | S fuel' =>
        match segment_batch coord_idx class_output_tiles with
        | Ok (coord_idx', tiles') => segment_loop fuel' coord_idx' tiles'
        | Raise e => Some (Raise e)
        end
    end
  else Some (Ok class_output_tiles).

End Segment.

(** *** What [segment_3d] is to compute *)

Section SegmentSpec.

(** What the network computes on one sample of a batch, and its number of
    output channels. *)
Variable net : (Z -> ndarray F) -> (Z -> ndarray F).
Variable nch : Z.
Variable image : ndarray Z.
Variable in_tile_shape : Z * Z * Z.
Variable coords : list (Z * Z * Z).

(** The window of the input tile shape at a coordinate lies inside the
    image. *)
Definition window_fits (coord : Z * Z * Z) : Prop :=
  let '(x, y, z) := coord in
  (0 <= z /\ 0 <= in_tile_shape.1.1 /\ z + in_tile_shape.1.1 <= dim0 image) /\
  (0 <= y /\ 0 <= in_tile_shape.1.2 /\ y + in_tile_shape.1.2 <= dim1 image) /\
  (0 <= x /\ 0 <= in_tile_shape.2 /\ x + in_tile_shape.2 <= dim2 image).

(** The patch at a coordinate, without the shape asserts. *)
Definition patch (coord : Z * Z * Z) : ndarray F :=
  let '(x, y, z) := coord in
  normalize_tile (map1 img_as_float32
    (slice3 image z (z + in_tile_shape.1.1) y (y + in_tile_shape.1.2)
                  x (x + in_tile_shape.2))).

(** The entry of the tile list of the class with background channel
    [class_idx] that belongs to a coordinate. *)
Definition tile_result (class_idx : Z) (coord : Z * Z * Z) : ndarray Z :=
  predicted class_idx (net (gpu_sample (patch coord))).

(** The tile lists when the coordinates [cs] have been processed. *)
Definition tiles_for (cs : list (Z * Z * Z)) : list (list (ndarray Z)) :=
  (fun class_idx => tile_result class_idx <$> cs) <$> class_idxs nch.

(** What holds of the state of the [while] loop at the top of its body. *)
Definition loop_invariant (k : nat) (acc : option (list (list (ndarray Z)))) : Prop :=
  (k = 0%nat /\ acc = None) \/ acc = Some (tiles_for (take k coords)).

End SegmentSpec.

(** [segment_3d]; [len(image.shape) == 3] holds of every [ndarray]. *)
Definition segment_3d (fuel : nat) (cnn : model) (image : ndarray Z) (batch_size : Z)
    (in_tile_shape out_tile_shape : Z * Z * Z) : option (result (list (ndarray Z))) :=
  match
    (_ ← assert (in_tile_shape.1.1 <=? dim0 image);
     _ ← assert (in_tile_shape.1.2 <=? dim1 image);
     assert (in_tile_shape.2 <=? dim2 image))
  with
  | Raise e => Some (Raise e)
  | Ok _ =>
      let depth_diff := in_tile_shape.1.1 - out_tile_shape.1.1 in
      let width_diff := in_tile_shape.1.2 - out_tile_shape.1.2 in
      let out_im_shape := (dim0 image - depth_diff,
                           dim1 image - width_diff,
                           dim2 image - width_diff) in
      let coords := ImUtils.get_coords_3d out_im_shape out_tile_shape in
      match segment_loop cnn image batch_size in_tile_shape coords fuel 0 None with
      | None => None
      | Some (Raise e) => Some (Raise e)
      | Some (Ok None) => Some (Raise TypeError)
      | Some (Ok (Some class_output_tiles)) =>
          Some (Ok ((fun output_tiles =>
                       ImUtils.reconstruct_from_tiles output_tiles coords out_im_shape)
                    <$> class_output_tiles))
      end
  end.

(** *** [ensemble_segment_3d] *)

(** Lines 167-173: the name without ['.nii.gz'] is split at underscores and
    the six pad values are read at fixed positions from the end. *)
Definition bounded_crop_values (fname : string) : result (Z * Z * Z * Z * Z * Z) :=
  let fname_parts := split "_" (replace ".nii.gz" "" fname) in
  x_crop_start ← getitem fname_parts (-8) ≫= int;
  x_crop_end ← getitem fname_parts (-7) ≫= int;
  y_crop_start ← getitem fname_parts (-5) ≫= int;
  y_crop_end ← getitem fname_parts (-4) ≫= int;
  z_crop_start ← getitem fname_parts (-2) ≫= int;
  z_crop_end ← getitem fname_parts (-1) ≫= int;
  Ok (x_crop_start, x_crop_end, y_crop_start, y_crop_end, z_crop_start, z_crop_end).

(** The underscore-delimited parts of a name, as line 167 computes them. *)
Definition fname_parts (fname : string) : list string :=
  split "_" (replace ".nii.gz" "" fname).

(** The convention of the bounded-image names, following the words of the
    specification:
    [<stem>_x_<x>_y_<y>_z_<z>_pad_x_<xs>_<xe>_y_<ys>_<ye>_z_<zs>_<ze>.nii.gz]
    with integer fields and a stem of at least one part. *)
Definition name_encoding_ok (fname : string) : bool :=
  match rev (fname_parts fname) with
  | ze :: zs :: kz :: ye :: ys :: ky :: xe :: xs :: kx :: kpad
      :: z :: bz :: y :: by_ :: x :: bx :: _ :: _ =>
      forallb (fun t => is_ok (int t)) [ze; zs; ye; ys; xe; xs; z; y; x]
      && forallb (fun kv => String.eqb kv.1 kv.2)
           [(kz, "z"); (ky, "y"); (kx, "x"); (kpad, "pad");
            (bz, "z"); (by_, "y"); (bx, "x")]
  | _ => false
  end.

(** Lines 187-189: [pred_map[zs:shape[0] - ze, ys:shape[1] - ye,
    xs:shape[2] - xe]]. *)
Definition crop_pred_map (pred_map : ndarray Z)
    (z_crop_start z_crop_end y_crop_start y_crop_end x_crop_start x_crop_end : Z)
    : ndarray Z :=
  slice3 pred_map z_crop_start (dim0 pred_map - z_crop_end)
                  y_crop_start (dim1 pred_map - y_crop_end)
                  x_crop_start (dim2 pred_map - x_crop_end).

(** Lines 166-189, applied to the maps [segment_3d] returned. *)
Definition crop_bounded (fname : string) (depth_diff height_diff width_diff : Z)
    (pred_maps : list (ndarray Z)) : result (list (ndarray Z)) :=
  '(x_crop_start, x_crop_end, y_crop_start, y_crop_end, z_crop_start, z_crop_end)
    ← bounded_crop_values fname;
  let z_crop_start := z_crop_start - depth_diff / 2 in
  let z_crop_end := z_crop_end - depth_diff / 2 in
  let y_crop_start := y_crop_start - height_diff / 2 in
  let y_crop_end := y_crop_end - height_diff / 2 in
  let x_crop_start := x_crop_start - width_diff / 2 in
  let x_crop_end := x_crop_end - width_diff / 2 in
  Ok ((fun pred_map =>
         crop_pred_map pred_map z_crop_start z_crop_end y_crop_start y_crop_end
                       x_crop_start x_crop_end) <$> pred_maps).

(** The module-level cache is threaded through as state; the timing and
    the [print] are left out. *)
Definition ensemble_segment_3d (fuel : nat) (model_paths : list string)
    (image : ndarray Z) (fname : string) (batch_size in_w out_w in_d out_d : Z)
    (classes : Classes) (bounded : bool) (c : cache)
    : option (result (list (ndarray Z))) * cache :=
  let input_image_shape := shape image in
  match getitem model_paths 0 with
  | Raise e => (Some (Raise e), c)
  | Ok model_path =>
      match load_model model_path classes c with
      | (Raise e, c') => (Some (Raise e), c')
      | (Ok cnn, c') =>
          let in_patch_shape := (in_d, in_w, in_w) in
          let out_patch_shape := (out_d, out_w, out_w) in
          let depth_diff := in_patch_shape.1.1 - out_patch_shape.1.1 in
          let height_diff := in_patch_shape.1.2 - out_patch_shape.1.2 in
          let width_diff := in_patch_shape.2 - out_patch_shape.2 in
          let image :=
            if bounded then image
            else ImUtils.pad_3d image (width_diff / 2) (depth_diff / 2) in
          match segment_3d fuel cnn image batch_size in_patch_shape out_patch_shape with
          | None => (None, c')
          | Some (Raise e) => (Some (Raise e), c')
          | Some (Ok pred_maps) =>
              (Some
                 (_ ← (if bounded then Ok tt
                       else first_map ← getitem pred_maps 0;
                            assert (bool_decide (shape first_map = input_image_shape)));
                  if bounded
                  then crop_bounded fname depth_diff height_diff width_diff pred_maps
                  else Ok pred_maps), c')
          end
      end
  end.

End Inference.

End ModelUtils.

(** ** [os.path] on POSIX path strings *)

Module OsPath.

Fixpoint contains (c : ascii) (s : string) : bool :=
  match s with
  | EmptyString => false
  | String d s' => Ascii.eqb c d || contains c s'
  end.

Definition startswith (p s : string) : bool := is_prefix p s.

Definition endswith_char (c : ascii) (s : string) : bool :=
  match String.rev s with
  | String d _ => Ascii.eqb c d
  | EmptyString => false
  end.

(** [os.path.join(a, b)] *)
Definition join (a b : string) : string :=
  if startswith "/" b then b
  else if String.eqb a "" || endswith_char "/" a then a +:+ b
  else a +:+ "/" +:+ b.

(** [os.path.basename(p)]: what follows the last slash. *)
Fixpoint basename (p : string) : string :=
  match p with
  | EmptyString => EmptyString
  | String c p' =>
      if contains "/" p' then basename p'
      else if Ascii.eqb c "/" then p' else p
  end.

(** [p[:i]] for [i = p.rfind('/') + 1] *)
Fixpoint head (p : string) : string :=
  match p with
  | EmptyString => EmptyString
  | String c p' =>
      if contains "/" p' then String c (head p')
      else if Ascii.eqb c "/" then "/" else EmptyString
  end.

Fixpoint lstrip_char (c : ascii) (s : string) : string :=
  match s with
  | String d s' => if Ascii.eqb c d then lstrip_char c s' else s
  | EmptyString => EmptyString
  end.

Definition rstrip_char (c : ascii) (s : string) : string :=
  String.rev (lstrip_char c (String.rev s)).

(** [os.path.dirname(p)] *)
Definition dirname (p : string) : string :=
  let h := head p in
  if String.eqb (lstrip_char "/" h) "" then h else rstrip_char "/" h.

(** What starts at the last dot of [s], or the empty string. *)
Fixpoint from_last_dot (s : string) : string :=
  match s with
  | EmptyString => EmptyString
  | String c s' =>
      if contains "." s' then from_last_dot s'
      else if Ascii.eqb c "." then s else EmptyString
  end.

(** [os.path.splitext(p)[1]]: leading dots of the file name do not start
    an extension. *)
Definition splitext_ext (p : string) : string :=
  from_last_dot (lstrip_char "." (basename p)).

End OsPath.

(** ** [painter/src/file_utils.py] *)

Module FileUtils.

(** An annotation array: its shape and its elements in C order. *)
Record annot : Type := mk_annot {
  a_shape : list Z;
  a_data : list Z
}.

#[export] Instance annot_eq_dec : EqDecision annot.
Proof. solve_decision. Defined.

(** [a.astype(np.byte)] on integer data: wrap-around to a signed byte. *)
Definition wrap_byte (v : Z) : Z := (v + 128) mod 256 - 128.

Definition astype_byte (a : annot) : annot :=
  mk_annot (a_shape a) (wrap_byte <$> a_data a).

(** [np.array(dataobj, dtype=bool)], with [True] as 1. *)
Definition astype_bool (a : annot) : annot :=
  mk_annot (a_shape a) ((fun v => if v =? 0 then 0 else 1) <$> a_data a).

(** [np.array_equal(a, b)] *)
Definition array_equal (a b : annot) : bool := bool_decide (a = b).

(** [np.sum(a)] *)
Definition np_sum (a : annot) : Z := foldr Z.add 0 (a_data a).

(** What the function does to the outside, in program order. *)
Inductive event : Type :=
  | EvLog (line : string)
  | EvRemove (path : string)
  | EvWrite (path : string) (data : annot)
  | EvMkdir (path : string)
  | EvRename (src dst : string).

#[export] Instance event_eq_dec : EqDecision event.
Proof. solve_decision. Defined.

(** The annotation files by path, and the journal of effects so far. *)
Record world : Type := mk_world {
  files : gmap string annot;
  journal : list event
}.

Definition emit (e : event) (w : world) : world :=
  mk_world (files w) (journal w ++ [e]).

(** [log(line)] *)
Definition log (line : string) (w : world) : world := emit (EvLog line) w.

(** [im_utils.load_annot(annot_path, shape)] *)
Definition load_annot (annot_path : string) (w : world) : result annot :=
  match files w !! annot_path with
  | Some a => Ok (astype_bool a)
  | None => Raise OSError
  end.

(** [os.remove(path)] *)
Definition os_remove (path : string) (w : world) : result unit * world :=
  match files w !! path with
  | Some _ => (Ok tt, emit (EvRemove path) (mk_world (delete path (files w)) (journal w)))
  | None => (Raise OSError, w)
  end.

(** [nib.Nifti1Image(data, np.eye(4)).to_filename(path)] *)
Definition to_filename (data : annot) (path : string) (w : world) : world :=
  emit (EvWrite path data) (mk_world (<[path := data]> (files w)) (journal w)).

(** [Path(dir).mkdir(parents=True, exist_ok=True)]; directories hold no
    data of their own here. *)
Definition mkdir (dir : string) (w : world) : world := emit (EvMkdir dir) w.

(** [os.rename(src, dst)] *)
Definition os_rename (src dst : string) (w : world) : result unit * world :=
  match files w !! src with
  | Some a =>
      (Ok tt, emit (EvRename src dst)
                (mk_world (<[dst := a]> (delete src (files w))) (journal w)))
  | None => (Raise OSError, w)
  end.

(** [get_recursive_files(input_path)]: the files below the directory. *)
Definition get_recursive_files (input_path : string) (w : world) : list string :=
  filter (fun p => Is_true (OsPath.startswith (OsPath.join input_path "") p))
         (map_to_list (files w)).*1.

Definition is_annot_file (f : string) : bool :=
  bool_decide (OsPath.splitext_ext f ∈ [".png"; ".npy"; ".gz"]).

(** [get_new_annot_target_dir] *)
Definition get_new_annot_target_dir (train_annot_dir val_annot_dir : string) (w : world)
    : string :=
  let train_annots := filter (fun f => Is_true (is_annot_file f))
                             (get_recursive_files train_annot_dir w) in
  let val_annots := filter (fun f => Is_true (is_annot_file f))
                           (get_recursive_files val_annot_dir w) in
  let num_train_annots := Z.of_nat (length train_annots) in
  let num_val_annots := Z.of_nat (length val_annots) in
  if (num_train_annots =? 0) && (num_val_annots =? 0) then train_annot_dir
  else if (num_train_annots =? 0) && (0 <? num_val_annots) then train_annot_dir
  else if (0 <? num_train_annots) && (num_val_annots =? 0) then val_annot_dir
  else if num_val_annots * 5 <=? num_train_annots then val_annot_dir
  else train_annot_dir.

(** [if annot_path:] on a value that is [None] or a string. *)
Definition truthy (annot_path : option string) : option string :=
  match annot_path with
  | Some p => if String.eqb p "" then None else Some p
  | None => None
  end.

(** [maybe_save_annotation_3d]; the result is the returned [annot_path]. *)
Definition maybe_save_annotation_3d (image_data_shape : list Z) (annot_data : annot)
    (annot_path : option string) (fname train_annot_dir val_annot_dir : string)
    (w : world) : result (option string) * world :=
  let annot_data := astype_byte annot_data in
  match truthy annot_path with
  | Some path =>
      match load_annot path w with
      | Raise e => (Raise e, w)
      | Ok loaded =>
          let existing_annot := astype_byte loaded in
          if negb (array_equal annot_data existing_annot) then
            if np_sum annot_data =? 0 then
              let w := log ("maybe_save_annot," +:+ fname +:+
                            ",remove existing annotation as new data is empty") w in
              match os_remove path w with
              | (Raise e, w) => (Raise e, w)
              | (Ok _, w) => (Ok annot_path, w)
              end
            else
              let w := log ("maybe_save_annot," +:+ fname +:+ ",updated existing data") w in
              let w := to_filename annot_data path w in
              (Ok annot_path, w)
          else (Ok annot_path, w)
      end
  | None =>
      if 0 <? np_sum annot_data then
        let w := log ("maybe_save_annot," +:+ fname +:+ ",create new") w in
        let annot_dir := get_new_annot_target_dir train_annot_dir val_annot_dir w in
        let tmp_annot_path := OsPath.join annot_dir (".tmp_" +:+ fname) in
        let w := mkdir (OsPath.dirname tmp_annot_path) w in
        let new_path := OsPath.join annot_dir fname in
        let w := mkdir (OsPath.dirname new_path) w in
        let w := to_filename annot_data tmp_annot_path w in
        match os_rename tmp_annot_path new_path w with
        | (Raise e, w) => (Raise e, w)
        | (Ok _, w) => (Ok (Some new_path), w)
        end
      else
        let w := log ("maybe_save_annot," +:+ fname +:+
                      ",not saving as annotation data empty") w in
        (Ok annot_path, w)
  end.

(** A journal in which every file is written under a hidden temporary
    name (".tmp_" prefix) and renamed right after the write. *)
Fixpoint writes_by_rename (j : list event) : bool :=
  match j with
  | [] => true
  | EvWrite p _ :: rest =>
      match rest with
      | EvRename src _ :: rest' =>
          String.eqb src p && OsPath.startswith ".tmp_" (OsPath.basename p)
          && writes_by_rename rest'
      | _ => false
      end
  | _ :: rest => writes_by_rename rest
  end.

(** *** Finding annotations and segmentations *)

(** [fname.endswith(('.dcm', '.dicom', '.sr', '.DCM', '.DICOM', '.SR'))] *)
Definition is_dicom_name (fname : string) : bool :=
  existsb (fun suffix => endswith suffix fname)
          [".dcm"; ".dicom"; ".sr"; ".DCM"; ".DICOM"; ".SR"].

(** Lines 53-57: the name under which the segmentation of an image is
    looked for. *)
Definition seg_base_fname (fname : string) : string :=
  if is_dicom_name fname
  then replace ".dcm" ".nii.gz" fname
  else replace ".nrrd" ".nii.gz" fname.

(** Lines 51-61: [for fname in fnames]. *)
Fixpoint penultimate_loop (fnames seg_fnames : list string)
    (pen_fname last_fname : option string) : option string :=
  match fnames with
  | [] => pen_fname
  | fname :: rest =>
      if bool_decide (seg_base_fname fname ∈ seg_fnames)
      then penultimate_loop rest seg_fnames
             (match last_fname with Some l => Some l | None => pen_fname end)
             (Some fname)
      else penultimate_loop rest seg_fnames pen_fname last_fname
  end.

Section Listing.

(** [os.listdir] and [os.path.isdir] on the segmentation folder, whose
    directories are not part of [world]. *)
Variable listdir : string -> result (list string).
Variable isdir : string -> bool.

(** [seg_fnames += os.listdir(seg_dir)] for every directory in turn. *)
Fixpoint list_all (seg_dirs : list string) : result (list string) :=
  match seg_dirs with
  | [] => Ok []
  | d :: rest =>
      names ← listdir d;
      more ← list_all rest;
      Ok (names ++ more)
  end.

(** Lines 41-49: the names of the segmentation files, of the class
    directories of [seg_dir] when it has any, of [seg_dir] itself
    otherwise. *)
Definition segmentation_fnames (seg_dir : string) : result (list string) :=
  entries ← listdir seg_dir;
  let seg_dirs :=
    OsPath.join seg_dir <$> List.filter (fun d => isdir (OsPath.join seg_dir d)) entries in
  let seg_dirs := match seg_dirs with [] => [seg_dir] | _ => seg_dirs end in
  list_all seg_dirs.

(** [penultimate_fname_with_segmentation] *)
Definition penultimate_fname_with_segmentation (fnames : list string) (seg_dir : string)
    : result (option string) :=
  seg_fnames ← segmentation_fnames seg_dir;
  Ok (penultimate_loop fnames seg_fnames None None).

End Listing.

(** Lines 79-85: the name under which the annotation of an image is
    stored. *)
Definition annot_fname (fname : string) : string :=
  if is_dicom_name fname
  then replace ".DCM" ".nii.gz" (replace ".dcm" ".nii.gz" fname)
  else replace ".nrrd" ".nii.gz" fname.

(** [os.path.isfile] on the annotation files. *)
Definition isfile (path : string) (w : world) : bool :=
  bool_decide (is_Some (files w !! path)).

(** [get_annot_path] *)
Definition get_annot_path (fname train_dir val_dir : string) (w : world) : option string :=
  let fname := annot_fname fname in
  let train_path := OsPath.join train_dir fname in
  let val_path := OsPath.join val_dir fname in
  if isfile train_path w then Some train_path
  else if isfile val_path w then Some val_path
  else None.

(** Data that holds zeros and ones only, as the painter's annotation
    does. *)
Definition binary (a : annot) : Prop := Forall (fun v => v = 0 \/ v = 1) (a_data a).

(** The annotation files below a directory, as lines 99-107 count them. *)
Definition num_annots (dir : string) (w : world) : Z :=
  Z.of_nat (length (filter (fun f => Is_true (is_annot_file f))
                           (get_recursive_files dir w))).

End FileUtils.

(** ** [painter/src/main/python/root_painter.py]: the change-watch loop *)

Module RootPainter.

(** [view_state.ViewState] *)
Inductive ViewState : Type := BOUNDING_BOX | LOADING_SEG | ANNOTATING.

#[export] Instance ViewState_eq_dec : EqDecision ViewState.
Proof. solve_decision. Defined.

(** *** The shared directory tree *)

(** A file: its modification time in clock ticks, its content, and whether
    another process holds it open so that deleting it is refused. *)
Record file : Type := mk_file {
  f_mtime : Z;
  f_content : string;
  f_locked : bool
}.

(** A directory entry, kept in the order [os.listdir] reports. *)
Record entry : Type := mk_entry {
  e_dir : string;
  e_name : string;
  e_file : file
}.

Record fs : Type := mk_fs {
  dirs : list string;
  entries : list entry
}.

Definition path_of (e : entry) : string := OsPath.join (e_dir e) (e_name e).

Definition lookup_path (path : string) (w : fs) : option entry :=
  List.find (fun e => String.eqb (path_of e) path) (entries w).

(** [os.listdir(d)] *)
Definition listdir (d : string) (w : fs) : result (list string) :=
  if bool_decide (d ∈ dirs w)
  then Ok (e_name <$> List.filter (fun e => String.eqb (e_dir e) d) (entries w))
  else Raise OSError.

(** [os.path.isfile(path)] *)
Definition isfile (path : string) (w : fs) : bool :=
  match lookup_path path w with Some _ => true | None => false end.

(** [os.path.getmtime(path)] *)
Definition getmtime (path : string) (w : fs) : result Z :=
  match lookup_path path w with
  | Some e => Ok (f_mtime (e_file e))
  | None => Raise OSError
  end.

(** [os.remove(path)] *)
Definition remove (path : string) (w : fs) : result fs :=
  match lookup_path path w with
  | Some e =>
      if f_locked (e_file e) then Raise OSError
      else Ok (mk_fs (dirs w)
                 (List.filter (fun e' => negb (String.eqb (path_of e') path)) (entries w)))
  | None => Raise OSError
  end.

(** *** The window *)

Inductive callback : Type :=
  | CbCheck
  | CbUpdateCursor (v : nat).

(** Calls into Qt and to [print], in program order; viewers are named by
    their index in [self.viewers], the axial viewer being the first. *)
Inductive qt_event : Type :=
  | SetInfoText (text : string)
  | UpdateSegSlice (v : nat)
  | UpdateCursor (v : nat)
  | SingleShot (ms : Z) (cb : callback)
  | NextButtonText (text : string)
  | NextButtonEnabled (enabled : bool)
  | LogDebounceStart
  | Print (text : string).

#[export] Instance callback_eq_dec : EqDecision callback.
Proof. solve_decision. Defined.
#[export] Instance qt_event_eq_dec : EqDecision qt_event.
Proof. solve_decision. Defined.

(** The text of the info label after a sequence of calls to Qt: the
    argument of the last [setText], if there was one. *)
Definition info_text (evs : list qt_event) : option string :=
  foldl (fun text ev => match ev with SetInfoText t => Some t | _ => text end) None evs.

Section Window.

(** Image and segmentation data, and the decoder behind
    [im_utils.load_seg(seg_path, img_data)]; the [im_utils] that
    [root_painter.py] imports is not among the sources. *)
Context {Img Seg Props : Type}.
Variable decode_seg : string -> Img -> result (Seg * Props).

Record painter : Type := mk_painter {
  tracking : bool;
  has_info_label : bool;
  message_dir : string;
  seg_path : option string;
  seg_mtime : option Z;
  seg_data : option Seg;
  seg_props : option Props;
  img_data : Img;
  view_state : ViewState;
  viewers : list bool;
  lines_to_log : list string;
  gui : list qt_event
}.

Definition set_tracking (b : bool) (p : painter) : painter :=
  mk_painter b (has_info_label p) (message_dir p) (seg_path p) (seg_mtime p)
    (seg_data p) (seg_props p) (img_data p) (view_state p) (viewers p)
    (lines_to_log p) (gui p).

Definition set_seg_mtime (t : option Z) (p : painter) : painter :=
  mk_painter (tracking p) (has_info_label p) (message_dir p) (seg_path p) t
    (seg_data p) (seg_props p) (img_data p) (view_state p) (viewers p)
    (lines_to_log p) (gui p).

Definition set_seg (seg : Seg) (props : Props) (p : painter) : painter :=
  mk_painter (tracking p) (has_info_label p) (message_dir p) (seg_path p) (seg_mtime p)
    (Some seg) (Some props) (img_data p) (view_state p) (viewers p)
    (lines_to_log p) (gui p).

Definition set_view_state (s : ViewState) (p : painter) : painter :=
  mk_painter (tracking p) (has_info_label p) (message_dir p) (seg_path p) (seg_mtime p)
    (seg_data p) (seg_props p) (img_data p) s (viewers p)
    (lines_to_log p) (gui p).

Definition qt (e : qt_event) (p : painter) : painter :=
  mk_painter (tracking p) (has_info_label p) (message_dir p) (seg_path p) (seg_mtime p)
    (seg_data p) (seg_props p) (img_data p) (view_state p) (viewers p)
    (lines_to_log p) (gui p ++ [e]).

(** [self.log(message)]: the line is queued and the debounce timer is
    started; the time stamps in front of the message are left out. *)
Definition log (message : string) (p : painter) : painter :=
  qt LogDebounceStart
    (mk_painter (tracking p) (has_info_label p) (message_dir p) (seg_path p) (seg_mtime p)
       (seg_data p) (seg_props p) (img_data p) (view_state p) (viewers p)
       (lines_to_log p ++ [message]) (gui p)).

(** [im_utils.load_seg(seg_path, img_data)] *)
Definition load_seg (path : string) (img : Img) (w : fs) : result (Seg * Props) :=
  match lookup_path path w with
  | Some e => decode_seg (f_content (e_file e)) img
  | None => Raise OSError
  end.

(** Lines 488-498: [for m in messages]. *)
Fixpoint show_messages (messages : list string) (p : painter) (w : fs) : painter * fs :=
  match messages with
  | [] => (p, w)
  | m :: rest =>
      let p := if has_info_label p then qt (SetInfoText m) p else p in
      match remove (OsPath.join (message_dir p) m) w with
      | Ok w' => show_messages rest p w'
      | Raise _ =>
          show_messages rest (qt (Print "Caught exception when trying to detele msg") p) w
      end
  end.

(** Lines 512-518: [for v in self.viewers]. *)
Fixpoint refresh_viewers (i : nat) (vs : list bool) (p : painter) : painter :=
  match vs with
  | [] => p
  | visible :: rest =>
      let p := qt (UpdateCursor i) p in
      let p := qt (SingleShot 500 (CbUpdateCursor i)) p in
      let p := if visible then qt (UpdateSegSlice i) p else p in
      refresh_viewers (S i) rest p
  end.

(** Lines 503-522, the body of the [try]: the window as the body left it,
    and whether the body raised. *)
Definition try_reload (path : string) (p : painter) (w : fs) : painter * result unit :=
  match getmtime path w with
  | Raise e => (p, Raise e)
  | Ok new_mtime =>
      if match seg_mtime p with
         | None => true
         | Some t => t <? new_mtime
         end
      then
        let p := log ("load_seg,fname:" +:+ OsPath.basename path) p in
        match load_seg path (img_data p) w with
        | Raise e => (p, Raise e)
        | Ok (seg, props) =>
            let p := set_seg seg props p in
            let p := qt (UpdateSegSlice 0) p in
            let p := set_view_state ANNOTATING p in
            let p := refresh_viewers 0 (viewers p) p in
            let p := set_seg_mtime (Some new_mtime) p in
            let p := qt (NextButtonText "Save && Next >") p in
            let p := qt (NextButtonEnabled true) p in
            (p, Ok tt)
        end
      else (p, Ok tt)
  end.

(** [hasattr(self, 'seg_path') and self.seg_path]: a missing attribute,
    [None] and the empty string all count as no path. *)
Definition truthy (path : option string) : option string :=
  match path with
  | Some s => if String.eqb s "" then None else Some s
  | None => None
  end.

(** The closure [check]: [Ok] when its last line, which schedules the
    next call, was reached; [Raise] when an exception left the closure
    before that. *)
Definition check (p : painter) (w : fs) : result (painter * fs) :=
  messages ← listdir (message_dir p) w;
  let '(p, w) := show_messages messages p w in
  let p :=
    match truthy (seg_path p) with
    | Some path =>
        if isfile path w then
          match try_reload path p w with
          | (p, Ok _) => p
          | (p, Raise _) => qt (Print "Exception loading segmentation") p
          end
        else p
    | None => p
    end in
  Ok (qt (SingleShot 500 CbCheck) p, w).

(** [track_changes] *)
Definition track_changes (p : painter) : painter :=
  if tracking p then p
  else
    let p := qt (Print "Starting watch for changes") p in
    let p := set_tracking true p in
    qt (SingleShot 500 CbCheck) p.

(** *** Other methods of the window *)

Definition set_lines_to_log (lines : list string) (p : painter) : painter :=
  mk_painter (tracking p) (has_info_label p) (message_dir p) (seg_path p) (seg_mtime p)
    (seg_data p) (seg_props p) (img_data p) (view_state p) (viewers p)
    lines (gui p).

(** The [while] loop of [log_debounced]: the first line of the queue is
    written and taken off the queue, until the queue is empty.  The file
    is the list of the lines written to it. *)
Fixpoint write_lines (lines : list string) (log_file : list string)
    : list string * list string :=
  match lines with
  | [] => (lines, log_file)
  | line :: rest => write_lines rest (log_file ++ [line])
  end.

(** [log_debounced], given that [client.csv] can be opened for appending. *)
Definition log_debounced (p : painter) (log_file : list string) : painter * list string :=
  let '(lines, log_file) := write_lines (lines_to_log p) log_file in
  (set_lines_to_log lines p, log_file).

(** [update_segmentation] *)
Definition update_segmentation (p : painter) (w : fs) : result painter :=
  match truthy (seg_path p) with
  | Some path =>
      if isfile path w then
        new_mtime ← getmtime path w;
        Ok (qt (NextButtonEnabled true)
              (qt (NextButtonText "Save && Next >") (set_seg_mtime (Some new_mtime) p)))
      else
        Ok (qt (NextButtonText "Loading Segmentation...")
              (qt (NextButtonEnabled false) (set_seg_mtime None p)))
  | None =>
      Ok (qt (NextButtonText "Loading Segmentation...")
            (qt (NextButtonEnabled false) (set_seg_mtime None p)))
  end.

(** Lines 185-188 of [update_file]: the image name that a bounded file
    name stands for. *)
Definition original_name (f : string) : string :=
  str_join "_" (list_slice (split "_" f) 0 (-16)) +:+ ".nii.gz".

(** Lines 178-188 of [update_file]: the first bounded file, among those
    with ['.nii.gz'] in their name, that stands for the image. *)
Definition find_bounded_fname (bounded_fnames : list string) (fname : string)
    : option string :=
  List.find (fun f => String.eqb (original_name f) fname)
            (List.filter (contains_sub ".nii.gz") bounded_fnames).

(** *** What a tick is to achieve *)

(** The fields of the window that the segmentation reload is about. *)
Definition seg_state (p : painter) : ViewState * option Z * option Seg * option Props :=
  (view_state p, seg_mtime p, seg_data p, seg_props p).

(** The state of the window after the messages: nothing but the calls
    made to Qt has changed. *)
Definition same_but_gui (p p' : painter) : Prop :=
  seg_state p' = seg_state p /\ message_dir p' = message_dir p /\
  has_info_label p' = has_info_label p /\ seg_path p' = seg_path p /\
  img_data p' = img_data p /\ lines_to_log p' = lines_to_log p /\
  viewers p' = viewers p /\ exists evs, gui p' = gui p ++ evs.


(** The text [check] prints when a message file cannot be deleted. *)
Definition delete_failed : qt_event :=
  Print "Caught exception when trying to detele msg".

End Window.

End RootPainter.

(** ** [trainer/model_utils.py]: the model files *)

Module ModelFiles.

Import ModelUtils.

(** [str(model_num).zfill(6) + '_' + str(now) + '.pkl'], the name that
    [create_first_model_with_random_weights] and [save_model] give to a
    model file; [now] is [int(round(time.time()))]. *)
Definition model_name (model_num now : Z) : string :=
  zfill 6 (str_of_int model_num) +:+ "_" +:+ str_of_int now +:+ ".pkl".

(** Lines 94-98: where the first model of a project is saved. *)
Definition first_model_path (model_dir : string) (now : Z) : string :=
  OsPath.join model_dir (model_name 1 now).

(** [int(prev_model_fname.split('_')[0])] *)
Definition model_number (model_path : string) : result Z :=
  getitem (split "_" (OsPath.basename model_path)) 0 ≫= int.

(** Lines 125-130 of [save_model]: where the new model is saved. *)
Definition save_model_path (model_dir prev_model_path : string) (now : Z) : result string :=
  prev_model_num ← model_number prev_model_path;
  let model_num := prev_model_num + 1 in
  Ok (OsPath.join model_dir (model_name model_num now)).

Section Store.

(** What [torch.save] writes and [torch.load] reads. *)
Context {StateDict : Type}.

(** [save_model]: the state dict is stored under the new path. *)
Definition save_model (store : gmap string StateDict) (model_dir : string)
    (cur_model : StateDict) (prev_model_path : string) (now : Z)
    : result (gmap string StateDict) :=
  model_path ← save_model_path model_dir prev_model_path now;
  Ok (<[model_path := cur_model]> store).

End Store.

Section Latest.

(** [file_utils.ls] of the trainer, which is not among the sources: the
    names of the files in a directory. *)
Variable ls : string -> list string.

(** [get_latest_model_paths] *)
Definition get_latest_model_paths (model_dir : string) (k : Z) : list string :=
  let fnames := ls model_dir in
  let fnames := list_slice_from (sorted fnames) (- k) in
  OsPath.join model_dir <$> fnames.

Context {F Classes : Type}.
Variable build_model : Classes -> string -> result (@model F).

(** [get_prev_model] *)
Definition get_prev_model (model_dir : string) (classes : Classes) (c : cache)
    : result (@model F * string) * cache :=
  match getitem (get_latest_model_paths model_dir 1) 0 with
  | Raise e => (Raise e, c)
  | Ok prev_path =>
      match load_model build_model prev_path classes c with
      | (Ok prev_model, c') => (Ok (prev_model, prev_path), c')
      | (Raise e, c') => (Raise e, c')
      end
  end.

End Latest.

End ModelFiles.

(** ** [painter/src/nav.py] *)

Module Nav.

(** The part of [NavWidget] that navigation reads and writes: the file
    names of the project, the dataset folder of the settings, the current
    image, and the text of the label. *)
Record nav : Type := mk_nav {
  all_fnames : list string;
  dataset_folder : string;
  image_path : string;
  nav_label : string
}.

(** [get_paths] *)
Definition get_paths (n : nav) : list string :=
  OsPath.join (dataset_folder n) <$> all_fnames n.

(** [update_nav_label]: the text is [f'{cur_idx + 1} / {len(all_paths)}']. *)
Definition update_nav_label (n : nav) : result nav :=
  let all_paths := get_paths n in
  cur_idx ← list_index all_paths (image_path n);
  Ok (mk_nav (all_fnames n) (dataset_folder n) (image_path n)
        (str_of_int (cur_idx + 1) +:+ " / " +:+ str_of_int (Z.of_nat (length all_paths)))).

(** [update_to_next_image], without the button texts; the path emitted by
    [file_change] is the new [image_path]. *)
Definition update_to_next_image (n : nav) : result nav :=
  let all_paths := get_paths n in
  cur_idx ← list_index all_paths (image_path n);
  let next_idx := cur_idx + 1 in
  let next_idx := if Z.of_nat (length all_paths) <=? next_idx then 0 else next_idx in
  path ← getitem all_paths next_idx;
  update_nav_label (mk_nav (all_fnames n) (dataset_folder n) path (nav_label n)).

(** [show_prev_image] *)
Definition show_prev_image (n : nav) : result nav :=
  let all_paths := get_paths n in
  cur_idx ← list_index all_paths (image_path n);
  let next_idx := cur_idx - 1 in
  let next_idx := if next_idx <=? 0 then 0 else next_idx in
  path ← getitem all_paths next_idx;
  update_nav_label (mk_nav (all_fnames n) (dataset_folder n) path (nav_label n)).

(** The position of the current image among the paths. *)
Definition position (n : nav) : result Z := list_index (get_paths n) (image_path n).

End Nav.

(** ** [painter/src/im_utils.py] *)

Module PainterImUtils.

(** [is_image]: the set of endings is tried against the name in lower
    case. *)
Definition extensions : list string :=
  [".npy"; "gz"; "nrrd"; ".dicom"; ".dcm"; ".DCM"; ".DICOM"; ".sr"; ".SR"].

Definition is_image (fname : string) : bool :=
  existsb (fun ext => endswith ext (lower fname)) extensions.

End PainterImUtils.

(** ** [trainer/unet3d.py]: the extents of the tensors *)

Module UNet3D.

(** [crop_tensor(tensor, target)] on the three spatial axes; the batch and
    channel axes are taken whole. *)
Definition crop_tensor {A} (tensor : ndarray A) (target_shape : Z * Z * Z) : ndarray A :=
  let '(crop_depth, crop_height, crop_width) := target_shape in
  let left := (dim2 tensor - crop_width) / 2 in
  let top := (dim1 tensor - crop_height) / 2 in
  let right := left + crop_width in
  let bottom := top + crop_height in
  let d_start := (dim0 tensor - crop_depth) / 2 in
  let d_end := d_start + crop_depth in
  slice3 tensor d_start d_end top bottom left right.

(** The extent of one spatial axis after a layer; [None] when torch
    refuses the input because the output would be empty. *)
Definition positive (n : Z) : option Z := if 0 <? n then Some n else None.

(** [nn.Conv3d(_, _, kernel_size, padding)] with stride 1 *)
Definition conv3d (kernel_size padding : Z) (n : Z) : option Z :=
  positive (n + 2 * padding - (kernel_size - 1)).

(** [nn.MaxPool3d(2)] *)
Definition max_pool3d (n : Z) : option Z := positive (n / 2).

(** [nn.ConvTranspose3d(_, _, kernel_size=2, stride=2, padding=1)] *)
Definition conv_transpose3d (n : Z) : option Z :=
  positive ((n - 1) * 2 - 2 * 1 + 2).

(** The extent of [a + b] for tensors: equal extents, or one of them 1. *)
Definition add_extent (a b : Z) : option Z :=
  if a =? b then Some a
  else if a =? 1 then Some b
  else if b =? 1 then Some a
  else None.

(** The extent that [crop_tensor] leaves of an axis of extent [n] for a
    target of extent [c]. *)
Definition crop_extent (n c : Z) : Z :=
  (slice_axis n ((n - c) / 2) ((n - c) / 2 + c)).2.

(** [DownBlock.forward] *)
Definition down_block (x : Z) : option Z :=
  out1 ← max_pool3d x;
  out2 ← conv3d 3 1 out1;
  out3 ← conv3d 3 1 out2;
  out4 ← conv3d 1 0 out3;
  add_extent out4 out1.

(** [UpBlock.forward] *)
Definition up_block (x down_out : Z) : option Z :=
  out ← conv_transpose3d x;
  let cropped := crop_extent down_out out in
  out ← add_extent cropped out;
  out ← conv3d 3 1 out;
  conv3d 3 1 out.

(** [UNet3D.forward] and [SmallUNet3D.forward], which have the same
    layers up to their channel counts. *)
Definition forward (x : Z) : option Z :=
  out1 ← conv3d 3 0 x ≫= conv3d 3 0;
  out2 ← down_block out1;
  out3 ← down_block out2;
  out4 ← down_block out3;
  out5 ← down_block out4;
  out ← up_block out5 out4;
  out ← up_block out out3;
  out ← up_block out out2;
  out ← up_block out out1;
  conv3d 1 0 out.

End UNet3D.

(** ** Concrete inputs *)

Module Runs.

Import ModelUtils.

(** A network whose foreground logit is the image channel itself, and two
    networks that answer foreground or background everywhere. *)
Definition copy_model : @model Z :=
  fun t => mk_tensor 2 ((fun sample _ => sample 0) <$> samples t).

Definition constant_model (fg : Z) : @model Z :=
  fun t => mk_tensor 2
    ((fun sample c => mk_ndarray (shape (sample 0)) (fun _ _ _ => if c =? 1 then fg else 0))
       <$> samples t).

(** A network that returns the centre of the image channel, the margins
    [m_d] and [m_w] cut off at both ends, as both logits. *)
Definition center_net (m_d m_w : Z) (sample : Z -> ndarray Z) : Z -> ndarray Z :=
  fun _ =>
    slice3 (sample 0) m_d (dim0 (sample 0) - m_d) m_w (dim1 (sample 0) - m_w)
           m_w (dim2 (sample 0) - m_w).

Definition center_model (m_d m_w : Z) : @model Z :=
  fun t => mk_tensor 2 (center_net m_d m_w <$> samples t).

Definition model_store (_ : unit) (path : string) : result (@model Z) :=
  if String.eqb path "models/000001_fg.pkl" then Ok (constant_model 1)
  else if String.eqb path "models/000002_bg.pkl" then Ok (constant_model 0)
  else if String.eqb path "models/000003_copy.pkl" then Ok copy_model
  else if String.eqb path "models/000004_center.pkl" then Ok (center_model 0 1)
  else Raise OSError.

(** [ensemble_segment_3d] with integers for floats, the foreground logit
    for the softmax and a positive logit for a probability above 0.5. *)
Definition run (fuel : nat) (model_paths : list string) (image : ndarray Z)
    (fname : string) (patch : Z) (bounded : bool) : option (result (list (ndarray Z))) :=
  (ensemble_segment_3d 0 id id (fun _ fg => fg) (fun p => 0 <? p) model_store
     fuel model_paths image fname 2 patch patch patch patch tt bounded empty_cache).1.

(** The voxel [0, 0, 0] of the first map. *)
Definition first_voxel (r : option (result (list (ndarray Z)))) : option Z :=
  match r with
  | Some (Ok (pred_map :: _)) => Some (item pred_map 0 0 0)
  | _ => None
  end.

Definition ramp : ndarray Z := mk_ndarray (1, 1, 3) (fun _ _ x => x).

End Runs.

(** An annotation of two voxels stored under the train directory, and an
    edit that moves the mark from the foreground to the background plane. *)
Module SaveRuns.

Import FileUtils.

Definition stored : annot := mk_annot [2; 1; 1; 1] [0; 1].
Definition edited : annot := mk_annot [2; 1; 1; 1] [1; 0].
Definition annot_file : string := "proj/annotations/train/scan.nii.gz".
Definition before : world := mk_world {[ annot_file := stored ]} [].

Definition save (annot_data : annot) (annot_path : option string) (w : world)
    : result (option string) * world :=
  maybe_save_annotation_3d [1; 1; 1] annot_data annot_path "scan.nii.gz"
    "proj/annotations/train" "proj/annotations/val" w.

End SaveRuns.

Module WatchRuns.

Import RootPainter.

(** Segmentation data is the text of the file; an empty file, as seen
    while the trainer is still writing, cannot be read. *)
Definition decode (content : string) (_ : unit) : result (string * unit) :=
  if String.eqb content "" then Raise ValueError else Ok (content, tt).

Definition seg_file : string := "proj/segmentations/scan.nii.gz".

(** A window that waits for its first segmentation. *)
Definition waiting : @painter unit string unit :=
  mk_painter true true "proj/messages" (Some seg_file) None None None tt
    LOADING_SEG [true; false] [] [].

(** One message file, whose name differs from its content, and the
    segmentation file. *)
Definition tree : fs :=
  mk_fs ["proj/messages"; "proj/segmentations"]
    [mk_entry "proj/messages" "Training started" (mk_file 90 "epoch 1" false);
     mk_entry "proj/segmentations" "scan.nii.gz" (mk_file 100 "seg-v1" false)].

(** The same tree with the message file held open by another process. *)
Definition tree_locked : fs :=
  mk_fs ["proj/messages"; "proj/segmentations"]
    [mk_entry "proj/messages" "Training started" (mk_file 90 "epoch 1" true);
     mk_entry "proj/segmentations" "scan.nii.gz" (mk_file 100 "seg-v1" false)].

End WatchRuns.


(** Model files, a project folder and a window, for the later sections. *)
Module MoreRuns.

Import ModelUtils FileUtils RootPainter.

(** A model directory whose listing is not in order. *)
Definition model_files (_ : string) : list string :=
  ["000002_1600000200.pkl"; "000001_1600000100.pkl"; "000003_1600000300.pkl"].

(** A network that returns its input, and a loader that knows one file. *)
Definition identity_model : @model Z := fun t => t.

Definition build_one (_ : unit) (path : string) : result (@model Z) :=
  if String.eqb path "models/000003_1600000300.pkl" then Ok identity_model
  else Raise OSError.

(** A segmentation folder without class directories. *)
Definition seg_listing (_ : string) : result (list string) :=
  Ok ["a.nii.gz"; "b.nii.gz"; "c.nii.gz"].

Definition no_dirs (_ : string) : bool := false.

(** Annotation data without content. *)
Definition cleared : annot := mk_annot [2; 1; 1; 1] [0; 0].

Definition no_files : world := mk_world ∅ [].

(** The first save of an annotation in an empty project. *)
Definition created : result (option string) * world :=
  SaveRuns.save SaveRuns.stored None no_files.

(** One tick of the watch loop, and the tick after it. *)
Definition tick (pw : @painter unit string unit * fs) : @painter unit string unit * fs :=
  match check WatchRuns.decode pw.1 pw.2 with
  | Ok r => r
  | Raise _ => pw
  end.

Definition first_tick : @painter unit string unit * fs :=
  tick (WatchRuns.waiting, WatchRuns.tree).

Definition second_tick : @painter unit string unit * fs := tick first_tick.

(** The window after [update_segmentation]. *)
Definition updated : @painter unit string unit :=
  match update_segmentation WatchRuns.waiting WatchRuns.tree with
  | Ok p => p
  | Raise _ => WatchRuns.waiting
  end.

(** The sixteen fields of a bounded file name. *)
Definition fields : list string :=
  ["x"; "10"; "y"; "20"; "z"; "5"; "pad"; "x"; "0"; "3"; "y"; "1"; "0"; "z"; "2";
   "4.nii.gz"].

(** A project of three images, the last of which is shown. *)
Definition three_images : Nav.nav :=
  Nav.mk_nav ["a.nii.gz"; "b.nii.gz"; "c.nii.gz"] "data" "data/c.nii.gz" "".

(** A project whose current image is not among its files. *)
Definition off_list : Nav.nav :=
  Nav.mk_nav ["a.nii.gz"; "b.nii.gz"] "data" "data/z.nii.gz" "".

(** A tensor whose element is its depth index. *)
Definition depth_ramp : ndarray Z := mk_ndarray (5, 4, 4) (fun z _ _ => z).

End MoreRuns.

(** * Properties *)

(** ** Python helpers *)

Section PyFacts.

Lemma getitem_nat {A} (l : list A) (k : nat) (a : A) :
  l !! k = Some a -> getitem l (Z.of_nat k) = Ok a.
Proof.
  intros Hk. pose proof (lookup_lt_Some _ _ _ Hk) as Hlt.
  unfold getitem.
  replace (Z.of_nat k <? 0) with false by (symmetry; apply Z.ltb_ge; lia).
  replace (0 <=? Z.of_nat k) with true by (symmetry; apply Z.leb_le; lia).
  replace (Z.of_nat k <? Z.of_nat (length l)) with true
    by (symmetry; apply Z.ltb_lt; lia).
  simpl. by rewrite Nat2Z.id, Hk.
Qed.

Lemma getitem_from_end {A} (l : list A) (k : nat) :
  (0 < k <= length l)%nat ->
  getitem l (- Z.of_nat k) =
    match l !! (length l - k)%nat with
    | Some a => Ok a
    | None => Raise IndexError
    end.
Proof.
  intros Hk. unfold getitem.
  replace (- Z.of_nat k <? 0) with true by (symmetry; apply Z.ltb_lt; lia).
  replace (0 <=? - Z.of_nat k + Z.of_nat (length l)) with true
    by (symmetry; apply Z.leb_le; lia).
  replace (- Z.of_nat k + Z.of_nat (length l) <? Z.of_nat (length l)) with true
    by (symmetry; apply Z.ltb_lt; lia).
  simpl.
  by replace (Z.to_nat (- Z.of_nat k + Z.of_nat (length l))) with (length l - k)%nat by lia.
Qed.

Lemma getitem_short {A} (l : list A) (k : nat) :
  (length l < k)%nat -> getitem l (- Z.of_nat k) = Raise IndexError.
Proof.
  intros Hk. unfold getitem.
  replace (- Z.of_nat k <? 0) with true by (symmetry; apply Z.ltb_lt; lia).
  replace (0 <=? - Z.of_nat k + Z.of_nat (length l)) with false
    by (symmetry; apply Z.leb_gt; lia).
  done.
Qed.

(** A window [start : start + len] that lies inside the axis is taken as
    it is. *)
Lemma slice_axis_inside (n start len : Z) :
  0 <= start -> 0 <= len -> start + len <= n ->
  slice_axis n start (start + len) = (start, len).
Proof.
  intros H0 Hl Hn. unfold slice_axis, slice_bound.
  replace (start <? 0) with false by (symmetry; apply Z.ltb_ge; lia).
  replace (start + len <? 0) with false by (symmetry; apply Z.ltb_ge; lia).
  f_equal; lia.
Qed.

(** Cutting [a] leading and [b] trailing indices off an axis. *)
Lemma slice_axis_crop (n a b : Z) :
  0 <= a -> 0 <= b -> a + b <= n ->
  slice_axis n a (n - b) = (a, n - a - b).
Proof.
  intros Ha Hb Hn. unfold slice_axis, slice_bound.
  replace (a <? 0) with false by (symmetry; apply Z.ltb_ge; lia).
  replace (n - b <? 0) with false by (symmetry; apply Z.ltb_ge; lia).
  f_equal; lia.
Qed.

End PyFacts.

(** ** [segment_3d]: the tile lists follow the coordinate sequence *)

Section SegmentAlignment.

Import ModelUtils.

Context {F : Type}.
Variable fzero : F.
Variable img_as_float32 : Z -> F.
Variable normalize_tile : ndarray F -> ndarray F.
Variable softmax_fg : F -> F -> F.
Variable gt_half : F -> bool.

(** The network treats the samples of a batch one by one: [net] is what it
    computes on one sample, [nch] the number of output channels. *)
Variable net : (Z -> ndarray F) -> (Z -> ndarray F).
Variable nch : Z.
Variable cnn : @model F.
Hypothesis cnn_samplewise : forall t, cnn t = mk_tensor nch (net <$> samples t).

Variable image : ndarray Z.
Variable batch_size : Z.
Variable in_tile_shape : Z * Z * Z.
Variable coords : list (Z * Z * Z).

Local Abbreviation window_fits := (window_fits image in_tile_shape).
Local Abbreviation patch := (patch img_as_float32 normalize_tile image in_tile_shape).
Local Abbreviation tile_result :=
  (tile_result fzero img_as_float32 normalize_tile softmax_fg gt_half net image
               in_tile_shape).
Local Abbreviation tiles_for :=
  (tiles_for fzero img_as_float32 normalize_tile softmax_fg gt_half net nch image
             in_tile_shape).
Local Abbreviation loop_invariant :=
  (loop_invariant fzero img_as_float32 normalize_tile softmax_fg gt_half net nch image
                  in_tile_shape coords).
Local Abbreviation input_tile := (input_tile img_as_float32 normalize_tile image in_tile_shape).
Local Abbreviation gather_tiles :=
  (gather_tiles img_as_float32 normalize_tile image in_tile_shape coords).
Local Abbreviation append_class_tiles := (append_class_tiles softmax_fg gt_half).
Local Abbreviation segment_batch :=
  (segment_batch fzero img_as_float32 normalize_tile softmax_fg gt_half
                 cnn image batch_size in_tile_shape coords).
Local Abbreviation segment_loop :=
  (segment_loop fzero img_as_float32 normalize_tile softmax_fg gt_half
                cnn image batch_size in_tile_shape coords).

Lemma input_tile_fits coord :
  window_fits coord -> input_tile coord = Ok (patch coord).
Proof.
  destruct coord as [[x y] z]. intros [(Hz & Hd & Hzd) [(Hy & Hh & Hyh) (Hx & Hw & Hxw)]].
  unfold ModelUtils.input_tile, patch, slice3.
  rewrite !slice_axis_inside by done.
  unfold dim0, dim1, dim2; simpl.
  by rewrite !Z.eqb_refl.
Qed.

Lemma gather_tiles_spec (n k : nat) (tiles : list (ndarray F)) :
  Forall window_fits coords ->
  gather_tiles n k tiles =
    Ok ((k + length (take n (drop k coords)))%nat,
        tiles ++ (patch <$> take n (drop k coords))).
Proof.
  intros Hfit. revert k tiles. induction n as [|n IH]; intros k tiles.
  - simpl. by rewrite Nat.add_0_r, app_nil_r.
  - simpl. destruct (Nat.ltb_spec k (length coords)) as [Hlt|Hge].
    + destruct (lookup_lt_is_Some_2 coords k Hlt) as [c Hc].
      rewrite (getitem_nat _ _ _ Hc). simpl.
      rewrite input_tile_fits
        by (eapply Forall_forall; [exact Hfit | eapply list_elem_of_lookup_2; exact Hc]).
      simpl. rewrite IH.
      rewrite (drop_S _ _ _ Hc). simpl.
      rewrite <- app_assoc. simpl. do 2 f_equal. lia.
    + rewrite IH, drop_ge by lia. by rewrite !take_nil.
Qed.

(** The accumulator after every class has received the tiles of a batch. *)
Lemma append_class_tiles_spec (outputs : tensor) (idxs : list Z)
    (pre post : list (list (ndarray Z))) :
  length post = length idxs ->
  append_class_tiles (length pre) idxs outputs (pre ++ post) =
    Ok (pre ++ zip_with (fun l class_idx =>
                           l ++ (predicted softmax_fg gt_half class_idx <$> samples outputs))
                        post idxs).
Proof.
  revert pre post. induction idxs as [|class_idx idxs IH]; intros pre post Hlen.
  - destruct post; [|done]. done.
  - destruct post as [|l post]; [done|]. simpl in Hlen.
    cbn [ModelUtils.append_class_tiles zip_with].
    destruct (predicted softmax_fg gt_half class_idx <$> samples outputs) as [|t ts] eqn:Hp.
    + cbn [mbind result_bind]. rewrite app_nil_r.
      replace (pre ++ l :: post) with ((pre ++ [l]) ++ post) by by rewrite <- app_assoc.
      replace (S (length pre)) with (length (pre ++ [l])) by (rewrite length_app; simpl; lia).
      rewrite IH by lia. by rewrite <- app_assoc.
    + rewrite (getitem_nat _ _ l) by by rewrite list_lookup_middle.
      cbn [mbind result_bind].
      rewrite insert_app_r_alt, Nat.sub_diag by lia. cbn [insert list_insert].
      replace (pre ++ (l ++ t :: ts) :: post) with ((pre ++ [l ++ t :: ts]) ++ post)
        by by rewrite <- app_assoc.
      replace (S (length pre)) with (length (pre ++ [l ++ t :: ts]))
        by (rewrite length_app; simpl; lia).
      rewrite IH by lia. by rewrite <- app_assoc.
Qed.

Lemma segment_batch_spec (k : nat) (acc : option (list (list (ndarray Z)))) :
  0 < batch_size ->
  (k < length coords)%nat ->
  Forall window_fits coords ->
  loop_invariant k acc ->
  let k' := (k + length (take (Z.to_nat batch_size) (drop k coords)))%nat in
  segment_batch k acc = Ok (k', Some (tiles_for (take k' coords))).
Proof.
  intros Hb Hk Hfit Hinv k'. unfold ModelUtils.segment_batch.
  rewrite gather_tiles_spec by done. cbn [mbind result_bind].
  set (new := take (Z.to_nat batch_size) (drop k coords)).
  assert (exists c rest, new = c :: rest) as (c0 & rest0 & Hnew).
  { subst new. destruct (lookup_lt_is_Some_2 coords k Hk) as [c Hc].
    rewrite (drop_S _ _ _ Hc).
    destruct (Z.to_nat batch_size) as [|b] eqn:Hbn; [lia|]. by eexists _, _. }
  assert (match [] ++ (patch <$> new) with
          | [] => Raise RuntimeError
          | _ :: _ => Ok tt
          end = Ok tt) as -> by (by rewrite Hnew).
  cbn [mbind result_bind].
  rewrite cnn_samplewise. cbn [channels samples tiles_for_gpu].
  assert (match acc with
          | Some t => t
          | None => (fun _ => []) <$> class_idxs nch
          end = tiles_for (take k coords)) as ->.
  { destruct Hinv as [[-> ->] | ->]; [|done].
    rewrite take_0. unfold tiles_for. by apply list_fmap_ext. }
  pose proof (append_class_tiles_spec
                (mk_tensor nch (net <$> (gpu_sample fzero <$> ([] ++ (patch <$> new)))))
                (class_idxs nch) [] (tiles_for (take k coords))) as Happ.
  cbn [length app] in Happ. cbn [app]. rewrite Happ by (unfold tiles_for; by rewrite length_fmap).
  cbn [mbind result_bind]. do 3 f_equal.
  assert (take k' coords = take k coords ++ new) as ->.
  { subst k' new. rewrite take_take_drop, length_take, length_drop.
    destruct (decide (Z.to_nat batch_size <= length coords - k)%nat).
    - by rewrite Nat.min_l.
    - rewrite Nat.min_r by lia. by rewrite !take_ge by lia. }
  unfold tiles_for. clear Happ.
  induction (class_idxs nch) as [|ci cis IH]; [done|].
  simpl. f_equal; [|exact IH].
  rewrite fmap_app. f_equal.
  rewrite <- !list_fmap_compose. by apply list_fmap_ext.
Qed.

Lemma segment_loop_spec (fuel k : nat) (acc : option (list (list (ndarray Z)))) :
  0 < batch_size ->
  Forall window_fits coords ->
  loop_invariant k acc ->
  (k < length coords)%nat ->
  (length coords - k <= fuel)%nat ->
  segment_loop fuel k acc = Some (Ok (Some (tiles_for coords))).
Proof.
  intros Hb Hfit. revert k acc.
  induction fuel as [|fuel IH]; intros k acc Hinv Hk Hfuel; [lia|].
  cbn [ModelUtils.segment_loop].
  destruct (Nat.ltb_spec k (length coords)) as [_|?]; [|lia].
  rewrite segment_batch_spec by done.
  set (k' := (k + length (take (Z.to_nat batch_size) (drop k coords)))%nat).
  assert (k < k' <= length coords)%nat as Hk'.
  { subst k'. rewrite length_take, length_drop. lia. }
  destruct (decide (k' < length coords)%nat) as [Hlt|Hge].
  - apply IH; [by right | done | lia].
  - assert (k' = length coords) as Hkl by lia.
    rewrite Hkl, firstn_all.
    destruct fuel; simpl; by rewrite Nat.ltb_irrefl.
Qed.

Lemma class_idxs_lookup (i : nat) (class_idx : Z) :
  class_idxs nch !! i = Some class_idx -> class_idx = 2 * Z.of_nat i.
Proof.
  unfold class_idxs. rewrite list_lookup_fmap.
  destruct (seqZ 0 (nch / 2) !! i) as [x|] eqn:Hx; [|done].
  apply lookup_seqZ in Hx. simpl. intros [= <-]. lia.
Qed.

(** A batch size below one: the first pass through the loop body gathers
    no tile and raises. *)
Lemma segment_loop_empty_batch (fuel : nat) :
  batch_size <= 0 ->
  coords <> [] ->
  segment_loop (S fuel) 0%nat None = Some (Raise RuntimeError).
Proof.
  intros Hb Hne. cbn [ModelUtils.segment_loop].
  destruct (Nat.ltb_spec 0 (length coords)) as [_|Hlen];
    [|destruct coords; [done | simpl in Hlen; lia]].
  unfold ModelUtils.segment_batch.
  replace (Z.to_nat batch_size) with 0%nat by lia. done.
Qed.

(** The patch at a coordinate whose window lies inside the image, voxel
    by voxel. *)
Lemma patch_window (x y z : Z) :
  window_fits (x, y, z) ->
  patch (x, y, z) =
    normalize_tile
      (mk_ndarray in_tile_shape
         (fun k j i => img_as_float32 (item image (z + k) (y + j) (x + i)))).
Proof.
  intros [(Hz & Hd & Hzd) [(Hy & Hh & Hyh) (Hx & Hw & Hxw)]].
  unfold ModelUtils.patch, slice3. rewrite !slice_axis_inside by done.
  unfold map1. cbn [shape item]. f_equal.
  assert (forall p : Z * Z * Z, (p.1.1, p.1.2, p.2) = p) as Heta by (by intros [[? ?] ?]).
  by rewrite Heta.
Qed.

(** C1. In [segment_3d], for a positive batch size and coordinates whose
    input windows lie inside the image, the [while] loop ends with one
    tile list per class; each list has exactly one entry per coordinate.
    Its Nth entry belongs to the Nth coordinate [(x, y, z)]: the network
    was given the normalized window of the input tile shape whose voxel
    [(k, j, i)] is the image voxel [(z + k, y + j, x + i)], followed by
    two channels of zeros, and the entry holds 1 exactly where the
    softmax foreground probability of the class's channel pair is above
    0.5, whatever the batch size (the last batch may be short). *)
Theorem segment_3d_tiles_aligned (fuel : nat) :
  0 < batch_size ->
  Forall window_fits coords ->
  coords <> [] ->
  (length coords <= fuel)%nat ->
  exists class_output_tiles,
    segment_loop fuel 0%nat None = Some (Ok (Some class_output_tiles)) /\
    length class_output_tiles = Z.to_nat (nch / 2) /\
    forall (i : nat) (output_tiles : list (ndarray Z)),
      class_output_tiles !! i = Some output_tiles ->
      length output_tiles = length coords /\
      forall (n : nat) (x y z : Z),
        coords !! n = Some (x, y, z) ->
        let window :=
          mk_ndarray in_tile_shape
            (fun k j i => img_as_float32 (item image (z + k) (y + j) (x + i))) in
        let tile := normalize_tile window in
        let logits :=
          net (fun c => if c =? 0 then tile
                        else mk_ndarray (shape tile) (fun _ _ _ => fzero)) in
        exists out_tile,
          output_tiles !! n = Some out_tile /\
          shape out_tile = shape (logits (2 * Z.of_nat i)) /\
          forall k j l,
            item out_tile k j l =
              if gt_half (softmax_fg (item (logits (2 * Z.of_nat i)) k j l)
                                     (item (logits (2 * Z.of_nat i + 1)) k j l))
              then 1 else 0.
Proof.
  intros Hb Hfit Hne Hfuel. exists (tiles_for coords). split; [|split].
  - apply segment_loop_spec; [done | done | by left | | lia].
    destruct coords; [done | simpl; lia].
  - unfold tiles_for, class_idxs. rewrite !length_fmap, length_seqZ. done.
  - intros i output_tiles Hi. unfold tiles_for in Hi.
    rewrite list_lookup_fmap in Hi.
    destruct (class_idxs nch !! i) as [class_idx|] eqn:Hci; [|done].
    apply class_idxs_lookup in Hci. subst class_idx.
    simpl in Hi. injection Hi as <-. split; [by rewrite length_fmap|].
    intros n x y z Hn window tile logits.
    exists (tile_result (2 * Z.of_nat i) (x, y, z)). split.
    + by rewrite list_lookup_fmap, Hn.
    + unfold ModelUtils.tile_result. rewrite patch_window
        by (eapply Forall_forall; [exact Hfit | eapply list_elem_of_lookup_2; exact Hn]).
      split; reflexivity.
Qed.

End SegmentAlignment.

(** Three coordinates along the width of a 1 x 1 x 3 image, in batches of
    two, with a network that copies the image channel to both outputs. *)
Lemma segment_3d_tiles_aligned_witness :
  let image := mk_ndarray (1, 1, 3) (fun _ _ x => x) in
  let coords := [(0, 0, 0); (1, 0, 0); (2, 0, 0)] in
  let net := fun sample : Z -> ndarray Z => fun _ : Z => sample 0 in
  let cnn := fun t => ModelUtils.mk_tensor 2 (net <$> ModelUtils.samples t) in
  exists class_output_tiles,
    ModelUtils.segment_loop 0 id id (fun _ fg => fg) (fun p => 0 <? p)
      cnn image 2 (1, 1, 1) coords 3 0%nat None = Some (Ok (Some class_output_tiles)) /\
    length class_output_tiles = Z.to_nat (2 / 2) /\
    forall (i : nat) (output_tiles : list (ndarray Z)),
      class_output_tiles !! i = Some output_tiles ->
      length output_tiles = length coords /\
      forall (n : nat) (x y z : Z),
        coords !! n = Some (x, y, z) ->
        let window :=
          mk_ndarray (1, 1, 1) (fun k j i => id (item image (z + k) (y + j) (x + i))) in
        let tile := id window in
        let logits :=
          net (fun c => if c =? 0 then tile
                        else mk_ndarray (shape tile) (fun _ _ _ => 0)) in
        exists out_tile,
          output_tiles !! n = Some out_tile /\
          shape out_tile = shape (logits (2 * Z.of_nat i)) /\
          forall k j l,
            item out_tile k j l =
              if 0 <? item (logits (2 * Z.of_nat i + 1)) k j l then 1 else 0.
Proof.
  intros image coords net cnn.
  apply (segment_3d_tiles_aligned 0 id id (fun _ fg => fg) (fun p => 0 <? p)
           net 2 cnn (fun t => eq_refl) image 2 (1, 1, 1) coords 3).
  - lia.
  - repeat constructor; cbn; lia.
  - discriminate.
  - simpl; lia.
Defined.

(** ** [segment_3d]: an image smaller than the input patch *)

Section SegmentShape.

Import ModelUtils.

Context {F : Type}.
Variable fzero : F.
Variable img_as_float32 : Z -> F.
Variable normalize_tile : ndarray F -> ndarray F.
Variable softmax_fg : F -> F -> F.
Variable gt_half : F -> bool.

Local Abbreviation segment_3d :=
  (segment_3d fzero img_as_float32 normalize_tile softmax_fg gt_half).

(** C8. An image that is smaller than the input patch on some axis makes
    [segment_3d] fail on its shape asserts, before any coordinate is
    planned or any tile is produced. *)
Theorem segment_3d_small_image_fails (fuel : nat) (cnn : @model F) (image : ndarray Z)
    (batch_size : Z) (in_tile_shape out_tile_shape : Z * Z * Z) :
  dim0 image < in_tile_shape.1.1 \/
  dim1 image < in_tile_shape.1.2 \/
  dim2 image < in_tile_shape.2 ->
  segment_3d fuel cnn image batch_size in_tile_shape out_tile_shape =
    Some (Raise AssertionError).
Proof.
  intros Hsmall. unfold ModelUtils.segment_3d, assert.
  destruct (Z.leb_spec in_tile_shape.1.1 (dim0 image)); [|done].
  destruct (Z.leb_spec in_tile_shape.1.2 (dim1 image)); [|done].
  destruct (Z.leb_spec in_tile_shape.2 (dim2 image)); [|done].
  lia.
Qed.

End SegmentShape.

(** A 4 x 4 x 4 image and an input patch of depth 5. *)
Lemma segment_3d_small_image_fails_witness :
  ModelUtils.segment_3d 0 id id (fun _ fg => fg) (fun p => 0 <? p) 10
    (fun t => t) (mk_ndarray (4, 4, 4) (fun _ _ _ => 0)) 2 (5, 4, 4) (3, 2, 2) =
  Some (Raise AssertionError).
Proof.
  apply (segment_3d_small_image_fails 0 id id (fun _ fg => fg) (fun p => 0 <? p) 10
           (fun t => t) (mk_ndarray (4, 4, 4) (fun _ _ _ => 0)) 2 (5, 4, 4) (3, 2, 2)).
  left. cbn. lia.
Defined.

(** ** [ensemble_segment_3d]: reading the pad values from the file name *)

Section NameEncoding.

Import ModelUtils.

(** The eight last parts of a list that has them. *)
Lemma last_eight (parts : list string) :
  (8 <= length parts)%nat ->
  exists pre t8 t7 t6 t5 t4 t3 t2 t1,
    parts = pre ++ [t8; t7; t6; t5; t4; t3; t2; t1].
Proof.
  intros Hlen. exists (take (length parts - 8) parts).
  pose proof (take_drop (length parts - 8) parts) as Hsplit.
  assert (length (drop (length parts - 8) parts) = 8%nat) as Hd
    by (rewrite length_drop; lia).
  destruct (drop (length parts - 8) parts) as [|t8 [|t7 [|t6 [|t5 [|t4 [|t3 [|t2 [|t1 [|? ?]]]]]]]]];
    try discriminate Hd.
  by exists t8, t7, t6, t5, t4, t3, t2, t1.
Qed.

Lemma getitem_last_eight (pre : list string) (t8 t7 t6 t5 t4 t3 t2 t1 : string) :
  let parts := pre ++ [t8; t7; t6; t5; t4; t3; t2; t1] in
  getitem parts (-8) = Ok t8 /\ getitem parts (-7) = Ok t7 /\
  getitem parts (-5) = Ok t5 /\ getitem parts (-4) = Ok t4 /\
  getitem parts (-2) = Ok t2 /\ getitem parts (-1) = Ok t1.
Proof.
  intros parts.
  assert (length parts = (length pre + 8)%nat) as Hlen
    by (subst parts; rewrite length_app; simpl; lia).
  assert (forall (k : nat) t, (0 < k <= 8)%nat ->
            [t8; t7; t6; t5; t4; t3; t2; t1] !! (8 - k)%nat = Some t ->
            getitem parts (- Z.of_nat k) = Ok t) as Hget.
  { intros k t Hk Ht. rewrite getitem_from_end by lia.
    subst parts. rewrite lookup_app_r by lia.
    replace (length (pre ++ [t8; t7; t6; t5; t4; t3; t2; t1]) - k - length pre)%nat
      with (8 - k)%nat by lia.
    by rewrite Ht. }
  repeat split.
  - by apply (Hget 8%nat); [lia|].
  - by apply (Hget 7%nat); [lia|].
  - by apply (Hget 5%nat); [lia|].
  - by apply (Hget 4%nat); [lia|].
  - by apply (Hget 2%nat); [lia|].
  - by apply (Hget 1%nat); [lia|].
Qed.

(** The pad values are the parts at offsets -8, -7, -5, -4, -2 and -1;
    nothing else of the name is looked at. *)
Lemma bounded_crop_values_positional (fname : string) (pre : list string)
    (t8 t7 t6 t5 t4 t3 t2 t1 : string) :
  fname_parts fname = pre ++ [t8; t7; t6; t5; t4; t3; t2; t1] ->
  bounded_crop_values fname =
    (x_crop_start ← int t8; x_crop_end ← int t7;
     y_crop_start ← int t5; y_crop_end ← int t4;
     z_crop_start ← int t2; z_crop_end ← int t1;
     Ok (x_crop_start, x_crop_end, y_crop_start, y_crop_end, z_crop_start, z_crop_end)).
Proof.
  intros Hparts. unfold bounded_crop_values. fold (fname_parts fname). rewrite Hparts.
  destruct (getitem_last_eight pre t8 t7 t6 t5 t4 t3 t2 t1)
    as (-> & -> & -> & -> & -> & ->).
  done.
Qed.

Lemma int_raises (t : string) (e : exn) : int t = Raise e -> e = ValueError.
Proof.
  unfold int. destruct (strip t) as [|c r]; simpl.
  - intros [= <-]; done.
  - destruct (match String c r with
              | String "-" r0 => (-1, r0)
              | String "+" r0 => (1, r0)
              | _ => (1, String c r)
              end) as [sign body].
    destruct (digits_from 0 false body); [done|]. by intros [= <-].
Qed.

(** The name of the specification's scenario follows the convention and
    yields the pads x:(3,4), y:(1,2), z:(0,1). *)
Example bounded_name_scenario :
  name_encoding_ok "img_x_10_y_20_z_5_pad_x_3_4_y_1_2_z_0_1.nii.gz" = true /\
  bounded_crop_values "img_x_10_y_20_z_5_pad_x_3_4_y_1_2_z_0_1.nii.gz"
    = Ok (3, 4, 1, 2, 0, 1).
Proof. split; vm_compute; reflexivity. Qed.

(** Six fields converted in turn: the first failure is the failure of the
    whole, and only [ValueError] can come out of it. *)
Lemma six_fields (r8 r7 r5 r4 r2 r1 : result Z) :
  (forall e, r8 = Raise e -> e = ValueError) ->
  (forall e, r7 = Raise e -> e = ValueError) ->
  (forall e, r5 = Raise e -> e = ValueError) ->
  (forall e, r4 = Raise e -> e = ValueError) ->
  (forall e, r2 = Raise e -> e = ValueError) ->
  (forall e, r1 = Raise e -> e = ValueError) ->
  let r := (x_crop_start ← r8; x_crop_end ← r7;
            y_crop_start ← r5; y_crop_end ← r4;
            z_crop_start ← r2; z_crop_end ← r1;
            Ok (x_crop_start, x_crop_end, y_crop_start, y_crop_end,
                z_crop_start, z_crop_end)) in
  (r = Raise IndexError -> False) /\
  (r = Raise ValueError <->
     r8 = Raise ValueError \/ r7 = Raise ValueError \/ r5 = Raise ValueError \/
     r4 = Raise ValueError \/ r2 = Raise ValueError \/ r1 = Raise ValueError) /\
  (is_ok r = true <->
     is_ok r8 = true /\ is_ok r7 = true /\ is_ok r5 = true /\
     is_ok r4 = true /\ is_ok r2 = true /\ is_ok r1 = true).
Proof.
  intros E8 E7 E5 E4 E2 E1.
  destruct r8 as [v8|e8]; [|rewrite (E8 e8 eq_refl); simpl; intuition discriminate].
  destruct r7 as [v7|e7]; [|rewrite (E7 e7 eq_refl); simpl; intuition discriminate].
  destruct r5 as [v5|e5]; [|rewrite (E5 e5 eq_refl); simpl; intuition discriminate].
  destruct r4 as [v4|e4]; [|rewrite (E4 e4 eq_refl); simpl; intuition discriminate].
  destruct r2 as [v2|e2]; [|rewrite (E2 e2 eq_refl); simpl; intuition discriminate].
  destruct r1 as [v1|e1]; [|rewrite (E1 e1 eq_refl); simpl; intuition discriminate].
  simpl. intuition discriminate.
Qed.

(** The name of the counterexample of C7: eight parts, none of the markers
    of the convention, and yet six values are returned. *)
Lemma bounded_crop_values_accepts_malformed :
  name_encoding_ok "scan_3_4_q_1_2_q_0_1.nii.gz" = false /\
  bounded_crop_values "scan_3_4_q_1_2_q_0_1.nii.gz" = Ok (3, 4, 1, 2, 0, 1).
Proof. split; vm_compute; reflexivity. Qed.

(** C7, amended. Resolving the crop of a bounded file name fails exactly
    when the name has fewer than eight underscore-delimited parts (an
    [IndexError]) or when one of the parts at offsets -8, -7, -5, -4, -2,
    -1 from the end is not an integer literal (a [ValueError]); every
    other name is accepted by position. *)
Theorem bounded_crop_values_failure (fname : string) :
  let parts := fname_parts fname in
  let field (k : nat) : result Z :=
    match parts !! (length parts - k)%nat with
    | Some t => int t
    | None => Raise IndexError
    end in
  (bounded_crop_values fname = Raise IndexError <-> (length parts < 8)%nat) /\
  (bounded_crop_values fname = Raise ValueError <->
     (8 <= length parts)%nat /\
     exists k, k ∈ [8; 7; 5; 4; 2; 1]%nat /\ field k = Raise ValueError) /\
  (is_ok (bounded_crop_values fname) = true <->
     (8 <= length parts)%nat /\
     forall k, k ∈ [8; 7; 5; 4; 2; 1]%nat -> is_ok (field k) = true).
Proof.
  intros parts field.
  destruct (decide (length parts < 8)%nat) as [Hshort|Hlong].
  - assert (bounded_crop_values fname = Raise IndexError) as Hr.
    { unfold bounded_crop_values. fold (fname_parts fname). fold parts.
      change (-8) with (- Z.of_nat 8). by rewrite (getitem_short parts 8) by lia. }
    rewrite Hr. simpl.
    repeat split; try done; try lia; intros [? _]; lia.
  - destruct (last_eight parts) as (pre & t8 & t7 & t6 & t5 & t4 & t3 & t2 & t1 & Hparts);
      [lia|].
    rewrite (bounded_crop_values_positional fname pre t8 t7 t6 t5 t4 t3 t2 t1 Hparts).
    assert (length parts = (length pre + 8)%nat) as Hlen
      by (rewrite Hparts, length_app; simpl; lia).
    assert (forall (k : nat) t, (0 < k <= 8)%nat ->
              [t8; t7; t6; t5; t4; t3; t2; t1] !! (8 - k)%nat = Some t ->
              field k = int t) as Hfield.
    { intros k t Hk Ht. unfold field. rewrite Hlen, Hparts.
      rewrite lookup_app_r by lia.
      replace (length pre + 8 - k - length pre)%nat with (8 - k)%nat by lia.
      by rewrite Ht. }
    pose proof (Hfield 8%nat t8 ltac:(lia) eq_refl) as H8.
    pose proof (Hfield 7%nat t7 ltac:(lia) eq_refl) as H7.
    pose proof (Hfield 5%nat t5 ltac:(lia) eq_refl) as H5.
    pose proof (Hfield 4%nat t4 ltac:(lia) eq_refl) as H4.
    pose proof (Hfield 2%nat t2 ltac:(lia) eq_refl) as H2.
    pose proof (Hfield 1%nat t1 ltac:(lia) eq_refl) as H1.
    assert (forall P : nat -> Prop,
              (forall k, k ∈ [8; 7; 5; 4; 2; 1]%nat -> P k) <->
              P 8%nat /\ P 7%nat /\ P 5%nat /\ P 4%nat /\ P 2%nat /\ P 1%nat) as Hall.
    { intros P. split.
      - intros HP. repeat split; apply HP; apply list_elem_of_In; simpl; tauto.
      - intros (? & ? & ? & ? & ? & ?) k Hk.
        repeat (apply elem_of_cons in Hk as [->|Hk]; [done|]).
        by apply elem_of_nil in Hk. }
    assert (forall P : nat -> Prop,
              (exists k, k ∈ [8; 7; 5; 4; 2; 1]%nat /\ P k) <->
              P 8%nat \/ P 7%nat \/ P 5%nat \/ P 4%nat \/ P 2%nat \/ P 1%nat) as Hex.
    { intros P. split.
      - intros (k & Hk & HP).
        repeat (apply elem_of_cons in Hk as [->|Hk]; [tauto|]).
        by apply elem_of_nil in Hk.
      - intros [?|[?|[?|[?|[?|?]]]]]; eexists; (split; [|eassumption]);
          apply list_elem_of_In; simpl; tauto. }
    rewrite Hall, Hex, H8, H7, H5, H4, H2, H1.
    pose proof (six_fields (int t8) (int t7) (int t5) (int t4) (int t2) (int t1)
                  (int_raises t8) (int_raises t7) (int_raises t5)
                  (int_raises t4) (int_raises t2) (int_raises t1))
      as (Hidx & Hval & Hok).
    split; [|split].
    + split; [intros Hr; by apply Hidx in Hr | lia].
    + rewrite Hval. split; [intros Hor; split; [lia | done] | by intros [_ Hor]].
    + rewrite Hok. split; [intros Hand; split; [lia | done] | by intros [_ Hand]].
Qed.

End NameEncoding.

(** ** [ensemble_segment_3d] *)

Section Ensemble.

Import ModelUtils.

Context {F Classes : Type}.
Variable fzero : F.
Variable img_as_float32 : Z -> F.
Variable normalize_tile : ndarray F -> ndarray F.
Variable softmax_fg : F -> F -> F.
Variable gt_half : F -> bool.
Variable build_model : Classes -> string -> result (@model F).

Local Abbreviation segment_3d :=
  (segment_3d fzero img_as_float32 normalize_tile softmax_fg gt_half).
Local Abbreviation ensemble_segment_3d :=
  (ensemble_segment_3d fzero img_as_float32 normalize_tile softmax_fg gt_half build_model).

(** Crop amounts that are not negative and leave something of the axis
    cut [a] indices at the start and [b] at the end. *)
Lemma crop_pred_map_inside (pred_map : ndarray Z) (az bz ay by_ ax bx : Z) :
  0 <= az -> 0 <= bz -> az + bz <= dim0 pred_map ->
  0 <= ay -> 0 <= by_ -> ay + by_ <= dim1 pred_map ->
  0 <= ax -> 0 <= bx -> ax + bx <= dim2 pred_map ->
  let cropped := crop_pred_map pred_map az bz ay by_ ax bx in
  shape cropped = (dim0 pred_map - az - bz, dim1 pred_map - ay - by_,
                   dim2 pred_map - ax - bx) /\
  forall z y x, item cropped z y x = item pred_map (az + z) (ay + y) (ax + x).
Proof.
  intros ? ? ? ? ? ? ? ? ? cropped. subst cropped. unfold crop_pred_map, slice3.
  rewrite !slice_axis_crop by done. done.
Qed.

(** C2. For a bounded volume whose name ends in the parts
    [xs, xe, _, ys, ye, _, zs, ze], [ensemble_segment_3d] reads the six pad
    values at these positions and returns every class map of [segment_3d]
    cropped by [(ps - m, pe - m)] along each axis, [m] being half the
    difference of the input and output patch extents of the axis; with
    [m = 0] the crop is by the pad values themselves; and amounts that are
    not negative and fit the map remove exactly that many leading and
    trailing slices. *)
Theorem ensemble_bounded_crop (fuel : nat) (model_paths : list string) (model_path : string)
    (image : ndarray Z) (fname : string) (batch_size in_w out_w in_d out_d : Z)
    (classes : Classes) (c c' : cache) (cnn : @model F) (pred_maps : list (ndarray Z))
    (pre : list string) (txs txe t6 tys tye t3 tzs tze : string)
    (xs xe ys ye zs ze : Z) :
  getitem model_paths 0 = Ok model_path ->
  load_model build_model model_path classes c = (Ok cnn, c') ->
  segment_3d fuel cnn image batch_size (in_d, in_w, in_w) (out_d, out_w, out_w)
    = Some (Ok pred_maps) ->
  fname_parts fname = pre ++ [txs; txe; t6; tys; tye; t3; tzs; tze] ->
  int txs = Ok xs -> int txe = Ok xe ->
  int tys = Ok ys -> int tye = Ok ye ->
  int tzs = Ok zs -> int tze = Ok ze ->
  let m_d := (in_d - out_d) / 2 in
  let m_w := (in_w - out_w) / 2 in
  let crop := fun pred_map =>
    crop_pred_map pred_map (zs - m_d) (ze - m_d) (ys - m_w) (ye - m_w)
                  (xs - m_w) (xe - m_w) in
  ensemble_segment_3d fuel model_paths image fname batch_size in_w out_w in_d out_d
      classes true c = (Some (Ok (crop <$> pred_maps)), c') /\
  (m_d = 0 -> m_w = 0 ->
   crop <$> pred_maps =
     (fun pred_map => crop_pred_map pred_map zs ze ys ye xs xe) <$> pred_maps) /\
  (forall pred_map, pred_map ∈ pred_maps ->
     0 <= zs - m_d -> 0 <= ze - m_d -> (zs - m_d) + (ze - m_d) <= dim0 pred_map ->
     0 <= ys - m_w -> 0 <= ye - m_w -> (ys - m_w) + (ye - m_w) <= dim1 pred_map ->
     0 <= xs - m_w -> 0 <= xe - m_w -> (xs - m_w) + (xe - m_w) <= dim2 pred_map ->
     shape (crop pred_map) =
       (dim0 pred_map - (zs - m_d) - (ze - m_d),
        dim1 pred_map - (ys - m_w) - (ye - m_w),
        dim2 pred_map - (xs - m_w) - (xe - m_w)) /\
     forall z y x,
       item (crop pred_map) z y x =
         item pred_map ((zs - m_d) + z) ((ys - m_w) + y) ((xs - m_w) + x)).
Proof.
  intros Hpath Hload Hseg Hparts Hxs Hxe Hys Hye Hzs Hze m_d m_w crop.
  split; [|split].
  - unfold ModelUtils.ensemble_segment_3d.
    rewrite Hpath, Hload. cbn [fst snd]. rewrite Hseg.
    unfold crop_bounded.
    rewrite (bounded_crop_values_positional fname _ _ _ _ _ _ _ _ _ Hparts).
    rewrite Hxs, Hxe, Hys, Hye, Hzs, Hze. done.
  - intros Hd Hw. apply list_fmap_ext. intros _ pred_map _.
    subst crop. simpl. rewrite Hd, Hw. by rewrite !Z.sub_0_r.
  - intros pred_map _ ? ? ? ? ? ? ? ? ?. by apply crop_pred_map_inside.
Qed.

(** Whatever follows the first path in [model_paths] is never read. *)
Lemma ensemble_first_model_only (fuel : nat) (model_path : string)
    (others : list string) (image : ndarray Z) (fname : string)
    (batch_size in_w out_w in_d out_d : Z) (classes : Classes) (bounded : bool)
    (c : cache) :
  ensemble_segment_3d fuel (model_path :: others) image fname batch_size
      in_w out_w in_d out_d classes bounded c =
  ensemble_segment_3d fuel [model_path] image fname batch_size
      in_w out_w in_d out_d classes bounded c.
Proof. reflexivity. Qed.

End Ensemble.

(** The bounded name of the specification's scenario, on a 1 x 1 x 3 image
    with patches of extent 1. *)
Lemma ensemble_bounded_crop_witness :
  exists pred_maps,
    ModelUtils.segment_3d 0 id id (fun _ fg => fg) (fun p => 0 <? p) 3 Runs.copy_model
      Runs.ramp 2 (1, 1, 1) (1, 1, 1) = Some (Ok pred_maps) /\
    let crop := fun pred_map =>
      ModelUtils.crop_pred_map pred_map (0 - 0) (0 - 0) (0 - 0) (0 - 0) (1 - 0) (1 - 0) in
    ModelUtils.ensemble_segment_3d 0 id id (fun _ fg => fg) (fun p => 0 <? p)
      Runs.model_store 3 ["models/000003_copy.pkl"] Runs.ramp
      "img_x_10_y_20_z_5_pad_x_1_1_y_0_0_z_0_0.nii.gz" 2 1 1 1 1 tt true
      ModelUtils.empty_cache =
      (Some (Ok (crop <$> pred_maps)),
       ModelUtils.mk_cache (Some Runs.copy_model) (Some "models/000003_copy.pkl")).
Proof.
  eexists. split; [reflexivity|].
  apply (ensemble_bounded_crop 0 id id (fun _ fg => fg) (fun p => 0 <? p)
           Runs.model_store 3 ["models/000003_copy.pkl"] "models/000003_copy.pkl"
           Runs.ramp "img_x_10_y_20_z_5_pad_x_1_1_y_0_0_z_0_0.nii.gz" 2 1 1 1 1 tt
           ModelUtils.empty_cache
           (ModelUtils.mk_cache (Some Runs.copy_model) (Some "models/000003_copy.pkl"))
           Runs.copy_model _
           ["img"; "x"; "10"; "y"; "20"; "z"; "5"; "pad"; "x"]
           "1" "1" "y" "0" "0" "z" "0" "0" 1 1 0 0 0 0);
    reflexivity.
Defined.

(** C3. With two models in [model_paths], a foreground-everywhere model
    and a background-everywhere model, the output of [ensemble_segment_3d]
    is the output of the first model alone, in either order: the second
    model is not loaded and nothing is averaged. *)
Theorem ensemble_ignores_other_models :
  let fg := "models/000001_fg.pkl" in
  let bg := "models/000002_bg.pkl" in
  let image := mk_ndarray (1, 1, 1) (fun _ _ _ => 7) in
  let voxel := fun paths => Runs.first_voxel (Runs.run 1 paths image "" 1 false) in
  voxel [fg] = Some 1 /\ voxel [bg] = Some 0 /\
  voxel [fg; bg] = Some 1 /\ voxel [bg; fg] = Some 0.
Proof. vm_compute. repeat split. Qed.

(** ** The planner and the reconstruction, as far as shapes go *)

Section Planner.

Import ImUtils.

(** The specification's scenario: an axis of 100 tiled in steps of 30 ends
    with a tile at 70, not at 90. *)
Example axis_coords_scenario : axis_coords 100 30 = [0; 30; 60; 70].
Proof. reflexivity. Qed.

Lemma axis_coords_bounds (n t c : Z) :
  0 < t -> t <= n -> c ∈ axis_coords n t -> 0 <= c <= n - t.
Proof.
  intros Ht Hn Hc. unfold axis_coords in Hc.
  apply elem_of_app in Hc as [Hc|Hc].
  - apply list_elem_of_fmap in Hc as (i & -> & Hi).
    apply elem_of_seqZ in Hi.
    pose proof (Z.mul_div_le (n + t - 1) t Ht).
    nia.
  - apply list_elem_of_singleton in Hc as ->. lia.
Qed.

Lemma axis_coords_nonempty (n t : Z) : axis_coords n t <> [].
Proof. unfold axis_coords. by destruct (_ <$> _). Qed.

Lemma get_coords_3d_bounds (d h w td th tw : Z) (x y z : Z) :
  0 < td <= d -> 0 < th <= h -> 0 < tw <= w ->
  (x, y, z) ∈ get_coords_3d (d, h, w) (td, th, tw) ->
  0 <= z <= d - td /\ 0 <= y <= h - th /\ 0 <= x <= w - tw.
Proof.
  intros Hd Hh Hw Hc. unfold get_coords_3d in Hc.
  apply list_elem_of_bind in Hc as (x' & Hc & Hx).
  apply list_elem_of_bind in Hc as (y' & Hc & Hy).
  apply list_elem_of_bind in Hc as (z' & Hc & Hz).
  apply list_elem_of_singleton in Hc. injection Hc as -> -> ->.
  apply axis_coords_bounds in Hx, Hy, Hz; lia.
Qed.

Lemma get_coords_3d_nonempty (im_shape tile_shape : Z * Z * Z) :
  get_coords_3d im_shape tile_shape <> [].
Proof.
  destruct im_shape as [[d h] w], tile_shape as [[td th] tw]. unfold get_coords_3d.
  pose proof (axis_coords_nonempty w tw). pose proof (axis_coords_nonempty h th).
  pose proof (axis_coords_nonempty d td).
  destruct (axis_coords w tw) as [|x ?]; [done|].
  destruct (axis_coords h th) as [|y ?]; [done|].
  destruct (axis_coords d td) as [|z ?]; [done|].
  done.
Qed.

Lemma reconstruct_from_tiles_shape (tiles : list (ndarray Z))
    (coords : list (Z * Z * Z)) (output_shape : Z * Z * Z) :
  shape (reconstruct_from_tiles tiles coords output_shape) = output_shape.
Proof.
  unfold reconstruct_from_tiles.
  change output_shape with (shape (zeros output_shape)) at 2.
  generalize (zeros output_shape). generalize (zip tiles coords).
  intros l. induction l as [|[tile [[x y] z]] l IH]; intros init; [done|].
  simpl. by rewrite IH.
Qed.

End Planner.

(** ** [ensemble_segment_3d] on an unbounded volume *)

Section Unbounded.

Import ModelUtils.

Context {F Classes : Type}.
Variable fzero : F.
Variable img_as_float32 : Z -> F.
Variable normalize_tile : ndarray F -> ndarray F.
Variable softmax_fg : F -> F -> F.
Variable gt_half : F -> bool.
Variable build_model : Classes -> string -> result (@model F).

Local Abbreviation segment_3d :=
  (segment_3d fzero img_as_float32 normalize_tile softmax_fg gt_half).
Local Abbreviation ensemble_segment_3d :=
  (ensemble_segment_3d fzero img_as_float32 normalize_tile softmax_fg gt_half build_model).

(** [segment_3d] returns one map per class, each of the shape of the image
    minus the margins, when the image is at least as large as the input
    patch and the network treats samples one by one. *)
Lemma segment_3d_returns (fuel : nat) (cnn : @model F)
    (net : (Z -> ndarray F) -> (Z -> ndarray F)) (nch : Z)
    (image : ndarray Z) (batch_size in_d in_w out_d out_w : Z) :
  (forall t, cnn t = mk_tensor nch (net <$> samples t)) ->
  0 < batch_size ->
  0 < out_d <= in_d -> 0 < out_w <= in_w ->
  in_d <= dim0 image -> in_w <= dim1 image -> in_w <= dim2 image ->
  let out_im_shape := (dim0 image - (in_d - out_d), dim1 image - (in_w - out_w),
                       dim2 image - (in_w - out_w)) in
  (length (ImUtils.get_coords_3d out_im_shape (out_d, out_w, out_w)) <= fuel)%nat ->
  exists pred_maps,
    segment_3d fuel cnn image batch_size (in_d, in_w, in_w) (out_d, out_w, out_w)
      = Some (Ok pred_maps) /\
    length pred_maps = Z.to_nat (nch / 2) /\
    Forall (fun pred_map => shape pred_map = out_im_shape) pred_maps.
Proof.
  intros Hcnn Hb Hd Hw H0 H1 H2 out_im_shape Hfuel.
  unfold ModelUtils.segment_3d, assert. cbn [fst snd].
  destruct (Z.leb_spec in_d (dim0 image)); [|lia].
  destruct (Z.leb_spec in_w (dim1 image)); [|lia].
  destruct (Z.leb_spec in_w (dim2 image)); [|lia].
  cbn [mbind result_bind]. fold out_im_shape.
  set (coords := ImUtils.get_coords_3d out_im_shape (out_d, out_w, out_w)) in *.
  rewrite (segment_loop_spec fzero img_as_float32 normalize_tile softmax_fg gt_half
             net nch cnn Hcnn image batch_size (in_d, in_w, in_w) coords fuel 0%nat None Hb).
  - eexists. split; [reflexivity|]. split.
    + unfold tiles_for, class_idxs. by rewrite !length_fmap, length_seqZ.
    + apply Forall_fmap, Forall_forall. intros tiles _. simpl.
      apply reconstruct_from_tiles_shape.
  - apply Forall_forall. intros [[x y] z] Hc.
    apply get_coords_3d_bounds in Hc; [|lia..].
    unfold window_fits. cbn [fst snd]. lia.
  - by left.
  - pose proof (get_coords_3d_nonempty out_im_shape (out_d, out_w, out_w)) as Hne.
    fold coords in Hne. destruct coords; [done | simpl; lia].
  - lia.
Qed.

(** C9. On an unbounded volume that is at least as large as the output
    patch, with patch margins that are even, [ensemble_segment_3d] runs
    [segment_3d] on the volume padded by half the margin at both ends of
    every axis and returns one map per class, each of exactly the shape of
    the original image. *)
Theorem ensemble_unbounded_shape (fuel : nat) (model_paths : list string)
    (model_path : string) (image : ndarray Z) (fname : string)
    (batch_size in_w out_w in_d out_d : Z) (classes : Classes) (c c' : cache)
    (cnn : @model F) (net : (Z -> ndarray F) -> (Z -> ndarray F)) (nch : Z) :
  getitem model_paths 0 = Ok model_path ->
  load_model build_model model_path classes c = (Ok cnn, c') ->
  (forall t, cnn t = mk_tensor nch (net <$> samples t)) ->
  2 <= nch ->
  0 < batch_size ->
  0 < out_d <= in_d -> 0 < out_w <= in_w ->
  (in_d - out_d) mod 2 = 0 -> (in_w - out_w) mod 2 = 0 ->
  out_d <= dim0 image -> out_w <= dim1 image -> out_w <= dim2 image ->
  (length (ImUtils.get_coords_3d (shape image) (out_d, out_w, out_w)) <= fuel)%nat ->
  let padded := ImUtils.pad_3d image ((in_w - out_w) / 2) ((in_d - out_d) / 2) in
  exists pred_maps,
    ensemble_segment_3d fuel model_paths image fname batch_size in_w out_w in_d out_d
        classes false c = (Some (Ok pred_maps), c') /\
    segment_3d fuel cnn padded batch_size (in_d, in_w, in_w) (out_d, out_w, out_w)
      = Some (Ok pred_maps) /\
    shape padded = (dim0 image + (in_d - out_d), dim1 image + (in_w - out_w),
                    dim2 image + (in_w - out_w)) /\
    length pred_maps = Z.to_nat (nch / 2) /\
    Forall (fun pred_map => shape pred_map = shape image) pred_maps.
Proof.
  intros Hpath Hload Hcnn Hnch Hb Hd Hw Hed Hew H0 H1 H2 Hfuel padded.
  assert (2 * ((in_d - out_d) / 2) = in_d - out_d) as Hmd
    by (pose proof (Z.div_mod (in_d - out_d) 2); lia).
  assert (2 * ((in_w - out_w) / 2) = in_w - out_w) as Hmw
    by (pose proof (Z.div_mod (in_w - out_w) 2); lia).
  assert (shape padded = (dim0 image + (in_d - out_d), dim1 image + (in_w - out_w),
                          dim2 image + (in_w - out_w))) as Hpad.
  { subst padded. unfold ImUtils.pad_3d. cbn [shape]. by rewrite Hmd, Hmw. }
  assert (dim0 padded = dim0 image + (in_d - out_d) /\
          dim1 padded = dim1 image + (in_w - out_w) /\
          dim2 padded = dim2 image + (in_w - out_w)) as (Hp0 & Hp1 & Hp2).
  { unfold dim0, dim1, dim2. by rewrite Hpad. }
  assert ((dim0 padded - (in_d - out_d), dim1 padded - (in_w - out_w),
           dim2 padded - (in_w - out_w)) = shape image) as Hout.
  { rewrite Hp0, Hp1, Hp2. unfold dim0, dim1, dim2.
    destruct (shape image) as [[d h] w]. cbn [fst snd]. repeat f_equal; lia. }
  destruct (segment_3d_returns fuel cnn net nch padded batch_size in_d in_w out_d out_w)
    as (pred_maps & Hseg & Hlen & Hshape); try done; try lia.
  { by rewrite Hout. }
  rewrite Hout in Hshape.
  exists pred_maps. repeat split; try done.
  unfold ModelUtils.ensemble_segment_3d.
  rewrite Hpath, Hload. cbn [fst snd]. fold padded. rewrite Hseg.
  destruct pred_maps as [|first_map rest].
  { simpl in Hlen. assert (1 <= nch / 2) by (apply Z.div_le_lower_bound; lia). lia. }
  apply Forall_cons in Hshape as [Hfirst _].
  change (getitem (first_map :: rest) 0) with (Ok first_map).
  cbn [mbind result_bind]. unfold assert.
  by rewrite bool_decide_eq_true_2.
Qed.

End Unbounded.

(** A 1 x 1 x 3 image, input patches of 1 x 3 x 3 and output patches of
    1 x 1 x 1: the margin is 2 along height and width. *)
Lemma ensemble_unbounded_shape_witness :
  let padded := ImUtils.pad_3d Runs.ramp ((3 - 1) / 2) ((1 - 1) / 2) in
  exists pred_maps,
    ModelUtils.ensemble_segment_3d 0 id id (fun _ fg => fg) (fun p => 0 <? p)
      Runs.model_store 3 ["models/000004_center.pkl"] Runs.ramp "scan.nii.gz"
      2 3 1 1 1 tt false ModelUtils.empty_cache =
      (Some (Ok pred_maps),
       ModelUtils.mk_cache (Some (Runs.center_model 0 1))
                           (Some "models/000004_center.pkl")) /\
    ModelUtils.segment_3d 0 id id (fun _ fg => fg) (fun p => 0 <? p) 3
      (Runs.center_model 0 1) padded 2 (1, 3, 3) (1, 1, 1) = Some (Ok pred_maps) /\
    shape padded = (dim0 Runs.ramp + (1 - 1), dim1 Runs.ramp + (3 - 1),
                    dim2 Runs.ramp + (3 - 1)) /\
    length pred_maps = Z.to_nat (2 / 2) /\
    Forall (fun pred_map => shape pred_map = shape Runs.ramp) pred_maps.
Proof.
  apply (ensemble_unbounded_shape 0 id id (fun _ fg => fg) (fun p => 0 <? p)
           Runs.model_store 3 ["models/000004_center.pkl"] "models/000004_center.pkl"
           Runs.ramp "scan.nii.gz" 2 3 1 1 1 tt ModelUtils.empty_cache
           (ModelUtils.mk_cache (Some (Runs.center_model 0 1))
                                (Some "models/000004_center.pkl"))
           (Runs.center_model 0 1) (Runs.center_net 0 1) 2);
    try reflexivity; cbn; lia.
Defined.

(** ** [maybe_save_annotation_3d] *)

Section SaveAnnotation.

Import FileUtils.

Variable image_data_shape : list Z.
Variable fname train_annot_dir val_annot_dir : string.

Local Abbreviation maybe_save_annotation_3d :=
  (fun annot_data annot_path =>
     maybe_save_annotation_3d image_data_shape annot_data annot_path
       fname train_annot_dir val_annot_dir).

Lemma truthy_Some (path : string) : path <> "" -> truthy (Some path) = Some path.
Proof.
  intros Hne. unfold truthy. destruct (String.eqb_spec path ""); [done|done].
Qed.

(** C10. When an existing annotation path is given and the new data, cast
    to byte, equals the stored annotation, [maybe_save_annotation_3d]
    leaves the files and the journal of effects as they are (no log line,
    no write, no delete, no rename) and returns the path it was given. *)
Theorem maybe_save_unchanged_is_noop (annot_data stored : annot) (path : string) (w : world) :
  path <> "" ->
  files w !! path = Some stored ->
  astype_byte annot_data = astype_byte (astype_bool stored) ->
  maybe_save_annotation_3d annot_data (Some path) w = (Ok (Some path), w).
Proof.
  intros Hne Hfile Heq. unfold FileUtils.maybe_save_annotation_3d.
  rewrite truthy_Some by done. unfold load_annot. rewrite Hfile.
  unfold array_equal. by rewrite bool_decide_eq_true_2.
Qed.

(** An edit of an existing annotation with data that is not empty: one log
    line, then the data is written to the annotation path itself. *)
Lemma maybe_save_edit_in_place (annot_data stored : annot) (path : string) (w : world) :
  path <> "" ->
  files w !! path = Some stored ->
  astype_byte annot_data <> astype_byte (astype_bool stored) ->
  np_sum (astype_byte annot_data) <> 0 ->
  maybe_save_annotation_3d annot_data (Some path) w =
    (Ok (Some path),
     mk_world (<[path := astype_byte annot_data]> (files w))
       (journal w ++ [EvLog ("maybe_save_annot," +:+ fname +:+ ",updated existing data");
                      EvWrite path (astype_byte annot_data)])).
Proof.
  intros Hne Hfile Hdiff Hsum. unfold FileUtils.maybe_save_annotation_3d.
  rewrite truthy_Some by done. unfold load_annot. rewrite Hfile.
  unfold array_equal. rewrite bool_decide_eq_false_2 by done. cbn [negb].
  destruct (Z.eqb_spec (np_sum (astype_byte annot_data)) 0); [done|].
  unfold to_filename, log, emit. cbn [files journal].
  by rewrite <- app_assoc.
Qed.

(** A new annotation: the data goes to a hidden temporary file that is
    then renamed to the annotation path. *)
Lemma maybe_save_create_by_rename (annot_data : annot) (annot_path : option string)
    (w : world) :
  truthy annot_path = None ->
  0 < np_sum (astype_byte annot_data) ->
  let annot_dir :=
    get_new_annot_target_dir train_annot_dir val_annot_dir
      (log ("maybe_save_annot," +:+ fname +:+ ",create new") w) in
  let tmp_annot_path := OsPath.join annot_dir (".tmp_" +:+ fname) in
  let new_path := OsPath.join annot_dir fname in
  exists files',
    maybe_save_annotation_3d annot_data annot_path w =
      (Ok (Some new_path),
       mk_world files'
         (journal w ++ [EvLog ("maybe_save_annot," +:+ fname +:+ ",create new");
                        EvMkdir (OsPath.dirname tmp_annot_path);
                        EvMkdir (OsPath.dirname new_path);
                        EvWrite tmp_annot_path (astype_byte annot_data);
                        EvRename tmp_annot_path new_path])).
Proof.
  intros Hnone Hsum annot_dir tmp_annot_path new_path.
  unfold FileUtils.maybe_save_annotation_3d. rewrite Hnone.
  destruct (Z.ltb_spec 0 (np_sum (astype_byte annot_data))); [|lia].
  fold annot_dir. fold tmp_annot_path. fold new_path.
  unfold os_rename, to_filename, mkdir, log, emit. cbn [files journal].
  rewrite lookup_insert_eq.
  eexists. f_equal. f_equal.
  rewrite <- !app_assoc. done.
Qed.

End SaveAnnotation.

Lemma maybe_save_unchanged_is_noop_witness :
  SaveRuns.save SaveRuns.stored (Some SaveRuns.annot_file) SaveRuns.before =
    (Ok (Some SaveRuns.annot_file), SaveRuns.before).
Proof.
  apply (maybe_save_unchanged_is_noop [1; 1; 1] "scan.nii.gz" "proj/annotations/train"
           "proj/annotations/val" SaveRuns.stored SaveRuns.stored SaveRuns.annot_file
           SaveRuns.before).
  - discriminate.
  - reflexivity.
  - reflexivity.
Defined.

(** C4. Saving an edit of an existing annotation writes the new data
    straight to the annotation path, the path the trainer reads: the
    journal holds a log line and one write to that path, with no temporary
    file and no rename, whereas a new annotation saved by the same function
    is written under a [.tmp_] name and renamed. *)
Theorem edited_annotation_written_in_place :
  let '(ret, after) :=
    SaveRuns.save SaveRuns.edited (Some SaveRuns.annot_file) SaveRuns.before in
  let '(ret_new, after_new) :=
    SaveRuns.save SaveRuns.edited None (FileUtils.mk_world ∅ []) in
  ret = Ok (Some SaveRuns.annot_file) /\
  FileUtils.journal after =
    [FileUtils.EvLog "maybe_save_annot,scan.nii.gz,updated existing data";
     FileUtils.EvWrite SaveRuns.annot_file SaveRuns.edited] /\
  FileUtils.writes_by_rename (FileUtils.journal after) = false /\
  ret_new = Ok (Some SaveRuns.annot_file) /\
  FileUtils.journal after_new =
    [FileUtils.EvLog "maybe_save_annot,scan.nii.gz,create new";
     FileUtils.EvMkdir "proj/annotations/train";
     FileUtils.EvMkdir "proj/annotations/train";
     FileUtils.EvWrite "proj/annotations/train/.tmp_scan.nii.gz" SaveRuns.edited;
     FileUtils.EvRename "proj/annotations/train/.tmp_scan.nii.gz" SaveRuns.annot_file] /\
  FileUtils.writes_by_rename (FileUtils.journal after_new) = true.
Proof. vm_compute. repeat split. Qed.

(** ** The change-watch loop *)

Section WatchLoop.

Import RootPainter.

Context {Img Seg Props : Type}.
Variable decode_seg : string -> Img -> result (Seg * Props).

Local Abbreviation painter := (@painter Img Seg Props).
Local Abbreviation load_seg := (load_seg decode_seg).
Local Abbreviation try_reload := (try_reload decode_seg).
Local Abbreviation check := (check decode_seg).

(** *** Removing files *)

Lemma lookup_path_filter_ne (q path : string) (w : fs) :
  q <> path ->
  lookup_path q
    (mk_fs (dirs w) (List.filter (fun e' => negb (String.eqb (path_of e') path)) (entries w)))
  = lookup_path q w.
Proof.
  intros Hne. unfold lookup_path. cbn [entries].
  induction (entries w) as [|e es IH]; [done|].
  simpl. destruct (String.eqb_spec (path_of e) path) as [He|He]; simpl.
  - destruct (String.eqb_spec (path_of e) q); [congruence | done].
  - destruct (String.eqb_spec (path_of e) q); [done | done].
Qed.

Lemma lookup_path_filter_eq (path : string) (w : fs) :
  lookup_path path
    (mk_fs (dirs w) (List.filter (fun e' => negb (String.eqb (path_of e') path)) (entries w)))
  = None.
Proof.
  unfold lookup_path. cbn [entries].
  induction (entries w) as [|e es IH]; [done|].
  simpl. destruct (String.eqb_spec (path_of e) path) as [He|He]; simpl; [done|].
  destruct (String.eqb_spec (path_of e) path); [done | done].
Qed.

(** What [os.remove] does to any path [q]: the file stays as it is, or it
    is gone when [q] is the path removed. *)
Lemma remove_lookup (path q : string) (w w' : fs) :
  remove path w = Ok w' ->
  lookup_path q w' = (if decide (q = path) then None else lookup_path q w).
Proof.
  unfold remove. destruct (lookup_path path w) as [e|]; [|done].
  destruct (f_locked (e_file e)); [done|]. intros [= <-].
  destruct (decide (q = path)) as [->|Hne].
  - apply lookup_path_filter_eq.
  - by apply lookup_path_filter_ne.
Qed.

Lemma remove_unlocked (path : string) (w : fs) (e : entry) :
  lookup_path path w = Some e -> f_locked (e_file e) = false ->
  exists w', remove path w = Ok w'.
Proof. intros He Hl. unfold remove. rewrite He, Hl. by eexists. Qed.

Lemma remove_locked (path : string) (w : fs) (e : entry) :
  lookup_path path w = Some e -> f_locked (e_file e) = true ->
  remove path w = Raise OSError.
Proof. intros He Hl. unfold remove. by rewrite He, Hl. Qed.

(** *** The message loop *)

Lemma qt_fields (ev : qt_event) (p : painter) :
  seg_state (qt ev p) = seg_state p /\ message_dir (qt ev p) = message_dir p /\
  has_info_label (qt ev p) = has_info_label p /\ seg_path (qt ev p) = seg_path p /\
  img_data (qt ev p) = img_data p /\ lines_to_log (qt ev p) = lines_to_log p /\
  viewers (qt ev p) = viewers p /\ gui (qt ev p) = gui p ++ [ev].
Proof. done. Qed.

Lemma same_but_gui_refl (p : painter) : same_but_gui p p.
Proof. repeat split; try done. exists []. by rewrite app_nil_r. Qed.

Lemma same_but_gui_qt (ev : qt_event) (p p' : painter) :
  same_but_gui p p' -> same_but_gui p (qt ev p').
Proof.
  intros (? & ? & ? & ? & ? & ? & ? & evs & Hg).
  repeat split; try done. exists (evs ++ [ev]). cbn [gui qt].
  by rewrite Hg, app_assoc.
Qed.

Lemma same_but_gui_trans (p p' p'' : painter) :
  same_but_gui p p' -> same_but_gui p' p'' -> same_but_gui p p''.
Proof.
  intros (? & ? & ? & ? & ? & ? & ? & evs & Hg) (? & ? & ? & ? & ? & ? & ? & evs' & Hg').
  repeat split; try congruence. exists (evs ++ evs'). by rewrite Hg', Hg, app_assoc.
Qed.

Lemma show_messages_frame (messages : list string) (p : painter) (w : fs) :
  same_but_gui p (show_messages messages p w).1 /\
  dirs (show_messages messages p w).2 = dirs w.
Proof.
  revert p w. induction messages as [|m rest IH]; intros p w.
  - split; [apply same_but_gui_refl | done].
  - cbn [show_messages].
    set (p1 := if has_info_label p then qt (SetInfoText m) p else p).
    assert (same_but_gui p p1) as H1.
    { subst p1. destruct (has_info_label p);
        [apply same_but_gui_qt|]; apply same_but_gui_refl. }
    destruct (remove (OsPath.join (message_dir p1) m) w) as [w'|e] eqn:Hrm.
    + destruct (IH p1 w') as [Hp Hd]. split.
      * eapply same_but_gui_trans; done.
      * rewrite Hd. unfold remove in Hrm.
        destruct (lookup_path _ w); [|done].
        destruct (f_locked _); [done|]. by injection Hrm as <-.
    + destruct (IH (qt (Print "Caught exception when trying to detele msg") p1) w)
        as [Hp Hd].
      split; [|done].
      eapply same_but_gui_trans; [|exact Hp].
      apply same_but_gui_qt, H1.
Qed.

(** *** Reloading the segmentation *)

Lemma refresh_viewers_seg_state (vs : list bool) (i : nat) (p : painter) :
  seg_state (refresh_viewers i vs p) = seg_state p.
Proof.
  revert i p. induction vs as [|visible vs IH]; intros i p; [done|].
  cbn [refresh_viewers]. rewrite IH. by destruct visible.
Qed.

Lemma try_reload_spec (path : string) (p : painter) (w : fs) (new_mtime : Z) :
  getmtime path w = Ok new_mtime ->
  let due := match seg_mtime p with None => true | Some t => t <? new_mtime end in
  let '(p', r) := try_reload path p w in
  if due then
    match load_seg path (img_data p) w with
    | Ok (seg, props) =>
        r = Ok tt /\
        seg_state p' = (ANNOTATING, Some new_mtime, Some seg, Some props)
    | Raise e => r = Raise e /\ seg_state p' = seg_state p
    end
  else r = Ok tt /\ p' = p.
Proof.
  intros Hm. unfold RootPainter.try_reload. rewrite Hm.
  destruct (match seg_mtime p with None => true | Some t => t <? new_mtime end); [|done].
  change (img_data (RootPainter.log _ p)) with (img_data p).
  destruct (RootPainter.load_seg decode_seg path (img_data p) w) as [[seg props]|e]; [|done].
  split; [done|].
  set (p1 := set_view_state ANNOTATING _).
  pose proof (refresh_viewers_seg_state (viewers p1) 0 p1) as Hr.
  unfold seg_state in *. cbn [view_state seg_mtime seg_data seg_props qt set_seg_mtime].
  apply pair_equal_spec in Hr as [Hr Hp]. apply pair_equal_spec in Hr as [Hr Hd].
  apply pair_equal_spec in Hr as [Hv _]. by rewrite Hv, Hd, Hp.
Qed.


(** *** Showing and deleting the messages *)

Lemma refresh_viewers_gui (vs : list bool) (i : nat) (p : painter) (ev : qt_event) :
  ev ∈ gui p -> ev ∈ gui (refresh_viewers i vs p).
Proof.
  revert i p. induction vs as [|visible vs IH]; intros i p Hev; [done|].
  cbn [refresh_viewers]. apply IH.
  destruct visible; cbn [gui qt]; rewrite ?elem_of_app; tauto.
Qed.

Lemma try_reload_gui (path : string) (p : painter) (w : fs) (ev : qt_event) :
  ev ∈ gui p -> ev ∈ gui (try_reload path p w).1.
Proof.
  intros Hev. unfold RootPainter.try_reload.
  destruct (getmtime path w); [|done].
  destruct (match seg_mtime p with None => true | Some t => t <? a end); [|done].
  assert (ev ∈ gui (RootPainter.log ("load_seg,fname:" +:+ OsPath.basename path) p))
    as Hlog by (cbn [gui qt RootPainter.log]; rewrite elem_of_app; by left).
  destruct (RootPainter.load_seg _ _ _ _) as [[seg props]|e]; [|done].
  cbn [fst gui qt set_seg_mtime]. rewrite !elem_of_app. left. left.
  apply refresh_viewers_gui. cbn [gui qt set_view_state set_seg].
  rewrite elem_of_app. by left.
Qed.

(** What the message loop has done when it ends: the calls made to Qt so
    far are still there; no file has appeared; files held open by another
    process are still there; every listed file that could be deleted is
    gone; every listed name was set as the text of the info label, when
    there is one; and a listed file that could not be deleted left a
    printed line. *)
Lemma show_messages_spec (messages : list string) (p : painter) (w : fs) :
  let p' := (show_messages messages p w).1 in
  let w' := (show_messages messages p w).2 in
  let path_of_message := fun m => OsPath.join (message_dir p) m in
  (forall ev, ev ∈ gui p -> ev ∈ gui p') /\
  (forall q, lookup_path q w = None -> lookup_path q w' = None) /\
  (forall q e, lookup_path q w = Some e -> f_locked (e_file e) = true ->
     lookup_path q w' = Some e) /\
  (forall m e, m ∈ messages -> lookup_path (path_of_message m) w = Some e ->
     f_locked (e_file e) = false -> lookup_path (path_of_message m) w' = None) /\
  (has_info_label p = true -> forall m, m ∈ messages -> SetInfoText m ∈ gui p') /\
  (forall m e, m ∈ messages -> lookup_path (path_of_message m) w = Some e ->
     f_locked (e_file e) = true -> delete_failed ∈ gui p').
Proof.
  revert p w. induction messages as [|m rest IH]; intros p w.
  { cbn. repeat split; try done.
    - intros m e Hm. by apply elem_of_nil in Hm.
    - intros _ m Hm. by apply elem_of_nil in Hm.
    - intros m e Hm. by apply elem_of_nil in Hm. }
  cbn [show_messages].
  set (p1 := if has_info_label p then qt (SetInfoText m) p else p).
  assert (message_dir p1 = message_dir p) as Hdir by (subst p1; by destruct (has_info_label p)).
  assert (has_info_label p1 = has_info_label p) as Hlab.
  { subst p1. destruct (has_info_label p) eqn:E; exact E. }
  assert (forall ev, ev ∈ gui p -> ev ∈ gui p1) as Hmono1.
  { intros ev Hev. subst p1. destruct (has_info_label p); [|done].
    cbn [gui qt]. rewrite elem_of_app. by left. }
  assert (has_info_label p = true -> SetInfoText m ∈ gui p1) as Hshown.
  { intros Hl. subst p1. rewrite Hl. cbn [gui qt]. rewrite elem_of_app. right.
    apply list_elem_of_singleton. done. }
  rewrite Hdir.
  destruct (remove (OsPath.join (message_dir p) m) w) as [w1|err] eqn:Hrm.
  - (* the file was deleted *)
    pose proof (fun q => remove_lookup _ q _ _ Hrm) as Hlook.
    destruct (IH p1 w1) as (M & L1 & L2 & L3 & L4 & L5).
    rewrite Hdir in L3, L5. rewrite Hlab in L4.
    cbn zeta. repeat split.
    + intros ev Hev. by apply M, Hmono1.
    + intros q Hq. apply L1. rewrite Hlook. by destruct (decide _).
    + intros q e Hq Hl. apply L2; [|done]. rewrite Hlook.
      destruct (decide (q = OsPath.join (message_dir p) m)) as [->|]; [|done].
      unfold remove in Hrm. rewrite Hq, Hl in Hrm. done.
    + intros m' e Hm' Hq Hl.
      destruct (decide (OsPath.join (message_dir p) m' = OsPath.join (message_dir p) m))
        as [Heq|Hne].
      * apply L1. rewrite Hlook. by rewrite decide_True.
      * apply elem_of_cons in Hm' as [->|Hm']; [done|].
        apply (L3 m' e); [done| |done]. rewrite Hlook. by rewrite decide_False.
    + intros Hl m' Hm'. apply elem_of_cons in Hm' as [->|Hm'].
      * by apply M, Hshown.
      * by apply L4.
    + intros m' e Hm' Hq Hl.
      destruct (decide (OsPath.join (message_dir p) m' = OsPath.join (message_dir p) m))
        as [Heq|Hne].
      * rewrite Heq in Hq. unfold remove in Hrm. rewrite Hq, Hl in Hrm. done.
      * apply elem_of_cons in Hm' as [->|Hm']; [done|].
        apply (L5 m' e); [done| |done]. rewrite Hlook. by rewrite decide_False.
  - (* deleting raised *)
    destruct (IH (qt delete_failed p1) w) as (M & L1 & L2 & L3 & L4 & L5).
    cbn [message_dir qt has_info_label] in L3, L4, L5.
    rewrite Hdir in L3, L5. rewrite Hlab in L4.
    assert (forall ev, ev ∈ gui p1 -> ev ∈ gui (qt delete_failed p1)) as Hmono2.
    { intros ev Hev. cbn [gui qt]. rewrite elem_of_app. by left. }
    fold delete_failed. cbn zeta. repeat split.
    + intros ev Hev. by apply M, Hmono2, Hmono1.
    + done.
    + done.
    + intros m' e Hm' Hq Hl. apply elem_of_cons in Hm' as [->|Hm'].
      * destruct (remove_unlocked _ _ _ Hq Hl) as [w1 Hw1]. congruence.
      * by apply (L3 m' e).
    + intros Hl m' Hm'. apply elem_of_cons in Hm' as [->|Hm'].
      * by apply M, Hmono2, Hshown.
      * by apply L4.
    + intros m' e Hm' Hq Hl. apply elem_of_cons in Hm' as [->|Hm'].
      * apply M. cbn [gui qt]. rewrite elem_of_app. right.
        by apply list_elem_of_singleton.
      * by apply (L5 m' e).
Qed.

(** C6, amended. A tick of the change-watch loop that could list the
    message directory sets the name of every listed file, not its content,
    as the text of the info label (when the window has one) and deletes
    the file; a file that cannot be deleted stays, a line is printed for
    it, and the tick goes on to schedule the next one. *)
Theorem check_shows_message_names (p : painter) (w : fs) (messages : list string) :
  listdir (message_dir p) w = Ok messages ->
  exists p' w',
    check p w = Ok (p', w') /\
    last (gui p') = Some (SingleShot 500 CbCheck) /\
    (has_info_label p = true -> forall m, m ∈ messages -> SetInfoText m ∈ gui p') /\
    (forall m e,
       m ∈ messages ->
       lookup_path (OsPath.join (message_dir p) m) w = Some e ->
       if f_locked (e_file e)
       then lookup_path (OsPath.join (message_dir p) m) w' = Some e /\
            delete_failed ∈ gui p'
       else isfile (OsPath.join (message_dir p) m) w' = false).
Proof.
  intros Hlist. unfold RootPainter.check. rewrite Hlist. cbn [mbind result_bind].
  pose proof (show_messages_spec messages p w) as Hspec. cbn zeta in Hspec.
  destruct (show_messages messages p w) as [pm wm]. cbn [fst snd] in Hspec.
  destruct Hspec as (M & L1 & L2 & L3 & L4 & L5).
  set (p2 := match truthy (seg_path pm) with
             | Some path =>
                 if isfile path wm
                 then match try_reload path pm wm with
                      | (p0, Ok _) => p0
                      | (p0, Raise _) => qt (Print "Exception loading segmentation") p0
                      end
                 else pm
             | None => pm
             end).
  assert (forall ev, ev ∈ gui pm -> ev ∈ gui (qt (SingleShot 500 CbCheck) p2)) as Hmono.
  { intros ev Hev. cbn [gui qt]. rewrite elem_of_app. left. subst p2.
    destruct (truthy (seg_path pm)) as [path|]; [|done].
    destruct (isfile path wm); [|done].
    pose proof (try_reload_gui path pm wm ev Hev) as Hg.
    destruct (try_reload path pm wm) as [p0 [?|?]]; cbn [fst] in Hg; [done|].
    cbn [gui qt]. rewrite elem_of_app. by left. }
  exists (qt (SingleShot 500 CbCheck) p2), wm.
  split; [reflexivity|]. split; [cbn [gui qt]; apply last_snoc|]. split.
  - intros Hl m Hm. by apply Hmono, L4.
  - intros m e Hm Hq. destruct (f_locked (e_file e)) eqn:Hlock.
    + split; [by apply L2 | by apply Hmono, (L5 m e)].
    + unfold isfile. by rewrite (L3 m e).
Qed.

End WatchLoop.


Lemma check_shows_message_names_witness :
  exists p' w',
    RootPainter.check WatchRuns.decode WatchRuns.waiting WatchRuns.tree_locked
      = Ok (p', w') /\
    last (RootPainter.gui p') = Some (RootPainter.SingleShot 500 RootPainter.CbCheck) /\
    (RootPainter.has_info_label WatchRuns.waiting = true ->
     forall m, m ∈ ["Training started"] -> RootPainter.SetInfoText m ∈ RootPainter.gui p') /\
    (forall m e,
       m ∈ ["Training started"] ->
       RootPainter.lookup_path
         (OsPath.join (RootPainter.message_dir WatchRuns.waiting) m)
         WatchRuns.tree_locked = Some e ->
       if RootPainter.f_locked (RootPainter.e_file e)
       then RootPainter.lookup_path
              (OsPath.join (RootPainter.message_dir WatchRuns.waiting) m) w' = Some e /\
            RootPainter.delete_failed ∈ RootPainter.gui p'
       else RootPainter.isfile
              (OsPath.join (RootPainter.message_dir WatchRuns.waiting) m) w' = false).
Proof.
  apply (check_shows_message_names WatchRuns.decode WatchRuns.waiting
           WatchRuns.tree_locked ["Training started"]).
  reflexivity.
Defined.

(** The tick of the counterexample of C6: the label is set to the name of
    the message file, its content is shown nowhere, and the file is
    deleted. *)
Lemma check_shows_name_not_content :
  exists p' w',
    RootPainter.check WatchRuns.decode WatchRuns.waiting WatchRuns.tree = Ok (p', w') /\
    RootPainter.lookup_path "proj/messages/Training started" WatchRuns.tree
      = Some (RootPainter.mk_entry "proj/messages" "Training started"
                (RootPainter.mk_file 90 "epoch 1" false)) /\
    (RootPainter.SetInfoText "Training started" ∈ RootPainter.gui p') /\
    (RootPainter.SetInfoText "epoch 1" ∉ RootPainter.gui p') /\
    RootPainter.isfile "proj/messages/Training started" w' = false.
Proof.
  eexists _, _. split; [vm_compute; reflexivity|].
  split; [reflexivity|]. split; [|split; [|reflexivity]].
  - apply list_elem_of_In. simpl. tauto.
  - intros Hin. apply list_elem_of_In in Hin. simpl in Hin.
    repeat (destruct Hin as [Hin|Hin]; [discriminate Hin|]). done.
Qed.

(** The tick has one call outside every [try]: when the message directory
    cannot be listed, the exception leaves [check] and no further tick is
    scheduled. *)
Lemma check_listdir_failure_escapes :
  RootPainter.check WatchRuns.decode WatchRuns.waiting
    (RootPainter.mk_fs ["proj/segmentations"] []) = Raise OSError.
Proof. reflexivity. Qed.

(** ** Python text: [str], [int], [zfill], [split] and [join] *)

Section TextFacts.

Lemma string_app_cons (c : ascii) (s1 s2 : string) :
  String c s1 +:+ s2 = String c (s1 +:+ s2).
Proof. done. Qed.

Lemma string_app_nil_r (s : string) : s +:+ "" = s.
Proof. induction s as [|c s IH]; [done|]. by rewrite string_app_cons, IH. Qed.

Lemma string_app_assoc (s1 s2 s3 : string) : s1 +:+ (s2 +:+ s3) = (s1 +:+ s2) +:+ s3.
Proof. induction s1 as [|c s1 IH]; [done|]. by rewrite !string_app_cons, IH. Qed.

Lemma str_all_app (P : ascii -> bool) (s1 s2 : string) :
  str_all P (s1 +:+ s2) = str_all P s1 && str_all P s2.
Proof.
  induction s1 as [|c s1 IH]; [done|].
  rewrite string_app_cons. simpl. by rewrite IH, andb_assoc.
Qed.

Lemma str_all_rev_app (P : ascii -> bool) (s1 s2 : string) :
  str_all P (String.rev_app s1 s2) = str_all P s1 && str_all P s2.
Proof.
  revert s2. induction s1 as [|c s1 IH]; intros s2; simpl; [done|].
  rewrite IH. simpl. destruct (P c), (str_all P s1); simpl; done.
Qed.

Lemma str_all_rev (P : ascii -> bool) (s : string) :
  str_all P (String.rev s) = str_all P s.
Proof. unfold String.rev. rewrite str_all_rev_app. simpl. by rewrite andb_true_r. Qed.

Lemma str_all_impl (P Q : ascii -> bool) (s : string) :
  (forall c, P c = true -> Q c = true) -> str_all P s = true -> str_all Q s = true.
Proof.
  intros HPQ. induction s as [|c s IH]; simpl; [done|].
  intros [Hc Hs]%andb_true_iff. by rewrite (HPQ c Hc), IH.
Qed.

Lemma rev_app_app (s1 s2 : string) :
  String.rev_app s1 s2 = String.rev s1 +:+ s2.
Proof.
  unfold String.rev. revert s2. induction s1 as [|c s1 IH]; intros s2; simpl; [done|].
  rewrite IH, (IH (String c "")).
  by rewrite <- string_app_assoc.
Qed.

Lemma string_rev_app (s1 s2 : string) :
  String.rev (s1 +:+ s2) = String.rev s2 +:+ String.rev s1.
Proof.
  induction s1 as [|c s1 IH].
  - by rewrite string_app_nil_r.
  - rewrite string_app_cons. unfold String.rev in *. simpl.
    rewrite (rev_app_app (s1 +:+ s2)), (rev_app_app s1).
    unfold String.rev. rewrite IH. by rewrite string_app_assoc.
Qed.

Lemma string_rev_involutive (s : string) : String.rev (String.rev s) = s.
Proof.
  induction s as [|c s IH]; [done|].
  unfold String.rev at 2. simpl. rewrite rev_app_app, string_rev_app, IH. done.
Qed.

(** *** [int(str(n))] *)

Lemma lstrip_plain (s : string) : str_all not_space s = true -> lstrip s = s.
Proof.
  destruct s as [|c s]; [done|]. simpl. unfold not_space.
  intros [Hc _]%andb_true_iff. by destruct (is_space c).
Qed.

Lemma strip_plain (s : string) : str_all not_space s = true -> strip s = s.
Proof.
  intros Hs. unfold strip. rewrite (lstrip_plain s Hs).
  rewrite lstrip_plain by by rewrite str_all_rev.
  apply string_rev_involutive.
Qed.

Lemma digits_from_digit (acc : Z) (prev : bool) (c : ascii) (s : string) (k : Z) :
  digit_of c = Some k ->
  digits_from acc prev (String c s) = digits_from (10 * acc + k) true s.
Proof. intros Hc. simpl. by rewrite Hc. Qed.

(** A string that starts with a digit and has no white space is converted
    by its digits alone. *)
Lemma int_digit_head (c : ascii) (r : string) :
  is_digit c = true ->
  str_all not_space (String c r) = true ->
  int (String c r) =
    match digits_from 0 false (String c r) with
    | Some v => Ok v
    | None => Raise ValueError
    end.
Proof.
  intros Hc Hs. unfold int. rewrite (strip_plain _ Hs).
  assert (c <> "-"%char /\ c <> "+"%char) as [Hm Hp].
  { split; intros ->; discriminate Hc. }
  assert ((let '(sign, body) :=
             match String c r with
             | String "-" r0 => (-1, r0)
             | String "+" r0 => (1, r0)
             | _ => (1, String c r)
             end in
           match digits_from 0 false body with
           | Some v => Ok (sign * v)
           | None => Raise ValueError
           end) =
          match digits_from 0 false (String c r) with
          | Some v => Ok (1 * v)
          | None => Raise ValueError
          end) as ->.
  { destruct c as [[] [] [] [] [] [] [] []]; try reflexivity; exfalso;
      first [by apply Hm | by apply Hp]. }
  destruct (digits_from 0 false (String c r)) as [v|]; [|done].
  by rewrite Z.mul_1_l.
Qed.

Lemma int_minus_head (r : string) :
  str_all not_space r = true ->
  int (String "-" r) =
    match digits_from 0 false r with
    | Some v => Ok (- v)
    | None => Raise ValueError
    end.
Proof.
  intros Hs. unfold int. rewrite strip_plain by (simpl; by rewrite Hs).
  destruct (digits_from 0 false r) as [v|]; [|done]. by destruct v.
Qed.

Local Abbreviation sou := NilEmpty.string_of_uint.

Lemma string_of_uint_digits (d : Decimal.uint) : str_all is_digit (sou d) = true.
Proof. induction d; simpl; done. Qed.

Lemma digits_from_uint_acc (d : Decimal.uint) (p : positive) :
  digits_from (Z.pos p) true (sou d) = Some (Z.pos (Pos.of_uint_acc d p)).
Proof.
  revert p. induction d as [|d IH|d IH|d IH|d IH|d IH|d IH|d IH|d IH|d IH|d IH];
    intros p; [done|..];
    cbn [NilEmpty.string_of_uint Pos.of_uint_acc];
    erewrite digits_from_digit by reflexivity;
    rewrite <- IH; f_equal;
    match goal with
    | |- context [Z.of_nat ?n] =>
        let v := eval vm_compute in (Z.of_nat n) in change (Z.of_nat n) with v
    end; lia.
Qed.

Lemma digits_from_uint (d : Decimal.uint) :
  digits_from 0 true (sou d) = Some (Z.of_N (Pos.of_uint d)).
Proof.
  induction d as [|d IH|d IH|d IH|d IH|d IH|d IH|d IH|d IH|d IH|d IH];
    [done|..];
    cbn [NilEmpty.string_of_uint Pos.of_uint];
    erewrite digits_from_digit by reflexivity;
    [exact IH | apply digits_from_uint_acc ..].
Qed.

(** Zeros in front do not change the value. *)
Lemma digits_from_zeros (n : nat) (s : string) :
  digits_from 0 true (string_of_list_ascii (replicate n "0"%char) +:+ s) =
  digits_from 0 true s.
Proof.
  induction n as [|n IH]; [done|].
  cbn [replicate string_of_list_ascii]. rewrite string_app_cons.
  erewrite digits_from_digit by reflexivity. exact IH.
Qed.

Lemma digits_from_first (s : string) :
  s <> "" -> str_all is_digit s = true ->
  digits_from 0 false s = digits_from 0 true s.
Proof.
  destruct s as [|c s]; [done|]. intros _ [Hc _]%andb_true_iff.
  unfold is_digit in Hc. destruct (digit_of c) as [k|] eqn:Hk; [|done].
  by rewrite !(digits_from_digit _ _ _ _ _ Hk).
Qed.

Lemma string_of_uint_nonempty (d : Decimal.uint) : d <> Decimal.Nil -> sou d <> "".
Proof. by destruct d. Qed.

Lemma digit_not_space (c : ascii) : is_digit c = true -> not_space c = true.
Proof.
  destruct c as [[] [] [] [] [] [] [] []]; try reflexivity; intros H; discriminate H.
Qed.

Lemma zeros_digits (n : nat) :
  str_all is_digit (string_of_list_ascii (replicate n "0"%char)) = true.
Proof. induction n as [|n IH]; [done|]. simpl. exact IH. Qed.

(** The digits of a number, with any number of zeros in front, are read
    back as the number. *)
Lemma digits_from_padded (n : nat) (d : Decimal.uint) :
  d <> Decimal.Nil ->
  let s := string_of_list_ascii (replicate n "0"%char) +:+ sou d in
  str_all is_digit s = true /\ s <> "" /\
  digits_from 0 false s = Some (Z.of_N (Pos.of_uint d)).
Proof.
  intros Hd s.
  assert (str_all is_digit s = true) as Hs.
  { subst s. by rewrite str_all_app, zeros_digits, string_of_uint_digits. }
  assert (s <> "") as Hne.
  { subst s. pose proof (string_of_uint_nonempty _ Hd) as Hp.
    destruct n; [done|]. done. }
  repeat split; [done..|].
  rewrite digits_from_first by done. subst s.
  by rewrite digits_from_zeros, digits_from_uint.
Qed.

Lemma int_of_digits (s : string) :
  s <> "" -> str_all is_digit s = true ->
  int s = match digits_from 0 false s with
          | Some v => Ok v
          | None => Raise ValueError
          end.
Proof.
  destruct s as [|c r]; [done|]. intros _ Hs.
  apply int_digit_head.
  - simpl in Hs. by apply andb_true_iff in Hs as [-> _].
  - apply (str_all_impl is_digit not_space); [apply digit_not_space | exact Hs].
Qed.

Lemma zfill_digits (width : nat) (s : string) :
  str_all is_digit s = true ->
  zfill width s =
    string_of_list_ascii (replicate (width - String.length s) "0"%char) +:+ s.
Proof.
  destruct s as [|c r]; [intros _; by rewrite string_app_nil_r|].
  intros [Hc _]%andb_true_iff. unfold zfill.
  destruct (Ascii.eqb_spec c "-") as [->|_]; [discriminate Hc|].
  destruct (Ascii.eqb_spec c "+") as [->|_]; [discriminate Hc|].
  done.
Qed.

(** [int(str(n).zfill(width)) == n] for every int and width. *)
Lemma int_zfill_str (width : nat) (n : Z) : int (zfill width (str_of_int n)) = Ok n.
Proof.
  unfold str_of_int. destruct n as [|p|p]; cbn [Z.to_int NilEmpty.string_of_int].
  - change (NilEmpty.string_of_uint (Decimal.D0 Decimal.Nil)) with (sou (Decimal.D0 Decimal.Nil)).
    rewrite zfill_digits by done.
    destruct (digits_from_padded (width - String.length (sou (Decimal.D0 Decimal.Nil)))
                (Decimal.D0 Decimal.Nil)) as (Hd & Hne & Hv); [done|].
    by rewrite int_of_digits, Hv.
  - rewrite zfill_digits by apply string_of_uint_digits.
    destruct (digits_from_padded (width - String.length (sou (Pos.to_uint p)))
                (Pos.to_uint p)) as (Hd & Hne & Hv); [apply Unsigned.to_uint_nonnil|].
    by rewrite int_of_digits, Hv, Unsigned.of_to.
  - change (zfill width (String "-" (sou (Pos.to_uint p)))) with
      (String "-" (string_of_list_ascii
                     (replicate (width - String.length (String "-" (sou (Pos.to_uint p))))
                                "0"%char) +:+ sou (Pos.to_uint p))).
    destruct (digits_from_padded
                (width - String.length (String "-" (sou (Pos.to_uint p))))
                (Pos.to_uint p)) as (Hd & Hne & Hv); [apply Unsigned.to_uint_nonnil|].
    rewrite int_minus_head, Hv, Unsigned.of_to; [done|].
    apply (str_all_impl is_digit not_space); [apply digit_not_space | exact Hd].
Qed.

(** [int(str(n)) == n] *)
Lemma int_str (n : Z) : int (str_of_int n) = Ok n.
Proof.
  pose proof (int_zfill_str 0 n) as H.
  replace (zfill 0 (str_of_int n)) with (str_of_int n) in H; [done|].
  unfold zfill. by destruct (str_of_int n) as [|c r]; [|destruct (_ || _)].
Qed.

(** *** [split] and [join] *)

Lemma string_rev_cons (c : ascii) (s : string) :
  String.rev (String c s) = String.rev s +:+ String c "".
Proof. unfold String.rev. simpl. by rewrite rev_app_app. Qed.

(** A part without the separator, followed by the separator, is the first
    part of the split. *)
Lemma split_from_token (sep : ascii) (cur t rest : string) :
  str_all (is_not sep) t = true ->
  split_from sep cur (t +:+ String sep rest) =
    (String.rev cur +:+ t) :: split_from sep "" rest.
Proof.
  revert cur. induction t as [|c t IH]; intros cur Ht.
  - simpl. rewrite Ascii.eqb_refl. by rewrite string_app_nil_r.
  - simpl in Ht. apply andb_true_iff in Ht as [Hc Ht].
    rewrite string_app_cons. simpl.
    unfold is_not in Hc. rewrite Ascii.eqb_sym in Hc.
    destruct (Ascii.eqb c sep); [done|].
    rewrite IH by done. rewrite string_rev_cons.
    by rewrite <- string_app_assoc.
Qed.

Lemma split_from_last (sep : ascii) (cur t : string) :
  str_all (is_not sep) t = true ->
  split_from sep cur t = [String.rev cur +:+ t].
Proof.
  revert cur. induction t as [|c t IH]; intros cur Ht.
  - simpl. by rewrite string_app_nil_r.
  - simpl in Ht. apply andb_true_iff in Ht as [Hc Ht]. simpl.
    unfold is_not in Hc. rewrite Ascii.eqb_sym in Hc.
    destruct (Ascii.eqb c sep); [done|].
    rewrite IH by done. rewrite string_rev_cons.
    by rewrite <- string_app_assoc.
Qed.

Lemma split_from_nonempty (sep : ascii) (cur s : string) : split_from sep cur s <> [].
Proof.
  revert cur. induction s as [|c s IH]; intros cur; simpl; [done|].
  destruct (Ascii.eqb c sep); [done | apply IH].
Qed.

Lemma concat_cons (sep x : string) (xs : list string) :
  xs <> [] -> String.concat sep (x :: xs) = x +:+ sep +:+ String.concat sep xs.
Proof. by destruct xs. Qed.

Lemma join_split_from (sep : ascii) (cur s : string) :
  str_join (String sep "") (split_from sep cur s) = String.rev cur +:+ s.
Proof.
  unfold str_join. revert cur. induction s as [|c s IH]; intros cur.
  - simpl. by rewrite string_app_nil_r.
  - simpl. destruct (Ascii.eqb_spec c sep) as [->|Hne].
    + rewrite concat_cons by apply split_from_nonempty.
      rewrite IH. done.
    + rewrite IH, string_rev_cons. by rewrite <- string_app_assoc.
Qed.

(** [sep.join(s.split(sep)) == s] *)
Lemma join_split (sep : ascii) (s : string) :
  str_join (String sep "") (split sep s) = s.
Proof. unfold split. by rewrite join_split_from. Qed.

(** Parts without the separator are the split of their join. *)
Lemma split_join (sep : ascii) (parts : list string) :
  parts <> [] ->
  Forall (fun t => str_all (is_not sep) t = true) parts ->
  split sep (str_join (String sep "") parts) = parts.
Proof.
  unfold split, str_join. induction parts as [|t parts IH]; [done|].
  intros _ Hall. apply Forall_cons in Hall as [Ht Hall].
  destruct parts as [|t' parts].
  - simpl. by rewrite split_from_last.
  - rewrite concat_cons by done.
    set (joined := String.concat (String sep "") (t' :: parts)) in *.
    change (t +:+ String sep "" +:+ joined) with (t +:+ String sep joined).
    rewrite split_from_token by done. by rewrite IH.
Qed.

(** *** [os.path] *)

Lemma contains_all (c : ascii) (s : string) :
  OsPath.contains c s = negb (str_all (is_not c) s).
Proof.
  induction s as [|d s IH]; [done|]. simpl. rewrite IH. unfold is_not.
  by destruct (Ascii.eqb c d).
Qed.

Lemma basename_plain (s : string) :
  str_all (is_not "/") s = true -> OsPath.basename s = s.
Proof.
  destruct s as [|c s]; [done|]. simpl.
  intros [Hc Hs]%andb_true_iff. rewrite contains_all, Hs. simpl.
  unfold is_not in Hc. rewrite Ascii.eqb_sym in Hc. by destruct (Ascii.eqb c "/").
Qed.

Lemma basename_after_slash (a b : string) :
  str_all (is_not "/") b = true -> OsPath.basename (a +:+ String "/" b) = b.
Proof.
  intros Hb. induction a as [|c a IH].
  - change ("" +:+ String "/" b) with (String "/" b). simpl.
    by rewrite contains_all, Hb.
  - rewrite string_app_cons. simpl.
    assert (OsPath.contains "/" (a +:+ String "/" b) = true) as ->; [|done].
    rewrite contains_all, str_all_app. simpl. by rewrite andb_false_r.
Qed.

(** The last component of a joined path is the name that was joined,
    when the name has no slash in it. *)
Lemma basename_join (dir name : string) :
  str_all (is_not "/") name = true ->
  OsPath.basename (OsPath.join dir name) = name.
Proof.
  intros Hn. unfold OsPath.join, OsPath.startswith.
  assert (is_prefix "/" name = false) as ->.
  { destruct name as [|c r]; [done|]. cbn [str_all] in Hn.
    apply andb_true_iff in Hn as [Hc _]. unfold is_not in Hc.
    change (is_prefix "/" (String c r)) with (if Ascii.eqb "/" c then true else false).
    by destruct (Ascii.eqb "/" c). }
  destruct (String.eqb_spec dir "") as [->|Hdir]; simpl.
  { by apply basename_plain. }
  unfold OsPath.endswith_char.
  destruct (String.rev dir) as [|d r] eqn:Hrev.
  { by apply (basename_after_slash dir name). }
  destruct (Ascii.eqb_spec "/" d) as [<-|_].
  - assert (dir = String.rev r +:+ "/") as ->.
    { rewrite <- (string_rev_involutive dir), Hrev. apply string_rev_cons. }
    rewrite <- string_app_assoc. by apply (basename_after_slash (String.rev r) name).
  - by apply (basename_after_slash dir name).
Qed.

End TextFacts.

(** ** [model_utils.py]: numbering and finding the model files *)

Section ModelFilesFacts.

Import ModelUtils ModelFiles.

Lemma zeros_chars (P : ascii -> bool) (n : nat) :
  P "0"%char = true ->
  str_all P (string_of_list_ascii (replicate n "0"%char)) = true.
Proof. intros H0. induction n as [|n IH]; [done|]. simpl. by rewrite H0. Qed.

Lemma str_of_int_chars (n : Z) : str_all int_char (str_of_int n) = true.
Proof.
  unfold str_of_int. destruct n as [|p|p]; cbn [Z.to_int NilEmpty.string_of_int].
  - done.
  - apply (str_all_impl is_digit); [|apply string_of_uint_digits].
    intros c Hc. unfold int_char. by rewrite Hc.
  - cbn [str_all]. apply andb_true_iff. split; [done|].
    apply (str_all_impl is_digit); [|apply string_of_uint_digits].
    intros c Hc. unfold int_char. by rewrite Hc.
Qed.

Lemma zfill_chars (P : ascii -> bool) (width : nat) (s : string) :
  P "0"%char = true -> str_all P s = true -> str_all P (zfill width s) = true.
Proof.
  intros H0 Hs. unfold zfill.
  destruct s as [|c r]; [by apply zeros_chars|].
  pose proof Hs as Hs'. cbn [str_all] in Hs'. apply andb_true_iff in Hs' as [Hc Hr].
  destruct (Ascii.eqb c "-" || Ascii.eqb c "+").
  - cbn [str_all]. by rewrite Hc, str_all_app, zeros_chars, Hr.
  - by rewrite str_all_app, zeros_chars, Hs.
Qed.

Lemma int_char_not (c : ascii) :
  c <> "-"%char -> is_digit c = false ->
  forall d, int_char d = true -> is_not c d = true.
Proof.
  intros Hm Hd d Hint. unfold is_not. destruct (Ascii.eqb_spec c d) as [<-|]; [|done].
  unfold int_char in Hint. rewrite Hd in Hint. simpl in Hint.
  by apply Ascii.eqb_eq in Hint.
Qed.

Lemma model_name_no_slash (model_num now : Z) :
  str_all (is_not "/") (model_name model_num now) = true.
Proof.
  unfold model_name.
  assert (forall d, int_char d = true -> is_not "/" d = true) as Himp
    by by apply int_char_not.
  rewrite !str_all_app.
  rewrite (str_all_impl int_char _ _ Himp (zfill_chars int_char 6 _ eq_refl (str_of_int_chars _))).
  by rewrite (str_all_impl int_char _ _ Himp (str_of_int_chars now)).
Qed.

Lemma model_number_model_name (model_dir : string) (model_num now : Z) :
  model_number (OsPath.join model_dir (model_name model_num now)) = Ok model_num.
Proof.
  unfold model_number. rewrite basename_join by apply model_name_no_slash.
  unfold model_name, split.
  change (zfill 6 (str_of_int model_num) +:+ "_" +:+ str_of_int now +:+ ".pkl")
    with (zfill 6 (str_of_int model_num) +:+ String "_" (str_of_int now +:+ ".pkl")).
  rewrite split_from_token.
  - rewrite (getitem_nat _ 0%nat (zfill 6 (str_of_int model_num))) by done.
    apply int_zfill_str.
  - apply (str_all_impl int_char).
    + by apply int_char_not.
    + by apply zfill_chars, str_of_int_chars.
Qed.

(** X1. The number of a model file is read back from the name the code
    gives it: for every directory, number and time,
    [int(basename(path).split('_')[0])] of the path built from
    [str(model_num).zfill(6) + '_' + str(now) + '.pkl'] is [model_num]. *)
Theorem model_number_of_model_name (model_dir : string) (model_num now : Z) :
  model_number (OsPath.join model_dir (model_name model_num now)) = Ok model_num.
Proof. apply model_number_model_name. Qed.

Lemma join_model_name (model_dir : string) (model_num now : Z) :
  exists sep, (sep = "" \/ sep = "/") /\
    OsPath.join model_dir (model_name model_num now) =
      model_dir +:+ sep +:+ model_name model_num now.
Proof.
  pose proof (model_name_no_slash model_num now) as Hn.
  unfold OsPath.join, OsPath.startswith.
  assert (is_prefix "/" (model_name model_num now) = false) as ->.
  { destruct (model_name model_num now) as [|c r]; [done|]. cbn [str_all] in Hn.
    apply andb_true_iff in Hn as [Hc _]. unfold is_not in Hc.
    change (is_prefix "/" (String c r)) with (if Ascii.eqb "/" c then true else false).
    by destruct (Ascii.eqb "/" c). }
  destruct (_ || _).
  - exists "". split; [by left | done].
  - exists "/". split; [by right | done].
Qed.

(** X2. [save_model] stores the model in the model directory: the path
    is the directory, a slash unless the directory is empty or ends in
    one, and the name made of the number of the previous model plus one,
    zero-filled to six digits, and the time.  Every other file is left
    alone, and the number read back from the new path is the previous
    number plus one, so that the path can be the previous path of the
    next save. *)
Theorem save_model_increments {StateDict : Type} (store : gmap string StateDict)
    (model_dir : string) (cur_model : StateDict) (prev_model_path : string)
    (now prev_num : Z) :
  model_number prev_model_path = Ok prev_num ->
  exists model_path sep,
    save_model store model_dir cur_model prev_model_path now
      = Ok (<[model_path := cur_model]> store) /\
    (sep = "" \/ sep = "/") /\
    model_path = model_dir +:+ sep +:+ model_name (prev_num + 1) now /\
    model_path = OsPath.join model_dir (model_name (prev_num + 1) now) /\
    OsPath.basename model_path = model_name (prev_num + 1) now /\
    model_number model_path = Ok (prev_num + 1).
Proof.
  intros Hprev.
  destruct (join_model_name model_dir (prev_num + 1) now) as (sep & Hsep & Hjoin).
  exists (OsPath.join model_dir (model_name (prev_num + 1) now)), sep.
  repeat split; try done.
  - unfold save_model, save_model_path. by rewrite Hprev.
  - apply basename_join, model_name_no_slash.
  - apply model_number_model_name.
Qed.

(** *** The latest models *)

Lemma list_slice_from_last {A} (l : list A) (k : Z) :
  0 <= k ->
  list_slice_from l (- k) =
    if k =? 0 then l else drop (length l - Z.to_nat k) l.
Proof.
  intros Hk. unfold list_slice_from, list_slice, slice_axis, slice_bound.
  set (n := Z.of_nat (length l)).
  replace (n <? 0) with false by (symmetry; apply Z.ltb_ge; lia).
  rewrite Z.min_id.
  destruct (Z.eqb_spec k 0) as [->|Hk0].
  - change (- 0) with 0. change (0 <? 0) with false. cbv iota.
    replace (Z.min 0 n) with 0 by lia.
    replace (Z.to_nat (Z.max 0 (n - 0))) with (length l) by lia.
    simpl. by rewrite firstn_all.
  - replace (- k <? 0) with true by (symmetry; apply Z.ltb_lt; lia).
    replace (Z.to_nat (Z.max (- k + n) 0)) with (length l - Z.to_nat k)%nat by lia.
    apply take_ge. rewrite length_drop. lia.
Qed.

Lemma get_latest_model_paths_spec (ls : string -> list string) (model_dir : string)
    (k : Z) :
  0 <= k ->
  get_latest_model_paths ls model_dir k =
    OsPath.join model_dir <$>
      (if k =? 0 then sorted (ls model_dir)
       else drop (length (ls model_dir) - Z.to_nat k) (sorted (ls model_dir))).
Proof.
  intros Hk. unfold get_latest_model_paths. rewrite list_slice_from_last by done.
  assert (length (sorted (ls model_dir)) = length (ls model_dir)) as ->; [|done].
  unfold sorted. by rewrite merge_sort_Permutation.
Qed.

(** X3. [get_latest_model_paths] with [k = 0] returns every model of the
    directory, not none; with [k >= 1] it returns the paths of the
    [min(k, n)] names that come last in ascending order. *)
Theorem get_latest_model_paths_last (ls : string -> list string) (model_dir : string)
    (k : Z) :
  0 <= k ->
  get_latest_model_paths ls model_dir k =
    OsPath.join model_dir <$>
      (if k =? 0 then sorted (ls model_dir)
       else drop (length (ls model_dir) - Z.to_nat k) (sorted (ls model_dir))).
Proof. apply get_latest_model_paths_spec. Qed.

Lemma sorted_last_greatest (l : list string) :
  l <> [] ->
  exists init m,
    sorted l = init ++ [m] /\ m ∈ l /\ forall f, f ∈ l -> String.le f m.
Proof.
  intros Hne. unfold sorted.
  pose proof (merge_sort_Permutation String.le l) as Hperm.
  pose proof (StronglySorted_merge_sort String.le l) as Hsorted.
  assert (merge_sort String.le l <> []) as Hne'.
  { intros Hnil. rewrite Hnil in Hperm. apply Permutation_nil_l in Hperm. by subst. }
  destruct (exists_last Hne') as (l0 & x & Hl). rewrite Hl in Hperm, Hsorted.
  exists l0, x. split; [done|]. split.
  - rewrite <- Hperm. apply elem_of_app. right. by apply list_elem_of_singleton.
  - intros f Hf. rewrite <- Hperm in Hf.
    apply elem_of_app in Hf as [Hf|Hf].
    + clear Hperm Hl Hne'. induction l0 as [|y l0 IH]; [by apply elem_of_nil in Hf|].
      simpl in Hsorted. apply StronglySorted_inv in Hsorted as [Hs Hall].
      apply elem_of_cons in Hf as [->|Hf].
      * rewrite Forall_forall in Hall. apply Hall.
        apply elem_of_app. right. by apply list_elem_of_singleton.
      * by apply IH.
    + apply list_elem_of_singleton in Hf as ->. done.
Qed.

Lemma get_prev_model_empty {F Classes : Type} (ls : string -> list string)
    (build_model : Classes -> string -> result (@model F))
    (model_dir : string) (classes : Classes) (c : cache) :
  ls model_dir = [] ->
  get_prev_model ls build_model model_dir classes c = (Raise IndexError, c).
Proof.
  intros Hnil. unfold get_prev_model.
  rewrite get_latest_model_paths_spec by done. cbn [Z.eqb]. by rewrite Hnil.
Qed.

Lemma get_prev_model_max_name {F Classes : Type} (ls : string -> list string)
    (build_model : Classes -> string -> result (@model F))
    (model_dir : string) (classes : Classes) (c : cache) :
  ls model_dir <> [] ->
  exists m,
    m ∈ ls model_dir /\ (forall f, f ∈ ls model_dir -> String.le f m) /\
    get_prev_model ls build_model model_dir classes c =
      match load_model build_model (OsPath.join model_dir m) classes c with
      | (Ok prev_model, c') => (Ok (prev_model, OsPath.join model_dir m), c')
      | (Raise e, c') => (Raise e, c')
      end.
Proof.
  intros Hne. unfold get_prev_model.
  rewrite get_latest_model_paths_spec by done. cbn [Z.eqb].
  destruct (sorted_last_greatest _ Hne) as (init & m & Hs & Hm & Hmax).
  exists m. repeat split; [done..|].
  assert (length (ls model_dir) = S (length init)) as Hlen.
  { rewrite <- (merge_sort_Permutation String.le (ls model_dir)).
    fold (sorted (ls model_dir)). rewrite Hs, length_app. simpl. lia. }
  rewrite Hs, Hlen.
  replace (S (length init) - Z.to_nat 1)%nat with (length init) by lia.
  rewrite drop_app_length. done.
Qed.

(** X4. On a directory that is not empty, [get_prev_model] loads the model
    whose file name is the greatest of the directory in code-point order,
    and returns its path with it. *)
Theorem get_prev_model_greatest {F Classes : Type} (ls : string -> list string)
    (build_model : Classes -> string -> result (@model F))
    (model_dir : string) (classes : Classes) (c : cache) :
  ls model_dir <> [] ->
  exists m,
    m ∈ ls model_dir /\ (forall f, f ∈ ls model_dir -> String.le f m) /\
    get_prev_model ls build_model model_dir classes c =
      match load_model build_model (OsPath.join model_dir m) classes c with
      | (Ok prev_model, c') => (Ok (prev_model, OsPath.join model_dir m), c')
      | (Raise e, c') => (Raise e, c')
      end.
Proof. apply get_prev_model_max_name. Qed.

(** *** The model cache *)

(** X5. Once [load_model] has returned a model for a path, every further
    [load_model] of that path returns the same model from the cache and
    leaves the cache as it is, whatever the file now holds and whatever
    classes are asked for. *)
Theorem load_model_cache_hit {F Classes : Type}
    (build_model build_model' : Classes -> string -> result (@model F))
    (model_path : string) (classes classes' : Classes) (c c' : cache) (m : @model F) :
  load_model build_model model_path classes c = (Ok m, c') ->
  load_model build_model' model_path classes' c' = (Ok m, c').
Proof.
  assert (forall c0, load_fresh build_model model_path classes c0 = (Ok m, c') ->
            load_model build_model' model_path classes' c' = (Ok m, c')) as Hfresh.
  { intros c0. unfold load_fresh.
    destruct (build_model classes model_path) as [m0|e]; [|done].
    intros [= -> <-]. unfold load_model. cbn [cached_model_path cached_model].
    by rewrite String.eqb_refl. }
  unfold load_model at 1.
  destruct (cached_model_path c) as [p|] eqn:Hp; [|by apply Hfresh].
  destruct (cached_model c) as [m0|] eqn:Hm; [|by apply Hfresh].
  destruct (String.eqb_spec model_path p) as [->|Hne]; [|by apply Hfresh].
  intros [= -> ->]. unfold load_model. by rewrite Hp, Hm, String.eqb_refl.
Qed.

(** X6. The cache holds one model: after a model was loaded for one path,
    loading another path goes to the file again, puts that model in the
    cache in place of the first, or, when the file cannot be loaded,
    raises and leaves the cache as it was. *)
Theorem load_model_other_path {F Classes : Type}
    (build_model build_model' : Classes -> string -> result (@model F))
    (path other : string) (classes classes' : Classes) (c c' : cache) (m : @model F) :
  load_model build_model path classes c = (Ok m, c') ->
  other <> path ->
  load_model build_model' other classes' c' =
    match build_model' classes' other with
    | Ok m' => (Ok m', mk_cache (Some m') (Some other))
    | Raise e => (Raise e, c')
    end.
Proof.
  intros Hload Hne.
  assert (cached_model_path c' = Some path /\ cached_model c' = Some m) as [Hp Hm].
  { revert Hload. unfold load_model, load_fresh.
    destruct (cached_model_path c) as [p|] eqn:Hp;
      destruct (cached_model c) as [m0|] eqn:Hm;
      try (destruct (build_model classes path); [intros [= <- <-]; done | done]).
    destruct (String.eqb_spec path p) as [->|_].
    - by intros [= <- <-].
    - destruct (build_model classes path); [intros [= <- <-]; done | done]. }
  unfold load_model. rewrite Hp, Hm.
  destruct (String.eqb_spec other path); [done|]. done.
Qed.

End ModelFilesFacts.

(** ** [file_utils.py]: finding and saving annotations *)

Section FileUtilsFacts.

Import FileUtils.

Lemma penultimate_loop_spec (seg_fnames fnames : list string)
    (pen_fname last_fname : option string) :
  penultimate_loop fnames seg_fnames pen_fname last_fname =
    match reverse (filter (fun f => seg_base_fname f ∈ seg_fnames) fnames) with
    | _ :: b :: _ => Some b
    | [_] => match last_fname with Some l => Some l | None => pen_fname end
    | [] => pen_fname
    end.
Proof.
  revert pen_fname last_fname.
  induction fnames as [|f rest IH]; intros pen_fname last_fname; [done|].
  cbn [penultimate_loop]. rewrite filter_cons.
  destruct (decide (seg_base_fname f ∈ seg_fnames)) as [Hin|Hin].
  - rewrite bool_decide_eq_true_2 by done. rewrite IH, reverse_cons.
    destruct (reverse (filter _ rest)) as [|a [|b r]]; done.
  - rewrite bool_decide_eq_false_2 by done. apply IH.
Qed.

(** X7. [penultimate_fname_with_segmentation] returns the second to last
    of the given names that have a segmentation file, in the order given,
    and [None] when fewer than two of them have one; it never returns the
    last one. *)
Theorem penultimate_fname_second_to_last (listdir : string -> result (list string))
    (isdir : string -> bool) (fnames seg_fnames : list string) (seg_dir : string) :
  segmentation_fnames listdir isdir seg_dir = Ok seg_fnames ->
  let segmented := filter (fun f => seg_base_fname f ∈ seg_fnames) fnames in
  penultimate_fname_with_segmentation listdir isdir fnames seg_dir =
    Ok (if decide (2 <= length segmented)%nat
        then segmented !! (length segmented - 2)%nat
        else None).
Proof.
  intros Hseg segmented. unfold penultimate_fname_with_segmentation.
  rewrite Hseg. cbn. f_equal. rewrite penultimate_loop_spec. fold segmented.
  assert (segmented = reverse (reverse segmented)) as Hrev
    by (by rewrite reverse_involutive).
  destruct (reverse segmented) as [|a [|b r]]; rewrite Hrev; [done..|].
  rewrite !reverse_cons, <- !app_assoc, !length_app. cbn [app length].
  destruct (decide _) as [_|Hn]; [|lia].
  rewrite lookup_app_r by lia.
  replace (length (reverse r) + (1 + 1) - 2 - length (reverse r))%nat with 0%nat by lia.
  done.
Qed.

End FileUtilsFacts.

(** ** [maybe_save_annotation_3d]: what is on the disk afterwards *)

Section SaveFacts.

Import FileUtils.

Variable image_data_shape : list Z.
Variable train_annot_dir val_annot_dir : string.

Local Abbreviation maybe_save := (fun annot_data annot_path fname =>
  maybe_save_annotation_3d image_data_shape annot_data annot_path
    fname train_annot_dir val_annot_dir).

Lemma join_nonempty (a b : string) : b <> "" -> OsPath.join a b <> "".
Proof.
  intros Hb. unfold OsPath.join.
  destruct (OsPath.startswith "/" b); [done|].
  destruct (String.eqb_spec a "") as [->|Ha]; [done|].
  destruct a as [|c a]; [done|].
  destruct (_ || _); done.
Qed.

Lemma binary_astype_byte (a : annot) : binary a -> astype_byte a = a.
Proof.
  destruct a as [sh d]. unfold binary, astype_byte. cbn [a_data a_shape].
  intros Hb. f_equal. induction Hb as [|v d Hv _ IH]; [done|].
  cbn [fmap list_fmap]. f_equal; [|exact IH].
  destruct Hv as [-> | ->]; reflexivity.
Qed.

Lemma binary_astype_bool (a : annot) : binary a -> astype_bool a = a.
Proof.
  destruct a as [sh d]. unfold binary, astype_bool. cbn [a_data a_shape].
  intros Hb. f_equal. induction Hb as [|v d Hv _ IH]; [done|].
  cbn [fmap list_fmap]. f_equal; [|exact IH].
  destruct Hv as [-> | ->]; reflexivity.
Qed.

Lemma maybe_save_create_spec (annot_data : annot) (annot_path : option string)
    (fname : string) (w : world) :
  truthy annot_path = None ->
  0 < np_sum (astype_byte annot_data) ->
  let annot_dir := get_new_annot_target_dir train_annot_dir val_annot_dir w in
  exists w',
    maybe_save annot_data annot_path fname w =
      (Ok (Some (OsPath.join annot_dir fname)), w') /\
    files w' = <[OsPath.join annot_dir fname := astype_byte annot_data]>
                 (delete (OsPath.join annot_dir (".tmp_" +:+ fname)) (files w)).
Proof.
  intros Hnone Hsum annot_dir.
  unfold maybe_save_annotation_3d. rewrite Hnone.
  destruct (Z.ltb_spec 0 (np_sum (astype_byte annot_data))); [|lia].
  unfold os_rename, to_filename, mkdir, log, emit. cbn [files journal].
  rewrite lookup_insert_eq.
  change (get_new_annot_target_dir train_annot_dir val_annot_dir _) with annot_dir.
  eexists. split; [reflexivity|]. cbn [files].
  by rewrite delete_insert_eq.
Qed.

(** X8. A new annotation with content ends up under its name in the
    directory [get_new_annot_target_dir] chose: afterwards the path holds
    the data cast to byte, the temporary file is gone (also one left
    there before), every other file is as it was, and the new path is
    returned. *)
Theorem maybe_save_create_files (annot_data : annot) (annot_path : option string)
    (fname : string) (w : world) :
  truthy annot_path = None ->
  0 < np_sum (astype_byte annot_data) ->
  let annot_dir := get_new_annot_target_dir train_annot_dir val_annot_dir w in
  exists w',
    maybe_save annot_data annot_path fname w =
      (Ok (Some (OsPath.join annot_dir fname)), w') /\
    files w' = <[OsPath.join annot_dir fname := astype_byte annot_data]>
                 (delete (OsPath.join annot_dir (".tmp_" +:+ fname)) (files w)).
Proof. apply maybe_save_create_spec. Qed.

(** X9. Saving empty data over an existing annotation that differs removes
    the file, yet returns the path it was given: that path names no file
    any more, and a further save that is given it raises [OSError]. *)
Theorem maybe_save_empty_removes (annot_data stored again : annot) (path fname : string)
    (w : world) :
  path <> "" ->
  files w !! path = Some stored ->
  astype_byte annot_data <> astype_byte (astype_bool stored) ->
  np_sum (astype_byte annot_data) = 0 ->
  exists w',
    maybe_save annot_data (Some path) fname w = (Ok (Some path), w') /\
    files w' = delete path (files w) /\
    maybe_save again (Some path) fname w' = (Raise OSError, w').
Proof.
  intros Hne Hfile Hdiff Hsum. unfold maybe_save_annotation_3d.
  rewrite truthy_Some by done. unfold load_annot at 1. rewrite Hfile.
  unfold array_equal. rewrite bool_decide_eq_false_2 by done. cbn [negb].
  rewrite Hsum. cbn [Z.eqb].
  unfold os_remove, log, emit. cbn [files journal]. rewrite Hfile.
  eexists. split; [reflexivity|]. cbn [files]. split; [done|].
  unfold load_annot. cbn [files]. by rewrite lookup_delete_eq.
Qed.

(** X10. Saving annotation data of zeros and ones, with at least one one,
    is idempotent: when a save succeeded, a second save of the same data
    with the path the first returned changes no file, adds nothing to the
    journal, and returns the same path. *)
Theorem maybe_save_twice (annot_data : annot) (annot_path ret : option string)
    (fname : string) (w w' : world) :
  binary annot_data ->
  0 < np_sum annot_data ->
  fname <> "" ->
  maybe_save annot_data annot_path fname w = (Ok ret, w') ->
  maybe_save annot_data ret fname w' = (Ok ret, w').
Proof.
  intros Hbin Hsum Hfname. unfold maybe_save_annotation_3d.
  rewrite (binary_astype_byte annot_data Hbin).
  assert (astype_byte (astype_bool annot_data) = annot_data) as Hround.
  { by rewrite (binary_astype_bool _ Hbin), (binary_astype_byte _ Hbin). }
  destruct (truthy annot_path) as [path|] eqn:Htruthy.
  - assert (annot_path = Some path) as ->.
    { destruct annot_path as [p|]; [|done]. cbn in Htruthy.
      destruct (String.eqb p ""); [done|]. by injection Htruthy as ->. }
    unfold load_annot at 1.
    destruct (files w !! path) as [stored|] eqn:Hfile; [|done].
    unfold array_equal at 1.
    destruct (decide (annot_data = astype_byte (astype_bool stored))) as [Heq|Hdiff].
    + rewrite bool_decide_eq_true_2 by done. cbn [negb].
      intros [= <- <-]. rewrite Htruthy. unfold load_annot. rewrite Hfile.
      unfold array_equal. by rewrite bool_decide_eq_true_2.
    + rewrite bool_decide_eq_false_2 by done. cbn [negb].
      destruct (Z.eqb_spec (np_sum annot_data) 0); [lia|].
      intros [= <- <-]. rewrite Htruthy.
      unfold load_annot, to_filename, log, emit. cbn [files journal].
      rewrite lookup_insert_eq, Hround.
      unfold array_equal. by rewrite bool_decide_eq_true_2.
  - destruct (Z.ltb_spec 0 (np_sum annot_data)); [|lia].
    unfold os_rename, to_filename, mkdir, log, emit. cbn [files journal].
    rewrite lookup_insert_eq.
    intros [= <- <-]. rewrite truthy_Some by (by apply join_nonempty).
    unfold load_annot. cbn [files]. rewrite lookup_insert_eq, Hround.
    unfold array_equal. by rewrite bool_decide_eq_true_2.
Qed.

(** X11. A new annotation goes to the validation directory exactly when
    the training directory holds at least one annotation and at least five
    times as many as the validation directory; otherwise it goes to the
    training directory. *)
Theorem get_new_annot_target_dir_rule (w : world) :
  get_new_annot_target_dir train_annot_dir val_annot_dir w =
    if (0 <? num_annots train_annot_dir w) &&
       (5 * num_annots val_annot_dir w <=? num_annots train_annot_dir w)
    then val_annot_dir else train_annot_dir.
Proof.
  unfold get_new_annot_target_dir. fold (num_annots train_annot_dir w).
  fold (num_annots val_annot_dir w).
  assert (0 <= num_annots train_annot_dir w) by (unfold num_annots; lia).
  assert (0 <= num_annots val_annot_dir w) by (unfold num_annots; lia).
  repeat match goal with
         | |- context [?a =? ?b] => destruct (Z.eqb_spec a b)
         | |- context [?a <? ?b] => destruct (Z.ltb_spec a b)
         | |- context [?a <=? ?b] => destruct (Z.leb_spec a b)
         end; cbn [andb]; try done; lia.
Qed.

Lemma target_dir_cases (w : world) :
  get_new_annot_target_dir train_annot_dir val_annot_dir w = val_annot_dir \/
  get_new_annot_target_dir train_annot_dir val_annot_dir w = train_annot_dir.
Proof.
  unfold get_new_annot_target_dir.
  repeat match goal with |- context [if ?b then _ else _] => destruct b end; tauto.
Qed.

(** X12. An image that had no annotation is found by [get_annot_path]
    after its first annotation with content was saved under the name
    [get_annot_path] looks for, and at the path the save returned. *)
Theorem get_annot_path_after_create (annot_data : annot) (fname : string) (w : world) :
  get_annot_path fname train_annot_dir val_annot_dir w = None ->
  0 < np_sum (astype_byte annot_data) ->
  exists path w',
    maybe_save annot_data None (annot_fname fname) w = (Ok (Some path), w') /\
    get_annot_path fname train_annot_dir val_annot_dir w' = Some path.
Proof.
  intros Hnone Hsum.
  destruct (maybe_save_create_spec annot_data None (annot_fname fname) w eq_refl Hsum)
    as (w' & Hsave & Hfiles).
  eexists _, w'. split; [exact Hsave|].
  revert Hnone. unfold get_annot_path, isfile. rewrite Hfiles.
  destruct (decide (is_Some (files w !! OsPath.join train_annot_dir (annot_fname fname))))
    as [|Htrain]; [by rewrite bool_decide_eq_true_2|].
  rewrite (bool_decide_eq_false_2 _ Htrain).
  destruct (decide (is_Some (files w !! OsPath.join val_annot_dir (annot_fname fname))))
    as [|Hval]; [by rewrite bool_decide_eq_true_2|].
  rewrite (bool_decide_eq_false_2 _ Hval). intros _.
  destruct (target_dir_cases w) as [-> | ->].
  - destruct (decide (OsPath.join train_annot_dir (annot_fname fname) =
                      OsPath.join val_annot_dir (annot_fname fname))) as [Heq|Hneq].
    + rewrite Heq, lookup_insert_eq. by rewrite bool_decide_eq_true_2.
    + rewrite lookup_insert_ne by done.
      rewrite bool_decide_eq_false_2.
      * rewrite lookup_insert_eq. by rewrite bool_decide_eq_true_2.
      * intros [a Ha]. apply lookup_delete_Some in Ha as [_ Ha].
        apply Htrain. by exists a.
  - rewrite lookup_insert_eq. by rewrite bool_decide_eq_true_2.
Qed.

End SaveFacts.

(** ** The change-watch loop, tick after tick *)

Section WatchFacts.

Import RootPainter.

Context {Img Seg Props : Type}.
Variable decode_seg : string -> Img -> result (Seg * Props).

Local Abbreviation painter := (@painter Img Seg Props).
Local Abbreviation check := (check decode_seg).

Lemma show_messages_lookup (messages : list string) (p : painter) (w : fs) (q : string) :
  lookup_path q (show_messages messages p w).2 = lookup_path q w \/
  lookup_path q (show_messages messages p w).2 = None.
Proof.
  revert p w. induction messages as [|m rest IH]; intros p w; [by left|].
  cbn [show_messages].
  destruct (remove _ w) as [w'|e] eqn:Hrm; [|apply IH].
  destruct (IH (if has_info_label p then qt (SetInfoText m) p else p) w') as [Hq|Hq];
    [|by right].
  rewrite Hq, (remove_lookup _ q _ _ Hrm).
  destruct (decide _); [by right | by left].
Qed.

Lemma refresh_viewers_frame (vs : list bool) (i : nat) (p : painter) :
  seg_path (refresh_viewers i vs p) = seg_path p /\
  img_data (refresh_viewers i vs p) = img_data p.
Proof.
  revert i p. induction vs as [|visible vs IH]; intros i p; [done|].
  cbn [refresh_viewers]. destruct (IH (S i)
    (if visible
     then qt (UpdateSegSlice i) (qt (SingleShot 500 (CbUpdateCursor i)) (qt (UpdateCursor i) p))
     else qt (SingleShot 500 (CbUpdateCursor i)) (qt (UpdateCursor i) p))) as [-> ->].
  by destruct visible.
Qed.

Lemma try_reload_frame (path : string) (p : painter) (w : fs) :
  seg_path (try_reload decode_seg path p w).1 = seg_path p /\
  img_data (try_reload decode_seg path p w).1 = img_data p.
Proof.
  unfold try_reload. destruct (getmtime path w); [|done].
  destruct (match seg_mtime p with None => true | Some t => t <? a end); [|done].
  destruct (load_seg _ _ _ _) as [[seg props]|e]; [|done].
  cbn [fst seg_path img_data qt set_seg_mtime].
  set (p1 := set_view_state ANNOTATING _).
  by destruct (refresh_viewers_frame (viewers p1) 0 p1) as [-> ->].
Qed.

(** The segmentation state after a tick, from the file found at the
    segmentation path once the messages are dealt with. *)
Lemma check_seg_state (p p' : painter) (w w' : fs) :
  check p w = Ok (p', w') ->
  seg_path p' = seg_path p /\ img_data p' = img_data p /\
  seg_state p' =
    match truthy (seg_path p) with
    | Some path =>
        match lookup_path path w' with
        | Some e =>
            if match seg_mtime p with
               | None => true
               | Some t => t <? f_mtime (e_file e)
               end
            then match decode_seg (f_content (e_file e)) (img_data p) with
                 | Ok (seg, props) =>
                     (ANNOTATING, Some (f_mtime (e_file e)), Some seg, Some props)
                 | Raise _ => seg_state p
                 end
            else seg_state p
        | None => seg_state p
        end
    | None => seg_state p
    end.
Proof.
  unfold RootPainter.check.
  destruct (listdir (message_dir p) w) as [messages|e]; [|done].
  cbn [mbind result_bind].
  destruct (show_messages_frame messages p w)
    as [(Hseg & _ & _ & Hpath & Himg & _ & _ & _) _].
  destruct (show_messages messages p w) as [p1 w1]. cbn [fst snd] in *.
  intros [= <- <-]. cbn [seg_path img_data qt].
  change (seg_state (qt ?ev ?x)) with (seg_state x).
  rewrite Hpath.
  assert (seg_mtime p1 = seg_mtime p) as Hmt
    by (unfold seg_state in Hseg; congruence).
  destruct (truthy (seg_path p)) as [path|]; [|done].
  unfold isfile.
  destruct (lookup_path path w1) as [e|] eqn:He; [|done].
  destruct (try_reload_frame path p1 w1) as [Hrp Hri].
  pose proof (try_reload_spec decode_seg path p1 w1 (f_mtime (e_file e))) as Hspec.
  unfold getmtime in Hspec. rewrite He in Hspec. specialize (Hspec eq_refl).
  cbn zeta in Hspec. unfold RootPainter.load_seg in Hspec. rewrite He in Hspec.
  rewrite Hmt, Himg in Hspec.
  destruct (try_reload decode_seg path p1 w1) as [p2 r]. cbn [fst] in *.
  destruct (match seg_mtime p with None => true | Some t => t <? f_mtime (e_file e) end).
  - destruct (decode_seg _ _) as [[seg props]|err].
    + destruct Hspec as [-> Hst]. by rewrite Hrp, Hri.
    + destruct Hspec as [-> Hst]. cbn [seg_path img_data qt].
      change (seg_state (qt ?ev ?x)) with (seg_state x).
      by rewrite Hrp, Hri, Hst.
  - destruct Hspec as [-> ->]. done.
Qed.

(** X13. The watch loop settles: the tick that follows a tick, on the
    files as the first one left them, never changes the loaded
    segmentation, the recorded time or the view state.  A file is loaded
    once per modification, and a file that cannot be read is retried
    without effect on that state. *)
Theorem check_second_tick_keeps_segmentation (p p1 p2 : painter) (w w1 w2 : fs) :
  check p w = Ok (p1, w1) ->
  check p1 w1 = Ok (p2, w2) ->
  seg_state p2 = seg_state p1.
Proof.
  intros H1 H2.
  assert (exists messages, listdir (message_dir p1) w1 = Ok messages /\
            w2 = (show_messages messages p1 w1).2) as (messages & _ & Hw2).
  { revert H2. unfold RootPainter.check.
    destruct (listdir (message_dir p1) w1) as [messages|e]; [|done].
    cbn [mbind result_bind]. exists messages. split; [done|].
    destruct (show_messages messages p1 w1). by injection H2 as _ <-. }
  apply check_seg_state in H1 as (Hpath & Himg & Hst1).
  apply check_seg_state in H2 as (_ & _ & Hst2).
  rewrite Hst2, Hpath, Himg. clear Hst2.
  destruct (truthy (seg_path p)) as [path|]; [|done].
  destruct (show_messages_lookup messages p1 w1 path) as [Hsame|Hgone];
    rewrite <- Hw2 in *; [rewrite Hsame | by rewrite Hgone].
  destruct (lookup_path path w1) as [e|]; [|done].
  assert (seg_mtime p1 = (seg_state p1).1.1.2) as -> by done.
  rewrite Hst1.
  destruct (seg_mtime p) as [t|] eqn:Hmt.
  - destruct (Z.ltb_spec t (f_mtime (e_file e))).
    + destruct (decode_seg _ _) as [[seg props]|err] eqn:Hdec.
      * cbn [fst snd]. by rewrite Z.ltb_irrefl.
      * unfold seg_state at 1. cbn [fst snd]. rewrite Hmt.
        destruct (Z.ltb_spec t (f_mtime (e_file e))); [|lia]. done.
    + unfold seg_state at 1. cbn [fst snd]. rewrite Hmt.
      destruct (Z.ltb_spec t (f_mtime (e_file e))); [lia|]. done.
  - destruct (decode_seg _ _) as [[seg props]|err] eqn:Hdec.
    + cbn [fst snd]. by rewrite Z.ltb_irrefl.
    + unfold seg_state at 1. cbn [fst snd]. by rewrite Hmt.
Qed.

(** X24. After [update_segmentation] has recorded the time of the
    segmentation file, a tick on the same files leaves the loaded
    segmentation, the recorded time and the view state as they are: the
    file that [update_file] has just loaded is not loaded a second time. *)
Theorem check_after_update_segmentation (p p1 p2 : painter) (w w2 : fs) :
  update_segmentation p w = Ok p1 ->
  check p1 w = Ok (p2, w2) ->
  seg_state p2 = seg_state p1.
Proof.
  intros Hupd Hcheck.
  assert (exists messages, w2 = (show_messages messages p1 w).2) as (messages & Hw2).
  { revert Hcheck. unfold RootPainter.check.
    destruct (listdir (message_dir p1) w) as [messages|e]; [|done].
    cbn [mbind result_bind]. exists messages.
    destruct (show_messages messages p1 w). by injection Hcheck as _ <-. }
  apply check_seg_state in Hcheck as (_ & _ & ->).
  assert (seg_path p1 = seg_path p /\
          seg_mtime p1 = match truthy (seg_path p) with
                         | Some path =>
                             match lookup_path path w with
                             | Some e => Some (f_mtime (e_file e))
                             | None => None
                             end
                         | None => None
                         end) as [Hpath Hmt].
  { revert Hupd. unfold update_segmentation, isfile, getmtime.
    destruct (truthy (seg_path p)) as [path|]; [|by intros [= <-]].
    destruct (lookup_path path w) as [e|]; by intros [= <-]. }
  rewrite Hpath.
  destruct (truthy (seg_path p)) as [path|]; [|done].
  destruct (show_messages_lookup messages p1 w path) as [Hsame|Hgone];
    rewrite <- Hw2 in *; [rewrite Hsame | by rewrite Hgone].
  destruct (lookup_path path w) as [e|]; [|done].
  by rewrite Hmt, Z.ltb_irrefl.
Qed.

Lemma info_text_qt (ev : qt_event) (p : painter) :
  info_text (gui (qt ev p)) =
    match ev with SetInfoText t => Some t | _ => info_text (gui p) end.
Proof. cbn [gui qt]. unfold info_text. by rewrite foldl_app. Qed.

Lemma show_messages_info_text (messages : list string) (p : painter) (w : fs) :
  has_info_label p = true ->
  info_text (gui (show_messages messages p w).1) =
    match last messages with Some m => Some m | None => info_text (gui p) end.
Proof.
  revert p w. induction messages as [|m rest IH]; intros p w Hlabel; [done|].
  cbn [show_messages]. rewrite Hlabel.
  assert (match last (m :: rest) with Some m' => Some m' | None => info_text (gui p) end =
          match last rest with Some m' => Some m' | None => Some m end) as ->.
  { rewrite last_cons. by destruct (last rest). }
  destruct (remove _ w) as [w'|e].
  - rewrite IH by done. by rewrite info_text_qt.
  - rewrite IH by done. by rewrite !info_text_qt.
Qed.

Lemma refresh_viewers_info_text (vs : list bool) (i : nat) (p : painter) :
  info_text (gui (refresh_viewers i vs p)) = info_text (gui p).
Proof.
  revert i p. induction vs as [|visible vs IH]; intros i p; [done|].
  cbn [refresh_viewers]. rewrite IH. destruct visible; by rewrite !info_text_qt.
Qed.

Lemma try_reload_info_text (path : string) (p : painter) (w : fs) :
  info_text (gui (try_reload decode_seg path p w).1) = info_text (gui p).
Proof.
  unfold try_reload. destruct (getmtime path w); [|done].
  destruct (match seg_mtime p with None => true | Some t => t <? a end); [|done].
  assert (forall m, info_text (gui (RootPainter.log m p)) = info_text (gui p)) as Hlog.
  { intros m. unfold RootPainter.log. by rewrite info_text_qt. }
  destruct (load_seg _ _ _ _) as [[seg props]|e]; [|apply Hlog].
  cbn [fst]. rewrite !info_text_qt.
  change (gui (set_seg_mtime ?t ?x)) with (gui x).
  rewrite refresh_viewers_info_text.
  change (gui (set_view_state ?t ?x)) with (gui x). rewrite info_text_qt.
  change (gui (set_seg ?a ?b ?x)) with (gui x). apply Hlog.
Qed.

(** X14. Of the messages a tick finds, the info label shows the last
    listed when the tick ends: every message text is set and at once
    overwritten by the next, and nothing the tick does afterwards touches
    the label. *)
Theorem check_label_shows_last_message (p : painter) (w : fs)
    (messages : list string) (m : string) :
  has_info_label p = true ->
  listdir (message_dir p) w = Ok messages ->
  last messages = Some m ->
  exists p' w', check p w = Ok (p', w') /\ info_text (gui p') = Some m.
Proof.
  intros Hlabel Hlist Hlast. unfold RootPainter.check. rewrite Hlist.
  cbn [mbind result_bind].
  pose proof (show_messages_info_text messages p w Hlabel) as Hinfo.
  rewrite Hlast in Hinfo.
  destruct (show_messages messages p w) as [p1 w1]. cbn [fst] in Hinfo.
  eexists _, _. split; [reflexivity|]. rewrite info_text_qt.
  destruct (truthy (seg_path p1)) as [path|]; [|done].
  destruct (isfile path w1); [|done].
  pose proof (try_reload_info_text path p1 w1) as Hr.
  destruct (try_reload decode_seg path p1 w1) as [p2 [[]|e]]; cbn [fst] in Hr.
  - by rewrite Hr.
  - by rewrite info_text_qt, Hr.
Qed.

(** X15. The log lines are written in the order of the calls of [log],
    after the lines queued before, none is lost or written twice, and
    [log_debounced] leaves the queue empty. *)
Theorem log_debounced_writes_in_order (p : painter) (messages log_file : list string) :
  let p' := foldl (fun p message => log message p) p messages in
  lines_to_log (log_debounced p' log_file).1 = [] /\
  (log_debounced p' log_file).2 = log_file ++ lines_to_log p ++ messages.
Proof.
  intros p'.
  assert (lines_to_log p' = lines_to_log p ++ messages) as Hq.
  { subst p'. revert p. induction messages as [|m rest IH]; intros p.
    - by rewrite app_nil_r.
    - cbn [foldl]. rewrite IH. cbn [lines_to_log log qt]. by rewrite <- app_assoc. }
  assert (forall lines file, write_lines lines file = ([], file ++ lines)) as Hw.
  { induction lines as [|l lines IH]; intros file.
    - by rewrite app_nil_r.
    - cbn [write_lines]. rewrite IH. by rewrite <- app_assoc. }
  unfold log_debounced. rewrite Hw, Hq. done.
Qed.

End WatchFacts.

(** ** [update_file]: the bounded file of an image *)

Section BoundedNames.

Import RootPainter.

Lemma split_from_app_sep (sep : ascii) (cur a b : string) :
  split_from sep cur (a +:+ String sep b) = split_from sep cur a ++ split_from sep "" b.
Proof.
  revert cur. induction a as [|c a IH]; intros cur.
  - change ("" +:+ String sep b) with (String sep b). cbn [split_from].
    by rewrite Ascii.eqb_refl.
  - rewrite string_app_cons. cbn [split_from].
    destruct (Ascii.eqb c sep); by rewrite IH.
Qed.

Lemma list_slice_drop_tail {A} (init tail : list A) :
  tail <> [] ->
  list_slice (init ++ tail) 0 (- Z.of_nat (length tail)) = init.
Proof.
  intros Hne. unfold list_slice, slice_axis, slice_bound. rewrite length_app.
  assert (0 < length tail)%nat by (destruct tail; [done | simpl; lia]).
  destruct (Z.ltb_spec 0 0); [lia|].
  destruct (Z.ltb_spec (- Z.of_nat (length tail)) 0); [|lia].
  replace (Z.min 0 _) with 0 by lia. cbn [Z.to_nat drop].
  replace (Z.to_nat _) with (length init) by lia.
  change (Z.to_nat 0) with 0%nat. rewrite drop_0.
  by rewrite take_app_length.
Qed.

Lemma original_name_of_parts (stem : string) (tokens : list string) :
  length tokens = 16%nat ->
  Forall (fun t => str_all (is_not "_") t = true) tokens ->
  original_name (stem +:+ "_" +:+ str_join "_" tokens) = stem +:+ ".nii.gz".
Proof.
  intros Hlen Hall. unfold original_name, split.
  assert (tokens <> []) as Hne by (by destruct tokens).
  change (stem +:+ "_" +:+ str_join "_" tokens)
    with (stem +:+ String "_" (str_join "_" tokens)).
  rewrite split_from_app_sep.
  fold (split "_" stem). fold (split "_" (str_join "_" tokens)).
  rewrite split_join by done.
  change (-16) with (- Z.of_nat 16). rewrite <- Hlen.
  rewrite list_slice_drop_tail by done.
  by rewrite join_split.
Qed.

Lemma is_prefix_app (p s : string) : is_prefix p (p +:+ s) = true.
Proof.
  induction p as [|c p IH]; [done|].
  rewrite string_app_cons. cbn [is_prefix]. by rewrite Ascii.eqb_refl.
Qed.

Lemma endswith_app (s suffix : string) : endswith suffix (s +:+ suffix) = true.
Proof. unfold endswith. rewrite string_rev_app. apply is_prefix_app. Qed.

(** X16. A bounded file named by the image name without its [.nii.gz],
    an underscore and sixteen fields joined by underscores, none of which
    holds an underscore, is found for the image: [update_file] picks a
    bounded file that stands for this image, the first such in the
    listing.  Underscores in the image name itself do no harm. *)
Theorem find_bounded_fname_finds (bounded_fnames : list string) (stem : string)
    (tokens : list string) :
  length tokens = 16%nat ->
  Forall (fun t => str_all (is_not "_") t = true) tokens ->
  contains_sub ".nii.gz" (stem +:+ "_" +:+ str_join "_" tokens) = true ->
  (stem +:+ "_" +:+ str_join "_" tokens) ∈ bounded_fnames ->
  exists f,
    find_bounded_fname bounded_fnames (stem +:+ ".nii.gz") = Some f /\
    f ∈ bounded_fnames /\
    original_name f = stem +:+ ".nii.gz".
Proof.
  intros Hlen Hall Hsub Hin. unfold find_bounded_fname.
  set (name := stem +:+ "_" +:+ str_join "_" tokens) in *.
  destruct (List.find _ _) as [f|] eqn:Hfind.
  - exists f. split; [done|]. apply find_some in Hfind as [Hf Heq].
    apply filter_In in Hf as [Hf _]. apply list_elem_of_In in Hf.
    split; [done|]. by apply String.eqb_eq.
  - assert (In name (List.filter (contains_sub ".nii.gz") bounded_fnames)) as Hname.
    { apply filter_In. split; [by apply list_elem_of_In | done]. }
    pose proof (find_none _ _ Hfind name Hname) as Hno. cbv beta in Hno.
    subst name. rewrite (original_name_of_parts stem tokens Hlen Hall) in Hno.
    by rewrite String.eqb_refl in Hno.
Qed.

(** X17. [update_file] compares the image name with a name that always
    ends in [.nii.gz]: for an image whose name does not end so, an
    [.nrrd] image say, no bounded file is ever found. *)
Theorem find_bounded_fname_needs_nii_gz (bounded_fnames : list string) (fname : string) :
  endswith ".nii.gz" fname = false ->
  find_bounded_fname bounded_fnames fname = None.
Proof.
  intros Hend. unfold find_bounded_fname.
  destruct (List.find _ _) as [f|] eqn:Hfind; [|done].
  apply find_some in Hfind as [_ Heq]. apply String.eqb_eq in Heq.
  unfold original_name in Heq. by rewrite <- Heq, endswith_app in Hend.
Qed.

End BoundedNames.

(** ** [nav.py]: moving through the images *)

Section NavFacts.

Import Nav.

Lemma list_index_lookup `{EqDecision A} (l : list A) (x : A) (i : Z) :
  list_index l x = Ok i ->
  0 <= i < Z.of_nat (length l) /\ l !! Z.to_nat i = Some x.
Proof.
  revert i. induction l as [|y l IH]; intros i; [done|].
  cbn [list_index]. destruct (decide (y = x)) as [->|Hne].
  - intros [= <-]. split; [simpl; lia | done].
  - destruct (list_index l x) as [j|e]; [|done].
    cbn. intros [= <-]. destruct (IH j eq_refl) as [Hj Hl].
    split; [simpl; lia|]. replace (Z.to_nat (j + 1)) with (S (Z.to_nat j)) by lia.
    done.
Qed.

Lemma list_index_NoDup `{EqDecision A} (l : list A) (x : A) (i : nat) :
  NoDup l -> l !! i = Some x -> list_index l x = Ok (Z.of_nat i).
Proof.
  revert i. induction l as [|y l IH]; intros i Hnd Hl; [done|].
  apply NoDup_cons in Hnd as [Hy Hnd]. cbn [list_index].
  destruct i as [|i].
  - injection Hl as ->. by rewrite decide_True.
  - cbn in Hl. rewrite decide_False.
    + rewrite (IH i) by done. cbn. f_equal. lia.
    + intros ->. apply Hy. by eapply list_elem_of_lookup_2.
Qed.

Lemma list_index_not_in `{EqDecision A} (l : list A) (x : A) :
  x ∉ l -> list_index l x = Raise ValueError.
Proof.
  induction l as [|y l IH]; intros Hx; [done|].
  apply not_elem_of_cons in Hx as [Hne Hx]. cbn [list_index].
  rewrite decide_False by done. by rewrite IH.
Qed.

Lemma getitem_in_range {A} (l : list A) (i : nat) (a : A) :
  l !! i = Some a -> getitem l (Z.of_nat i) = Ok a.
Proof.
  intros Hl. unfold getitem. pose proof (lookup_lt_Some _ _ _ Hl).
  destruct (Z.ltb_spec (Z.of_nat i) 0); [lia|].
  destruct (Z.leb_spec 0 (Z.of_nat i)); [|lia].
  destruct (Z.ltb_spec (Z.of_nat i) (Z.of_nat (length l))); [|lia].
  cbn [andb]. by rewrite Nat2Z.id, Hl.
Qed.

(** What both buttons do once the index of the image to show is known. *)
Lemma move_to (n : nav) (j : nat) (path : string) :
  NoDup (get_paths n) ->
  get_paths n !! j = Some path ->
  (path' ← getitem (get_paths n) (Z.of_nat j);
   update_nav_label (mk_nav (all_fnames n) (dataset_folder n) path' (nav_label n))) =
  Ok (mk_nav (all_fnames n) (dataset_folder n) path
        (str_of_int (Z.of_nat j + 1) +:+ " / " +:+
         str_of_int (Z.of_nat (length (get_paths n))))).
Proof.
  intros Hnd Hj. rewrite (getitem_in_range _ _ _ Hj). cbn [mbind result_bind].
  unfold update_nav_label.
  change (get_paths (mk_nav (all_fnames n) (dataset_folder n) path (nav_label n)))
    with (get_paths n).
  cbn [image_path all_fnames dataset_folder].
  by rewrite (list_index_NoDup _ _ j Hnd Hj).
Qed.

(** X18. With no path listed twice, the next-image button moves from
    position [i] to position [i + 1] and from the last image back to the
    first; the label then reads the new position, counted from one, and
    the number of images. *)
Theorem update_to_next_image_wraps (n : nav) (i : Z) :
  NoDup (get_paths n) ->
  position n = Ok i ->
  let len := Z.of_nat (length (get_paths n)) in
  let j := if len <=? i + 1 then 0 else i + 1 in
  exists n',
    update_to_next_image n = Ok n' /\
    position n' = Ok j /\
    all_fnames n' = all_fnames n /\ dataset_folder n' = dataset_folder n /\
    nav_label n' = str_of_int (j + 1) +:+ " / " +:+ str_of_int len.
Proof.
  intros Hnd Hpos len j. unfold position in Hpos.
  destruct (list_index_lookup _ _ _ Hpos) as [Hi _].
  assert (0 <= j < len) as Hj by (subst j; destruct (Z.leb_spec len (i + 1)); lia).
  destruct (lookup_lt_is_Some_2 (get_paths n) (Z.to_nat j)) as [path Hpath]; [lia|].
  unfold update_to_next_image. rewrite Hpos. cbn [mbind result_bind].
  fold len. fold j. rewrite <- (Z2Nat.id j) by lia.
  rewrite (move_to n _ path Hnd Hpath). eexists. split; [reflexivity|].
  unfold position. cbn [image_path all_fnames dataset_folder nav_label].
  change (get_paths (mk_nav _ _ _ _)) with (get_paths n).
  by rewrite (list_index_NoDup _ _ _ Hnd Hpath).
Qed.

(** X19. With no path listed twice, the previous-image button moves from
    position [i] to position [i - 1], and stays on the first image when
    it is there: unlike the next-image button it does not wrap around. *)
Theorem show_prev_image_clamps (n : nav) (i : Z) :
  NoDup (get_paths n) ->
  position n = Ok i ->
  exists n',
    show_prev_image n = Ok n' /\
    position n' = Ok (Z.max 0 (i - 1)) /\
    all_fnames n' = all_fnames n /\ dataset_folder n' = dataset_folder n /\
    nav_label n' = str_of_int (Z.max 0 (i - 1) + 1) +:+ " / " +:+
                   str_of_int (Z.of_nat (length (get_paths n))).
Proof.
  intros Hnd Hpos. unfold position in Hpos.
  destruct (list_index_lookup _ _ _ Hpos) as [Hi _].
  assert ((if i - 1 <=? 0 then 0 else i - 1) = Z.max 0 (i - 1)) as Hj
    by (destruct (Z.leb_spec (i - 1) 0); lia).
  destruct (lookup_lt_is_Some_2 (get_paths n) (Z.to_nat (Z.max 0 (i - 1))))
    as [path Hpath]; [lia|].
  unfold show_prev_image. rewrite Hpos. cbn [mbind result_bind].
  rewrite Hj. rewrite <- (Z2Nat.id (Z.max 0 (i - 1))) by lia.
  rewrite (move_to n _ path Hnd Hpath). eexists. split; [reflexivity|].
  unfold position. cbn [image_path all_fnames dataset_folder nav_label].
  change (get_paths (mk_nav _ _ _ _)) with (get_paths n).
  by rewrite (list_index_NoDup _ _ _ Hnd Hpath).
Qed.

(** X20. When the current image is not among the paths of the project,
    as in a project without images, both buttons and the label update
    raise [ValueError]. *)
Theorem nav_off_list_raises (n : nav) :
  image_path n ∉ get_paths n ->
  update_to_next_image n = Raise ValueError /\
  show_prev_image n = Raise ValueError /\
  update_nav_label n = Raise ValueError.
Proof.
  intros Hnot. unfold update_to_next_image, show_prev_image, update_nav_label.
  by rewrite (list_index_not_in _ _ Hnot).
Qed.

End NavFacts.

(** ** [im_utils.is_image] *)

Section ImageNames.

Import PainterImUtils.

Lemma lower_char_not_upper (c : ascii) : is_upper (lower_char c) = false.
Proof. destruct c as [[] [] [] [] [] [] [] []]; reflexivity. Qed.

Lemma lower_not_upper (s : string) :
  str_all (fun c => negb (is_upper c)) (lower s) = true.
Proof.
  induction s as [|c s IH]; [done|].
  cbn [lower str_all]. by rewrite lower_char_not_upper, IH.
Qed.

Lemma endswith_upper (c : ascii) (suffix s : string) :
  is_upper c = true ->
  str_all (fun c => negb (is_upper c)) s = true ->
  endswith (suffix +:+ String c "") s = false.
Proof.
  intros Hc Hs. unfold endswith. rewrite string_rev_app.
  change (String.rev (String c "")) with (String c "").
  rewrite string_app_cons. rewrite <- str_all_rev in Hs.
  destruct (String.rev s) as [|d r]; [done|].
  cbn [str_all] in Hs. apply andb_true_iff in Hs as [Hd _].
  cbn [is_prefix]. destruct (Ascii.eqb_spec c d) as [->|_]; [|done].
  by rewrite Hc in Hd.
Qed.

(** X21. [is_image] looks at the name in lower case, so the upper-case
    endings of its list never match: a name is an image exactly when, in
    lower case, it ends in one of [.npy], [gz], [nrrd], [.dicom], [.dcm]
    and [.sr]. *)
Theorem is_image_lower_case_endings (fname : string) :
  is_image fname =
    existsb (fun ext => endswith ext (lower fname))
            [".npy"; "gz"; "nrrd"; ".dicom"; ".dcm"; ".sr"].
Proof.
  unfold is_image, extensions. cbn [existsb].
  pose proof (lower_not_upper fname) as Hlow.
  change (endswith ".DCM" (lower fname))
    with (endswith (".DC" +:+ "M") (lower fname)).
  change (endswith ".DICOM" (lower fname))
    with (endswith (".DICO" +:+ "M") (lower fname)).
  change (endswith ".SR" (lower fname))
    with (endswith (".S" +:+ "R") (lower fname)).
  rewrite (endswith_upper "M" ".DC" _ eq_refl Hlow).
  rewrite (endswith_upper "M" ".DICO" _ eq_refl Hlow).
  rewrite (endswith_upper "R" ".S" _ eq_refl Hlow).
  by rewrite !orb_false_r, !orb_false_l.
Qed.

End ImageNames.

(** ** [unet3d.py]: the output extent of the network *)

Section UNetExtent.

Import UNet3D.

Lemma positive_Some (n : Z) : 0 < n -> positive n = Some n.
Proof. intros Hn. unfold positive. by destruct (Z.ltb_spec 0 n); [|lia]. Qed.

Lemma conv3d_valid (n : Z) : 2 < n -> conv3d 3 0 n = Some (n - 2).
Proof.
  intros Hn. unfold conv3d. rewrite positive_Some by lia. f_equal. lia.
Qed.

Lemma conv3d_same (n : Z) : 0 < n -> conv3d 3 1 n = Some n.
Proof.
  intros Hn. unfold conv3d. rewrite positive_Some by lia. f_equal. lia.
Qed.

Lemma conv3d_pointwise (n : Z) : 0 < n -> conv3d 1 0 n = Some n.
Proof.
  intros Hn. unfold conv3d. rewrite positive_Some by lia. f_equal. lia.
Qed.

Lemma add_extent_same (n : Z) : add_extent n n = Some n.
Proof. unfold add_extent. by rewrite Z.eqb_refl. Qed.

Lemma crop_extent_inside (n c : Z) : 0 <= c <= n -> crop_extent n c = c.
Proof.
  intros Hc. unfold crop_extent.
  rewrite slice_axis_inside; [done | | lia |].
  - apply Z.div_pos; lia.
  - pose proof (Z.mul_div_le (n - c) 2). lia.
Qed.

Lemma down_block_halves (x : Z) : 2 <= x -> down_block x = Some (x / 2).
Proof.
  intros Hx. unfold down_block, max_pool3d.
  assert (0 < x / 2) by (apply Z.div_str_pos; lia).
  rewrite positive_Some by done. cbn [mbind option_bind].
  rewrite conv3d_same by done. cbn [mbind option_bind].
  rewrite conv3d_same by done. cbn [mbind option_bind].
  rewrite conv3d_pointwise by done. cbn [mbind option_bind].
  apply add_extent_same.
Qed.

Lemma up_block_doubles (x down_out : Z) :
  2 <= x -> 2 * x - 2 <= down_out -> up_block x down_out = Some (2 * x - 2).
Proof.
  intros Hx Hd. unfold up_block, conv_transpose3d.
  replace ((x - 1) * 2 - 2 * 1 + 2) with (2 * x - 2) by lia.
  rewrite positive_Some by lia. cbn [mbind option_bind].
  rewrite crop_extent_inside by lia. rewrite add_extent_same.
  cbn [mbind option_bind].
  rewrite conv3d_same by lia. cbn [mbind option_bind].
  apply conv3d_same. lia.
Qed.

Lemma forward_too_small (k : nat) : (k < 36)%nat -> forward (Z.of_nat k) = None.
Proof.
  intros Hk.
  do 36 (destruct k as [|k]; [vm_compute; reflexivity|]). lia.
Qed.

(** X22. The network maps a spatial axis of extent [n] to one of extent
    [16 * ((n - 4) / 16) - 30] when [n] is at least 36, and refuses every
    smaller input: 52 gives 18 and 228 gives 194, and an input that is
    not 4 more than a multiple of 16 loses the remainder. *)
Theorem forward_extent (n : Z) :
  forward n = if 36 <=? n then Some (16 * ((n - 4) / 16) - 30) else None.
Proof.
  destruct (Z.leb_spec 36 n) as [Hn|Hn].
  - unfold forward.
    rewrite conv3d_valid by lia. cbn [mbind option_bind].
    rewrite conv3d_valid by lia. cbn [mbind option_bind].
    replace (n - 2 - 2) with (n - 4) by lia.
    set (a := n - 4). assert (32 <= a) as Ha by (subst a; lia).
    set (c1 := a / 2). set (c2 := c1 / 2). set (c3 := c2 / 2). set (c4 := c3 / 2).
    assert (2 * c1 <= a < 2 * c1 + 2) by (subst c1; Z.to_euclidean_division_equations; lia).
    assert (2 * c2 <= c1 < 2 * c2 + 2) by (subst c2; Z.to_euclidean_division_equations; lia).
    assert (2 * c3 <= c2 < 2 * c3 + 2) by (subst c3; Z.to_euclidean_division_equations; lia).
    assert (2 * c4 <= c3 < 2 * c4 + 2) by (subst c4; Z.to_euclidean_division_equations; lia).
    assert (c4 = a / 16) as Hc4.
    { apply Z.div_unique with (r := a - 16 * c4); lia. }
    rewrite (down_block_halves a) by lia. cbn [mbind option_bind]. fold c1.
    rewrite (down_block_halves c1) by lia. cbn [mbind option_bind]. fold c2.
    rewrite (down_block_halves c2) by lia. cbn [mbind option_bind]. fold c3.
    rewrite (down_block_halves c3) by lia. cbn [mbind option_bind]. fold c4.
    rewrite (up_block_doubles c4 c3) by lia. cbn [mbind option_bind].
    rewrite (up_block_doubles _ c2) by lia. cbn [mbind option_bind].
    rewrite (up_block_doubles _ c1) by lia. cbn [mbind option_bind].
    rewrite (up_block_doubles _ a) by lia. cbn [mbind option_bind].
    rewrite conv3d_pointwise by lia. f_equal. lia.
  - destruct (Z.le_gt_cases n 0) as [Hneg|Hpos].
    + assert (conv3d 3 0 n = None) as Hfirst.
      { unfold conv3d, positive.
        by destruct (Z.ltb_spec 0 (n + 2 * 0 - (3 - 1))); [lia|]. }
      unfold forward. by rewrite Hfirst.
    + rewrite <- (Z2Nat.id n) by lia. apply forward_too_small. lia.
Qed.

(** X23. [crop_tensor] with a target that fits takes the centred block of
    the target's shape; where the difference of the extents is odd, the
    spare plane is left on the far side. *)
Theorem crop_tensor_centred {A} (tensor : ndarray A) (d h w : Z) :
  0 <= d <= dim0 tensor -> 0 <= h <= dim1 tensor -> 0 <= w <= dim2 tensor ->
  shape (crop_tensor tensor (d, h, w)) = (d, h, w) /\
  forall z y x,
    item (crop_tensor tensor (d, h, w)) z y x =
      item tensor ((dim0 tensor - d) / 2 + z) ((dim1 tensor - h) / 2 + y)
                  ((dim2 tensor - w) / 2 + x).
Proof.
  intros Hd Hh Hw. unfold crop_tensor, slice3.
  assert (forall n c, 0 <= c <= n ->
            slice_axis n ((n - c) / 2) ((n - c) / 2 + c) = ((n - c) / 2, c)) as Hslice.
  { intros n c Hc. apply slice_axis_inside; [|lia|].
    - apply Z.div_pos; lia.
    - pose proof (Z.mul_div_le (n - c) 2). lia. }
  rewrite !Hslice by done. done.
Qed.

End UNetExtent.

(** ** [model_utils.py]: the latest model is the one with the highest number *)

Section ModelOrder.

Import ModelUtils ModelFiles.

Local Abbreviation sou := NilEmpty.string_of_uint.

Lemma digit_of_range (c : ascii) (d : Z) :
  digit_of c = Some d -> 0 <= d <= 9 /\ c = ascii_of_nat (Z.to_nat d + 48).
Proof.
  destruct c as [[] [] [] [] [] [] [] []]; intros H; vm_compute in H;
    try discriminate H; injection H as <-; (split; [lia | reflexivity]).
Qed.

Lemma digit_compare (c1 c2 : ascii) (d1 d2 : Z) :
  digit_of c1 = Some d1 -> digit_of c2 = Some d2 ->
  Ascii.compare c1 c2 = (d1 ?= d2).
Proof.
  intros [H1 ->]%digit_of_range [H2 ->]%digit_of_range.
  assert (d1 = 0 \/ d1 = 1 \/ d1 = 2 \/ d1 = 3 \/ d1 = 4 \/ d1 = 5 \/ d1 = 6 \/
          d1 = 7 \/ d1 = 8 \/ d1 = 9) as Hd1 by lia.
  assert (d2 = 0 \/ d2 = 1 \/ d2 = 2 \/ d2 = 3 \/ d2 = 4 \/ d2 = 5 \/ d2 = 6 \/
          d2 = 7 \/ d2 = 8 \/ d2 = 9) as Hd2 by lia.
  clear H1 H2.
  repeat (destruct Hd1 as [-> | Hd1]); try subst d1;
    repeat (destruct Hd2 as [-> | Hd2]); try subst d2; reflexivity.
Qed.

(** The value of a string of digits, read after an accumulator. *)
Lemma digits_from_scale (s : string) :
  str_all is_digit s = true ->
  exists v, 0 <= v < 10 ^ Z.of_nat (String.length s) /\
    forall acc, digits_from acc true s = Some (acc * 10 ^ Z.of_nat (String.length s) + v).
Proof.
  induction s as [|c r IH].
  - intros _. exists 0. split; [simpl; lia|]. intros acc. simpl. f_equal. lia.
  - cbn [str_all]. intros [Hc Hr]%andb_true_iff.
    unfold is_digit in Hc. destruct (digit_of c) as [d|] eqn:Hd; [|done].
    destruct (digit_of_range _ _ Hd) as [Hrange _].
    destruct (IH Hr) as (w & Hw & Hval).
    cbn [String.length]. rewrite Nat2Z.inj_succ, Z.pow_succ_r by lia.
    exists (d * 10 ^ Z.of_nat (String.length r) + w). split; [nia|].
    intros acc. rewrite (digits_from_digit _ _ _ _ _ Hd), Hval. f_equal. lia.
Qed.

(** Strings of digits of the same length compare as their values do. *)
Lemma compare_digits (s1 : string) :
  forall s2 acc v1 v2 t1 t2,
    str_all is_digit s1 = true -> str_all is_digit s2 = true ->
    String.length s1 = String.length s2 ->
    digits_from acc true s1 = Some v1 -> digits_from acc true s2 = Some v2 ->
    v1 < v2 ->
    String.compare (s1 +:+ t1) (s2 +:+ t2) = Lt.
Proof.
  induction s1 as [|c1 r1 IH]; intros s2 acc v1 v2 t1 t2 H1 H2 Hlen Hv1 Hv2 Hlt.
  - destruct s2; [|done]. simpl in Hv1, Hv2. injection Hv1 as <-. injection Hv2 as <-. lia.
  - destruct s2 as [|c2 r2]; [done|]. injection Hlen as Hlen.
    cbn [str_all] in H1, H2.
    apply andb_true_iff in H1 as [Hc1 Hr1]. apply andb_true_iff in H2 as [Hc2 Hr2].
    unfold is_digit in Hc1, Hc2.
    destruct (digit_of c1) as [d1|] eqn:Hd1; [|done].
    destruct (digit_of c2) as [d2|] eqn:Hd2; [|done].
    rewrite (digits_from_digit _ _ _ _ _ Hd1) in Hv1.
    rewrite (digits_from_digit _ _ _ _ _ Hd2) in Hv2.
    rewrite !string_app_cons. cbn [String.compare].
    rewrite (digit_compare _ _ _ _ Hd1 Hd2).
    destruct (Z.compare_spec d1 d2) as [->|Hd|Hd]; [|done|].
    + by apply (IH r2 (10 * acc + d2) v1 v2).
    + exfalso.
      destruct (digits_from_scale r1 Hr1) as (w1 & Hw1 & Hval1).
      destruct (digits_from_scale r2 Hr2) as (w2 & Hw2 & Hval2).
      rewrite Hval1 in Hv1. rewrite Hval2 in Hv2.
      injection Hv1 as <-. injection Hv2 as <-. rewrite Hlen in *. nia.
Qed.

(** [str] of a positive number does not start with a zero. *)
Lemma to_uint_head (p : positive) :
  match Pos.to_uint p with
  | Decimal.Nil | Decimal.D0 _ => False
  | _ => True
  end.
Proof.
  pose proof (DecimalPos.Unsigned.to_of (Pos.to_uint p)) as Hnorm.
  rewrite DecimalPos.Unsigned.of_to in Hnorm. cbn [N.to_uint] in Hnorm.
  pose proof (DecimalPos.Unsigned.of_to p) as Hof.
  destruct (Pos.to_uint p) as [|u|u|u|u|u|u|u|u|u|u] eqn:Hu; try done.
  rewrite DecimalFacts.unorm_D0 in Hnorm.
  assert (u = Decimal.Nil \/ u <> Decimal.Nil) as [->|Hne]
    by (destruct u; [by left | by right ..]).
  - discriminate Hof.
  - pose proof (DecimalFacts.nb_digits_unorm u Hne) as Hnb.
    rewrite <- Hnorm in Hnb. cbn [Decimal.nb_digits] in Hnb. lia.
Qed.

Lemma string_length_app (s1 s2 : string) :
  String.length (s1 +:+ s2) = (String.length s1 + String.length s2)%nat.
Proof.
  induction s1 as [|c s1 IH]; [done|].
  rewrite string_app_cons. cbn [String.length]. by rewrite IH.
Qed.

Lemma zeros_length (n : nat) :
  String.length (string_of_list_ascii (replicate n "0"%char)) = n.
Proof. induction n as [|n IH]; [done|]. simpl. by rewrite IH. Qed.

Lemma str_of_int_length (n : Z) :
  0 <= n < 1000000 -> (String.length (str_of_int n) <= 6)%nat.
Proof.
  intros Hn. unfold str_of_int. destruct n as [|p|p]; [simpl; lia| |lia].
  cbn [Z.to_int NilEmpty.string_of_int].
  pose proof (digits_from_uint (Pos.to_uint p)) as Hval.
  rewrite DecimalPos.Unsigned.of_to in Hval. cbn [Z.of_N] in Hval.
  pose proof (to_uint_head p) as Hhead.
  pose proof (string_of_uint_digits (Pos.to_uint p)) as Hdig.
  change NilEmpty.string_of_uint with sou.
  assert (exists c r d, sou (Pos.to_uint p) = String c r /\ digit_of c = Some d /\ 1 <= d)
    as (c & r & d & Hs & Hd & Hd1).
  { destruct (Pos.to_uint p); try done;
      cbn [NilEmpty.string_of_uint]; eexists _, _, _;
      (split; [reflexivity|]); (split; [reflexivity | by vm_compute]). }
  rewrite Hs in *. cbn [str_all] in Hdig. apply andb_true_iff in Hdig as [_ Hr].
  rewrite (digits_from_digit _ _ _ _ _ Hd) in Hval.
  destruct (digits_from_scale r Hr) as (w & Hw & Hvalr).
  rewrite Hvalr in Hval. injection Hval as Hval.
  cbn [String.length].
  assert (10 ^ Z.of_nat (String.length r) < 10 ^ 6) as Hpow by nia.
  apply Z.pow_lt_mono_r_iff in Hpow; lia.
Qed.

(** The six digits in front of a model name. *)
Lemma zfill_number (n : Z) :
  0 <= n < 1000000 ->
  str_all is_digit (zfill 6 (str_of_int n)) = true /\
  String.length (zfill 6 (str_of_int n)) = 6%nat /\
  digits_from 0 true (zfill 6 (str_of_int n)) = Some n.
Proof.
  intros Hn. pose proof (str_of_int_length n Hn) as Hlen.
  assert (str_all is_digit (str_of_int n) = true /\
          digits_from 0 true (str_of_int n) = Some n) as [Hdig Hval].
  { unfold str_of_int. destruct n as [|p|p]; [done| |lia].
    cbn [Z.to_int NilEmpty.string_of_int]. split; [apply string_of_uint_digits|].
    change NilEmpty.string_of_uint with sou.
    by rewrite digits_from_uint, DecimalPos.Unsigned.of_to. }
  rewrite zfill_digits by done. repeat split.
  - by rewrite str_all_app, zeros_digits, Hdig.
  - rewrite string_length_app, zeros_length. lia.
  - by rewrite digits_from_zeros.
Qed.

Lemma model_name_compare (a b now_a now_b : Z) :
  0 <= a -> a < b -> b < 1000000 ->
  String.compare (model_name a now_a) (model_name b now_b) = Lt.
Proof.
  intros Ha Hab Hb. unfold model_name.
  destruct (zfill_number a) as (Hda & Hla & Hva); [lia|].
  destruct (zfill_number b) as (Hdb & Hlb & Hvb); [lia|].
  apply (compare_digits _ _ 0 a b); try done. congruence.
Qed.

(** X25. When the model directory holds model files with numbers below one
    million, [get_prev_model] loads the file with the highest number: the
    zero-filled number in front of the name makes the order of the names
    the order of the numbers. *)
Theorem get_prev_model_highest_number {F Classes : Type} (ls : string -> list string)
    (build_model : Classes -> string -> result (@model F))
    (model_dir : string) (classes : Classes) (c : cache) (saved : list (Z * Z)) :
  saved <> [] ->
  Forall (fun nt => 0 <= nt.1 < 1000000) saved ->
  ls model_dir = (fun nt => model_name nt.1 nt.2) <$> saved ->
  exists model_num now,
    (model_num, now) ∈ saved /\
    (forall nt, nt ∈ saved -> nt.1 <= model_num) /\
    get_prev_model ls build_model model_dir classes c =
      match load_model build_model (OsPath.join model_dir (model_name model_num now))
              classes c with
      | (Ok prev_model, c') =>
          (Ok (prev_model, OsPath.join model_dir (model_name model_num now)), c')
      | (Raise e, c') => (Raise e, c')
      end.
Proof.
  intros Hne Hall Hls.
  destruct (get_prev_model_max_name ls build_model model_dir classes c)
    as (m & Hm & Hmax & Hget).
  { rewrite Hls. by destruct saved. }
  rewrite Hls in Hm, Hmax. apply list_elem_of_fmap in Hm as ([n now] & -> & Hin).
  exists n, now. split; [done|]. split; [|exact Hget].
  intros [n' now'] Hin'. cbn [fst].
  destruct (Z.le_gt_cases n' n) as [|Hgt]; [done|]. exfalso.
  rewrite Forall_forall in Hall.
  pose proof (Hall _ Hin) as Hn. pose proof (Hall _ Hin') as Hn'. cbn [fst] in Hn, Hn'.
  assert (String.le (model_name n' now') (model_name n now)) as Hle.
  { apply Hmax. apply list_elem_of_fmap. by exists (n', now'). }
  unfold String.le, String.leb in Hle.
  rewrite String.compare_antisym in Hle.
  rewrite (model_name_compare n n' now now') in Hle by lia. done.
Qed.

End ModelOrder.

(** ** [ensemble_segment_3d]: pad values written with [str] are read back *)

Section PadFields.

Import ModelUtils.

Lemma replace_suffix (s : string) :
  str_all (is_not ".") s = true ->
  replace ".nii.gz" "" (s +:+ ".nii.gz") = s.
Proof.
  unfold replace. induction s as [|c s IH]; [done|].
  cbn [str_all]. intros [Hc Hs]%andb_true_iff.
  rewrite string_app_cons. cbn [replace_from].
  change (is_prefix ".nii.gz" (String c (s +:+ ".nii.gz")))
    with (if Ascii.eqb "." c then is_prefix "nii.gz" (s +:+ ".nii.gz") else false).
  unfold is_not in Hc. destruct (Ascii.eqb "." c); [done|].
  by rewrite IH.
Qed.

Lemma str_all_join (P : ascii -> bool) (sep : ascii) (parts : list string) :
  P sep = true ->
  Forall (fun t => str_all P t = true) parts ->
  str_all P (str_join (String sep "") parts) = true.
Proof.
  intros Hsep. unfold str_join. induction parts as [|t parts IH]; [done|].
  intros [Ht Hparts]%Forall_cons. destruct parts as [|t' parts]; [done|].
  rewrite concat_cons by done. rewrite !str_all_app, Ht, IH by done.
  cbn [str_all]. by rewrite Hsep.
Qed.

Lemma str_of_int_plain (c : ascii) (n : Z) :
  c <> "-"%char -> is_digit c = false ->
  str_all (is_not c) (str_of_int n) = true.
Proof.
  intros Hm Hd. apply (str_all_impl int_char).
  - by apply int_char_not.
  - apply str_of_int_chars.
Qed.

(** X26. A bounded file name whose last eight underscore-separated parts
    before [.nii.gz] hold the six pad values as [str] writes them, at the
    places the code reads, gives these values back, negative ones too;
    the other parts may be any text without underscores and dots. *)
Theorem bounded_crop_values_of_str (pre : list string) (key_y key_z : string)
    (x_pad_start x_pad_end y_pad_start y_pad_end z_pad_start z_pad_end : Z) :
  Forall (fun t => str_all (is_not "_") t = true) (pre ++ [key_y; key_z]) ->
  Forall (fun t => str_all (is_not ".") t = true) (pre ++ [key_y; key_z]) ->
  bounded_crop_values
    (str_join "_" (pre ++ [str_of_int x_pad_start; str_of_int x_pad_end; key_y;
                           str_of_int y_pad_start; str_of_int y_pad_end; key_z;
                           str_of_int z_pad_start; str_of_int z_pad_end])
     +:+ ".nii.gz")
  = Ok (x_pad_start, x_pad_end, y_pad_start, y_pad_end, z_pad_start, z_pad_end).
Proof.
  intros Hus Hdot.
  apply Forall_app in Hus as [Hus_pre Hus_keys].
  apply Forall_app in Hdot as [Hdot_pre Hdot_keys].
  apply Forall_cons in Hus_keys as [Huy Hus_keys].
  apply Forall_cons in Hus_keys as [Huz _].
  apply Forall_cons in Hdot_keys as [Hdy Hdot_keys].
  apply Forall_cons in Hdot_keys as [Hdz _].
  set (fields := [str_of_int x_pad_start; str_of_int x_pad_end; key_y;
                  str_of_int y_pad_start; str_of_int y_pad_end; key_z;
                  str_of_int z_pad_start; str_of_int z_pad_end]).
  assert (forall c, c <> "-"%char -> is_digit c = false ->
            str_all (is_not c) key_y = true -> str_all (is_not c) key_z = true ->
            Forall (fun t => str_all (is_not c) t = true) pre ->
            Forall (fun t => str_all (is_not c) t = true) (pre ++ fields)) as Hplain.
  { intros c Hm Hd Hy Hz Hpre. apply Forall_app. split; [done|].
    subst fields. repeat (apply Forall_cons; split; [by auto using str_of_int_plain|]).
    apply Forall_nil_2. }
  rewrite (bounded_crop_values_positional _ pre
             (str_of_int x_pad_start) (str_of_int x_pad_end) key_y
             (str_of_int y_pad_start) (str_of_int y_pad_end) key_z
             (str_of_int z_pad_start) (str_of_int z_pad_end)).
  - by rewrite !int_str.
  - unfold fname_parts. fold fields.
    rewrite replace_suffix.
    + apply split_join; [by destruct pre | by apply Hplain].
    + apply str_all_join; [done | by apply Hplain].
Qed.

End PadFields.

(** ** The change-watch loop deletes nothing but messages *)

Section WatchFrame.

Import RootPainter.

Context {Img Seg Props : Type}.
Variable decode_seg : string -> Img -> result (Seg * Props).

Local Abbreviation painter := (@painter Img Seg Props).
Local Abbreviation check := (check decode_seg).

Lemma show_messages_removes (messages : list string) (p : painter) (w : fs) (q : string) :
  lookup_path q (show_messages messages p w).2 = lookup_path q w \/
  (lookup_path q (show_messages messages p w).2 = None /\
   exists m, m ∈ messages /\ q = OsPath.join (message_dir p) m).
Proof.
  revert p w. induction messages as [|m rest IH]; intros p w; [by left|].
  cbn [show_messages].
  set (p1 := if has_info_label p then qt (SetInfoText m) p else p).
  assert (message_dir p1 = message_dir p) as Hdir
    by (subst p1; by destruct (has_info_label p)).
  assert (forall (p2 : painter) w2, message_dir p2 = message_dir p ->
            lookup_path q (show_messages rest p2 w2).2 = lookup_path q w2 \/
            (lookup_path q (show_messages rest p2 w2).2 = None /\
             exists m', m' ∈ m :: rest /\ q = OsPath.join (message_dir p) m')) as IH'.
  { intros p2 w2 Hp2. destruct (IH p2 w2) as [Hsame | (Hgone & m' & Hin & Hq)].
    - by left.
    - right. split; [done|]. exists m'. rewrite <- Hp2. split; [by right | done]. }
  destruct (remove (OsPath.join (message_dir p1) m) w) as [w1|e] eqn:Hrm.
  - destruct (IH' p1 w1 Hdir) as [Hsame | Hgone]; [|by right].
    rewrite Hsame, (remove_lookup _ q _ _ Hrm).
    destruct (decide (q = OsPath.join (message_dir p1) m)) as [->|]; [|by left].
    right. split; [done|]. exists m. rewrite Hdir. split; [by left | done].
  - apply IH'. exact Hdir.
Qed.

(** X27. A tick of the watch loop deletes nothing but messages and
    creates nothing: every path either names the same file after the tick
    as before, or is the path of a listed message and names no file any
    more.  The segmentation, the annotations and the images are out of
    its reach, and the directories stay as they are. *)
Theorem check_removes_only_messages (p p' : painter) (w w' : fs) (messages : list string) :
  listdir (message_dir p) w = Ok messages ->
  check p w = Ok (p', w') ->
  dirs w' = dirs w /\
  forall q,
    lookup_path q w' = lookup_path q w \/
    (lookup_path q w' = None /\
     exists m, m ∈ messages /\ q = OsPath.join (message_dir p) m).
Proof.
  intros Hlist. unfold RootPainter.check. rewrite Hlist. cbn [mbind result_bind].
  destruct (show_messages_frame messages p w) as [_ Hdirs].
  pose proof (show_messages_removes messages p w) as Hq.
  destruct (show_messages messages p w) as [p1 w1]. cbn [snd] in *.
  intros [= _ <-]. done.
Qed.

End WatchFrame.

(** ** Upper-case DICOM names *)

Section DicomNames.

Import FileUtils.

Lemma replace_from_skip (old new s : string) :
  replace_from (String.length s) old new s = "".
Proof. induction s as [|c s IH]; [done|]. exact IH. Qed.

(** A string that ends in [old], with nothing before that could start
    an occurrence of it, has this one occurrence replaced. *)
Lemma replace_tail (c : ascii) (old' new s : string) :
  str_all (is_not c) s = true ->
  replace (String c old') new (s +:+ String c old') = s +:+ new.
Proof.
  unfold replace. induction s as [|d s IH].
  - intros _. change ("" +:+ String c old') with (String c old').
    cbn [replace_from is_prefix]. rewrite Ascii.eqb_refl.
    assert (is_prefix old' old' = true) as ->
      by (rewrite <- (string_app_nil_r old') at 2; apply is_prefix_app).
    replace (String.length (String c old') - 1)%nat with (String.length old')
      by (cbn [String.length]; lia).
    by rewrite replace_from_skip, string_app_nil_r.
  - cbn [str_all]. intros [Hd Hs]%andb_true_iff.
    rewrite !string_app_cons. cbn [replace_from is_prefix].
    unfold is_not in Hd. destruct (Ascii.eqb c d); [done|]. by rewrite IH.
Qed.

(** Nothing is replaced in front of a tail that starts with the first
    character of [old], when the characters before it differ from it. *)
Lemma replace_front (c : ascii) (old' new s tail : string) :
  str_all (is_not c) s = true ->
  replace (String c old') new (s +:+ tail) = s +:+ replace (String c old') new tail.
Proof.
  unfold replace. induction s as [|d s IH]; [done|].
  cbn [str_all]. intros [Hd Hs]%andb_true_iff.
  rewrite !string_app_cons. cbn [replace_from is_prefix].
  unfold is_not in Hd. destruct (Ascii.eqb c d); [done|]. by rewrite IH.
Qed.

Lemma is_dicom_upper (stem : string) : is_dicom_name (stem +:+ ".DCM") = true.
Proof.
  unfold is_dicom_name. cbn [existsb]. rewrite (endswith_app stem ".DCM").
  by rewrite !orb_true_r.
Qed.

(** X28. For an image named with the upper-case ending [.DCM] (and no
    other dot), the two look-ups disagree on the name: [get_annot_path]
    looks for the annotation under the name with [.nii.gz], while
    [penultimate_fname_with_segmentation] looks for the segmentation
    under the unchanged [.DCM] name. *)
Theorem upper_case_dicom_names_differ (stem : string) :
  str_all (is_not ".") stem = true ->
  annot_fname (stem +:+ ".DCM") = stem +:+ ".nii.gz" /\
  seg_base_fname (stem +:+ ".DCM") = stem +:+ ".DCM".
Proof.
  intros Hstem. unfold annot_fname, seg_base_fname. rewrite is_dicom_upper. split.
  - rewrite (replace_front "." "dcm" ".nii.gz" stem ".DCM" Hstem).
    change (replace ".dcm" ".nii.gz" ".DCM") with ".DCM".
    apply (replace_tail "." "DCM" ".nii.gz" stem Hstem).
  - by rewrite (replace_front "." "dcm" ".nii.gz" stem ".DCM" Hstem).
Qed.

End DicomNames.

(** ** The properties above on concrete inputs *)

Lemma save_model_increments_witness :
  exists model_path sep,
    ModelFiles.save_model (∅ : gmap string nat) "models" 7%nat
      "models/000003_1600000300.pkl" 1600000400
      = Ok (<[model_path := 7%nat]> ∅) /\
    (sep = "" \/ sep = "/") /\
    model_path = "models" +:+ sep +:+ ModelFiles.model_name (3 + 1) 1600000400 /\
    model_path = OsPath.join "models" (ModelFiles.model_name (3 + 1) 1600000400) /\
    OsPath.basename model_path = ModelFiles.model_name (3 + 1) 1600000400 /\
    ModelFiles.model_number model_path = Ok (3 + 1).
Proof.
  apply (save_model_increments ∅ "models" 7%nat "models/000003_1600000300.pkl"
           1600000400 3).
  vm_compute. reflexivity.
Defined.

Lemma get_latest_model_paths_last_witness :
  ModelFiles.get_latest_model_paths MoreRuns.model_files "models" 2 =
    OsPath.join "models" <$>
      (if 2 =? 0 then sorted (MoreRuns.model_files "models")
       else drop (length (MoreRuns.model_files "models") - Z.to_nat 2)
              (sorted (MoreRuns.model_files "models"))).
Proof.
  apply (get_latest_model_paths_last MoreRuns.model_files "models" 2). lia.
Defined.

Lemma get_prev_model_greatest_witness :
  exists m,
    m ∈ MoreRuns.model_files "models" /\
    (forall f, f ∈ MoreRuns.model_files "models" -> String.le f m) /\
    ModelFiles.get_prev_model MoreRuns.model_files MoreRuns.build_one "models" tt
      ModelUtils.empty_cache =
      match ModelUtils.load_model MoreRuns.build_one (OsPath.join "models" m) tt
              ModelUtils.empty_cache with
      | (Ok prev_model, c') => (Ok (prev_model, OsPath.join "models" m), c')
      | (Raise e, c') => (Raise e, c')
      end.
Proof.
  apply (get_prev_model_greatest MoreRuns.model_files MoreRuns.build_one "models" tt
           ModelUtils.empty_cache).
  discriminate.
Defined.

Lemma load_model_cache_hit_witness :
  ModelUtils.load_model (fun _ _ => Raise OSError) "models/000003_1600000300.pkl" tt
    (ModelUtils.mk_cache (Some MoreRuns.identity_model)
       (Some "models/000003_1600000300.pkl"))
  = (Ok MoreRuns.identity_model,
     ModelUtils.mk_cache (Some MoreRuns.identity_model)
       (Some "models/000003_1600000300.pkl")).
Proof.
  apply (load_model_cache_hit MoreRuns.build_one (fun _ _ => Raise OSError)
           "models/000003_1600000300.pkl" tt tt ModelUtils.empty_cache
           (ModelUtils.mk_cache (Some MoreRuns.identity_model)
              (Some "models/000003_1600000300.pkl"))
           MoreRuns.identity_model).
  reflexivity.
Defined.

Lemma load_model_other_path_witness :
  ModelUtils.load_model MoreRuns.build_one "models/000002_1600000200.pkl" tt
    (ModelUtils.mk_cache (Some MoreRuns.identity_model)
       (Some "models/000003_1600000300.pkl"))
  = match MoreRuns.build_one tt "models/000002_1600000200.pkl" with
    | Ok m' => (Ok m', ModelUtils.mk_cache (Some m') (Some "models/000002_1600000200.pkl"))
    | Raise e =>
        (Raise e,
         ModelUtils.mk_cache (Some MoreRuns.identity_model)
           (Some "models/000003_1600000300.pkl"))
    end.
Proof.
  apply (load_model_other_path MoreRuns.build_one MoreRuns.build_one
           "models/000003_1600000300.pkl" "models/000002_1600000200.pkl" tt tt
           ModelUtils.empty_cache
           (ModelUtils.mk_cache (Some MoreRuns.identity_model)
              (Some "models/000003_1600000300.pkl"))
           MoreRuns.identity_model).
  - reflexivity.
  - discriminate.
Defined.

Lemma penultimate_fname_second_to_last_witness :
  let segmented :=
    filter (fun f => FileUtils.seg_base_fname f ∈ ["a.nii.gz"; "b.nii.gz"; "c.nii.gz"])
           ["a.nrrd"; "x.nii.gz"; "b.nii.gz"; "c.nii.gz"] in
  FileUtils.penultimate_fname_with_segmentation MoreRuns.seg_listing MoreRuns.no_dirs
    ["a.nrrd"; "x.nii.gz"; "b.nii.gz"; "c.nii.gz"] "proj/segmentations" =
    Ok (if decide (2 <= length segmented)%nat
        then segmented !! (length segmented - 2)%nat
        else None).
Proof.
  apply (penultimate_fname_second_to_last MoreRuns.seg_listing MoreRuns.no_dirs
           ["a.nrrd"; "x.nii.gz"; "b.nii.gz"; "c.nii.gz"]
           ["a.nii.gz"; "b.nii.gz"; "c.nii.gz"] "proj/segmentations").
  reflexivity.
Defined.

Lemma maybe_save_create_files_witness :
  let annot_dir :=
    FileUtils.get_new_annot_target_dir "proj/annotations/train" "proj/annotations/val"
      MoreRuns.no_files in
  exists w',
    SaveRuns.save SaveRuns.stored None MoreRuns.no_files =
      (Ok (Some (OsPath.join annot_dir "scan.nii.gz")), w') /\
    FileUtils.files w' =
      <[OsPath.join annot_dir "scan.nii.gz" := FileUtils.astype_byte SaveRuns.stored]>
        (delete (OsPath.join annot_dir (".tmp_" +:+ "scan.nii.gz"))
           (FileUtils.files MoreRuns.no_files)).
Proof.
  apply (maybe_save_create_files [1; 1; 1] "proj/annotations/train" "proj/annotations/val"
           SaveRuns.stored None "scan.nii.gz" MoreRuns.no_files).
  - reflexivity.
  - reflexivity.
Defined.

Lemma maybe_save_empty_removes_witness :
  exists w',
    SaveRuns.save MoreRuns.cleared (Some SaveRuns.annot_file) SaveRuns.before =
      (Ok (Some SaveRuns.annot_file), w') /\
    FileUtils.files w' = delete SaveRuns.annot_file (FileUtils.files SaveRuns.before) /\
    SaveRuns.save SaveRuns.edited (Some SaveRuns.annot_file) w' = (Raise OSError, w').
Proof.
  apply (maybe_save_empty_removes [1; 1; 1] "proj/annotations/train" "proj/annotations/val"
           MoreRuns.cleared SaveRuns.stored SaveRuns.edited SaveRuns.annot_file
           "scan.nii.gz" SaveRuns.before).
  - discriminate.
  - reflexivity.
  - discriminate.
  - reflexivity.
Defined.

Lemma maybe_save_twice_witness :
  SaveRuns.save SaveRuns.stored (Some SaveRuns.annot_file) MoreRuns.created.2 =
    (Ok (Some SaveRuns.annot_file), MoreRuns.created.2).
Proof.
  apply (maybe_save_twice [1; 1; 1] "proj/annotations/train" "proj/annotations/val"
           SaveRuns.stored None (Some SaveRuns.annot_file) "scan.nii.gz"
           MoreRuns.no_files MoreRuns.created.2).
  - unfold FileUtils.binary. cbn. repeat (constructor; [lia|]). constructor.
  - reflexivity.
  - discriminate.
  - vm_compute. reflexivity.
Defined.

Lemma get_annot_path_after_create_witness :
  exists path w',
    FileUtils.maybe_save_annotation_3d [1; 1; 1] SaveRuns.stored None
      (FileUtils.annot_fname "scan.nrrd") "proj/annotations/train" "proj/annotations/val"
      MoreRuns.no_files = (Ok (Some path), w') /\
    FileUtils.get_annot_path "scan.nrrd" "proj/annotations/train" "proj/annotations/val" w'
      = Some path.
Proof.
  apply (get_annot_path_after_create [1; 1; 1] "proj/annotations/train"
           "proj/annotations/val" SaveRuns.stored "scan.nrrd" MoreRuns.no_files).
  - reflexivity.
  - reflexivity.
Defined.

Lemma check_second_tick_keeps_segmentation_witness :
  RootPainter.seg_state MoreRuns.second_tick.1 = RootPainter.seg_state MoreRuns.first_tick.1.
Proof.
  apply (check_second_tick_keeps_segmentation WatchRuns.decode WatchRuns.waiting
           MoreRuns.first_tick.1 MoreRuns.second_tick.1 WatchRuns.tree
           MoreRuns.first_tick.2 MoreRuns.second_tick.2).
  - vm_compute. reflexivity.
  - vm_compute. reflexivity.
Defined.

Lemma check_after_update_segmentation_witness :
  RootPainter.seg_state (MoreRuns.tick (MoreRuns.updated, WatchRuns.tree)).1 =
    RootPainter.seg_state MoreRuns.updated.
Proof.
  apply (check_after_update_segmentation WatchRuns.decode WatchRuns.waiting
           MoreRuns.updated (MoreRuns.tick (MoreRuns.updated, WatchRuns.tree)).1
           WatchRuns.tree (MoreRuns.tick (MoreRuns.updated, WatchRuns.tree)).2).
  - vm_compute. reflexivity.
  - vm_compute. reflexivity.
Defined.

Lemma check_label_shows_last_message_witness :
  exists p' w',
    RootPainter.check WatchRuns.decode WatchRuns.waiting WatchRuns.tree = Ok (p', w') /\
    RootPainter.info_text (RootPainter.gui p') = Some "Training started".
Proof.
  apply (check_label_shows_last_message WatchRuns.decode WatchRuns.waiting WatchRuns.tree
           ["Training started"] "Training started").
  - reflexivity.
  - reflexivity.
  - reflexivity.
Defined.

Lemma find_bounded_fname_finds_witness :
  exists f,
    RootPainter.find_bounded_fname
      ["other.nii.gz"; "scan_1" +:+ "_" +:+ str_join "_" MoreRuns.fields]
      ("scan_1" +:+ ".nii.gz") = Some f /\
    f ∈ ["other.nii.gz"; "scan_1" +:+ "_" +:+ str_join "_" MoreRuns.fields] /\
    RootPainter.original_name f = "scan_1" +:+ ".nii.gz".
Proof.
  apply (find_bounded_fname_finds
           ["other.nii.gz"; "scan_1" +:+ "_" +:+ str_join "_" MoreRuns.fields]
           "scan_1" MoreRuns.fields).
  - reflexivity.
  - unfold MoreRuns.fields. repeat (constructor; [reflexivity|]). constructor.
  - reflexivity.
  - apply list_elem_of_In. simpl. tauto.
Defined.

Lemma find_bounded_fname_needs_nii_gz_witness :
  RootPainter.find_bounded_fname
    ["scan" +:+ "_" +:+ str_join "_" MoreRuns.fields] "scan.nrrd" = None.
Proof.
  apply (find_bounded_fname_needs_nii_gz
           ["scan" +:+ "_" +:+ str_join "_" MoreRuns.fields] "scan.nrrd").
  reflexivity.
Defined.

Lemma three_images_NoDup : NoDup (Nav.get_paths MoreRuns.three_images).
Proof.
  apply NoDup_ListNoDup.
  repeat (constructor; [simpl; intuition discriminate|]). constructor.
Qed.

Lemma update_to_next_image_wraps_witness :
  let len := Z.of_nat (length (Nav.get_paths MoreRuns.three_images)) in
  let j := if len <=? 2 + 1 then 0 else 2 + 1 in
  exists n',
    Nav.update_to_next_image MoreRuns.three_images = Ok n' /\
    Nav.position n' = Ok j /\
    Nav.all_fnames n' = Nav.all_fnames MoreRuns.three_images /\
    Nav.dataset_folder n' = Nav.dataset_folder MoreRuns.three_images /\
    Nav.nav_label n' = str_of_int (j + 1) +:+ " / " +:+ str_of_int len.
Proof.
  apply (update_to_next_image_wraps MoreRuns.three_images 2).
  - exact three_images_NoDup.
  - reflexivity.
Defined.

Lemma show_prev_image_clamps_witness :
  exists n',
    Nav.show_prev_image MoreRuns.three_images = Ok n' /\
    Nav.position n' = Ok (Z.max 0 (2 - 1)) /\
    Nav.all_fnames n' = Nav.all_fnames MoreRuns.three_images /\
    Nav.dataset_folder n' = Nav.dataset_folder MoreRuns.three_images /\
    Nav.nav_label n' =
      str_of_int (Z.max 0 (2 - 1) + 1) +:+ " / " +:+
      str_of_int (Z.of_nat (length (Nav.get_paths MoreRuns.three_images))).
Proof.
  apply (show_prev_image_clamps MoreRuns.three_images 2).
  - exact three_images_NoDup.
  - reflexivity.
Defined.

Lemma nav_off_list_raises_witness :
  Nav.update_to_next_image MoreRuns.off_list = Raise ValueError /\
  Nav.show_prev_image MoreRuns.off_list = Raise ValueError /\
  Nav.update_nav_label MoreRuns.off_list = Raise ValueError.
Proof.
  apply (nav_off_list_raises MoreRuns.off_list).
  intros Hin. apply list_elem_of_In in Hin. simpl in Hin. intuition discriminate.
Defined.

Lemma crop_tensor_centred_witness :
  shape (UNet3D.crop_tensor MoreRuns.depth_ramp (2, 2, 2)) = (2, 2, 2) /\
  forall z y x,
    item (UNet3D.crop_tensor MoreRuns.depth_ramp (2, 2, 2)) z y x =
      item MoreRuns.depth_ramp ((dim0 MoreRuns.depth_ramp - 2) / 2 + z)
        ((dim1 MoreRuns.depth_ramp - 2) / 2 + y)
        ((dim2 MoreRuns.depth_ramp - 2) / 2 + x).
Proof.
  apply (crop_tensor_centred MoreRuns.depth_ramp 2 2 2); cbn; lia.
Defined.

Lemma get_prev_model_highest_number_witness :
  exists model_num now,
    (model_num, now) ∈ [(2, 1600000200); (1, 1600000100); (3, 1600000300)] /\
    (forall nt, nt ∈ [(2, 1600000200); (1, 1600000100); (3, 1600000300)] ->
       nt.1 <= model_num) /\
    ModelFiles.get_prev_model MoreRuns.model_files MoreRuns.build_one "models" tt
      ModelUtils.empty_cache =
      match ModelUtils.load_model MoreRuns.build_one
              (OsPath.join "models" (ModelFiles.model_name model_num now)) tt
              ModelUtils.empty_cache with
      | (Ok prev_model, c') =>
          (Ok (prev_model, OsPath.join "models" (ModelFiles.model_name model_num now)), c')
      | (Raise e, c') => (Raise e, c')
      end.
Proof.
  apply (get_prev_model_highest_number MoreRuns.model_files MoreRuns.build_one "models" tt
           ModelUtils.empty_cache [(2, 1600000200); (1, 1600000100); (3, 1600000300)]).
  - discriminate.
  - repeat (constructor; [simpl; lia|]). constructor.
  - vm_compute. reflexivity.
Defined.

Lemma bounded_crop_values_of_str_witness :
  ModelUtils.bounded_crop_values
    (str_join "_" (["scan"; "x"; "10"; "y"; "20"; "z"; "5"; "pad"; "x"] ++
                   [str_of_int 0; str_of_int 3; "y"; str_of_int (-1); str_of_int 0; "z";
                    str_of_int 2; str_of_int 4])
     +:+ ".nii.gz")
  = Ok (0, 3, -1, 0, 2, 4).
Proof.
  apply (bounded_crop_values_of_str ["scan"; "x"; "10"; "y"; "20"; "z"; "5"; "pad"; "x"]
           "y" "z" 0 3 (-1) 0 2 4).
  - repeat (constructor; [reflexivity|]). constructor.
  - repeat (constructor; [reflexivity|]). constructor.
Defined.

Lemma check_removes_only_messages_witness :
  RootPainter.dirs MoreRuns.first_tick.2 = RootPainter.dirs WatchRuns.tree /\
  forall q,
    RootPainter.lookup_path q MoreRuns.first_tick.2 = RootPainter.lookup_path q WatchRuns.tree \/
    (RootPainter.lookup_path q MoreRuns.first_tick.2 = None /\
     exists m, m ∈ ["Training started"] /\
       q = OsPath.join (RootPainter.message_dir WatchRuns.waiting) m).
Proof.
  apply (check_removes_only_messages WatchRuns.decode WatchRuns.waiting
           MoreRuns.first_tick.1 WatchRuns.tree MoreRuns.first_tick.2
           ["Training started"]).
  - reflexivity.
  - vm_compute. reflexivity.
Defined.

Lemma upper_case_dicom_names_differ_witness :
  FileUtils.annot_fname ("scan" +:+ ".DCM") = "scan" +:+ ".nii.gz" /\
  FileUtils.seg_base_fname ("scan" +:+ ".DCM") = "scan" +:+ ".DCM".
Proof.
  apply (upper_case_dicom_names_differ "scan"). reflexivity.
Defined.
